(** * Feishu webhook routes of moltworker: staged PDF intake and analysis

    A shallow embedding of [src/routes/feishu.ts]: the webhook handler, the
    file stager [downloadAndSaveFeishuFile] and the pipeline
    [processPdfAndReply], followed by the properties of the specification
    that are decided by this code.

    The code talks to an object store (R2), to the chat platform and to the
    document-understanding service.  Every such call is an observable
    [Event]; what the outside world answers is given by a [World], which sees
    the events so far.  A computation maps the history to the events it adds
    and to its outcome, a value or a thrown error. *)

From Stdlib Require Import List NArith ZArith Bool Ascii String Lia.
From Stdlib Require Import DecimalString.
From Stdlib Require DecimalZ DecimalPos.
From Stdlib Require Import Sorting.Permutation Sorting.Sorted.
Import ListNotations.

Set Implicit Arguments.
Set Warnings "-register-all".

(* ================================================================== *)
(** * JavaScript strings *)
(* ================================================================== *)

(** A JavaScript string is a sequence of UTF-16 code units; [length],
    [substring], [split] and [endsWith] all count code units. *)
Module JsString.

Definition code_unit := N.
Definition jsstring := list code_unit.

(** An ASCII literal of the source. *)
Fixpoint lit (s : string) : jsstring :=
  match s with
  | EmptyString => []
  | String a r => N_of_ascii a :: lit r
  end.

Fixpoint eqb (s t : jsstring) : bool :=
  match s, t with
  | [], [] => true
  | a :: s', b :: t' => N.eqb a b && eqb s' t'
  | _, _ => false
  end.

(** [String.prototype.toLowerCase].  The letters A to Z go to a to z.  Code
    units outside ASCII are kept: the Unicode lower-case mappings of
    non-ASCII letters never produce the units of [".pdf"], the only thing
    this program looks for in a lower-cased string. *)
Definition lower_unit (c : code_unit) : code_unit :=
  if (N.leb 65 c && N.leb c 90)%bool then (c + 32)%N else c.

Definition toLowerCase (s : jsstring) : jsstring := map lower_unit s.

(** [s.startsWith(p)] *)
Fixpoint startsWith (s p : jsstring) {struct p} : bool :=
  match p, s with
  | [], _ => true
  | _ :: _, [] => false
  | a :: p', b :: s' => N.eqb a b && startsWith s' p'
  end.

(** [s.endsWith(suffix)]: the comparison starts at
    [s.length - suffix.length], and fails when that is negative. *)
Definition endsWith (s suffix : jsstring) : bool :=
  (Nat.leb (List.length suffix) (List.length s)
   && eqb (skipn (List.length s - List.length suffix) s) suffix)%bool.

(** [s.includes(p)] *)
Fixpoint includes (s p : jsstring) : bool :=
  (startsWith s p || match s with
                     | [] => false
                     | _ :: s' => includes s' p
                     end)%bool.

(** [s.split(sep)] for a separator of one code unit. *)
Fixpoint split (sep : code_unit) (s : jsstring) : list jsstring :=
  match s with
  | [] => [[]]
  | c :: s' =>
      if N.eqb c sep then [] :: split sep s'
      else match split sep s' with
           | [] => [[c]]
           | w :: ws => (c :: w) :: ws
           end
  end.

(** [a.join(sep)] *)
Fixpoint join (sep : jsstring) (a : list jsstring) : jsstring :=
  match a with
  | [] => []
  | [x] => x
  | x :: rest => x ++ sep ++ join sep rest
  end.

(** [a.slice(1)] *)
Definition slice1 (A : Type) (a : list A) : list A := tl a.

(** [s.substring(0, n)] *)
Definition substring0 (n : nat) (s : jsstring) : jsstring := firstn n s.

(** Decimal text of an integer, as a template literal prints it (a number
    below 10^21 in absolute value). *)
Definition of_Z (z : Z) : jsstring := lit (NilZero.string_of_int (Z.to_int z)).

Definition underscore : code_unit := 95%N.
Definition slash : code_unit := 47%N.

End JsString.
Import JsString.

(* ================================================================== *)
(** * JavaScript values of type [any] *)
(* ================================================================== *)

(** The values the code reads out of parsed JSON.  Numbers are kept as
    integers: the code only compares them with [0], tests their truthiness
    and prints them. *)
Inductive JsValue : Type :=
| VUndef
| VNull
| VBool (b : bool)
| VNum (z : Z)
| VStr (s : jsstring)
| VArr (items : list JsValue)
| VObj (fields : list (jsstring * JsValue)).

Record JsError : Type := Err { message : jsstring }.

(** Outcome of an expression or of an awaited promise. *)
Inductive Res (A : Type) : Type :=
| Normal (a : A)
| Thrown (e : JsError).
Arguments Normal {A} a.
Arguments Thrown {A} e.

Module Js.

Definition nullish (v : JsValue) : bool :=
  match v with VUndef | VNull => true | _ => false end.

(** ToBoolean *)
Definition truthy (v : JsValue) : bool :=
  match v with
  | VUndef | VNull => false
  | VBool b => b
  | VNum z => negb (Z.eqb z 0)
  | VStr s => match s with [] => false | _ => true end
  | VArr _ | VObj _ => true
  end.

(** [a || b] *)
Definition or_else (a b : JsValue) : JsValue := if truthy a then a else b.

(** [v === 0] *)
Definition is_zero (v : JsValue) : bool :=
  match v with VNum z => Z.eqb z 0 | _ => false end.

(** [v === 'literal'] *)
Definition strict_eq_str (v : JsValue) (s : jsstring) : bool :=
  match v with VStr t => JsString.eqb t s | _ => false end.

Fixpoint lookup (name : jsstring) (fields : list (jsstring * JsValue)) : JsValue :=
  match fields with
  | [] => VUndef
  | (k, v) :: rest => if JsString.eqb k name then v else lookup name rest
  end.

(** ToString, as used by template literals. *)
Fixpoint ToString (v : JsValue) : jsstring :=
  match v with
  | VUndef => lit "undefined"
  | VNull => lit "null"
  | VBool true => lit "true"
  | VBool false => lit "false"
  | VNum z => of_Z z
  | VStr s => s
  | VArr items =>
      join (lit ",")
           (map (fun e => match e with
                          | VUndef | VNull => []
                          | _ => ToString e
                          end) items)
  | VObj _ => lit "[object Object]"
  end.

(** A named property of a value that is neither [null] nor [undefined].
    The names this module reads ([code], [msg], [id], [choices], ...) are own
    properties of a parsed object and are defined on no built-in prototype,
    so every other kind of value answers [undefined]. *)
Definition own_prop (v : JsValue) (name : jsstring) : JsValue :=
  match v with
  | VObj fields => lookup name fields
  | _ => VUndef
  end.

(** Element [i] of a value that is neither [null] nor [undefined]. *)
Definition own_index (v : JsValue) (i : nat) : JsValue :=
  match v with
  | VArr items => nth i items VUndef
  | VStr s => match nth_error s i with Some c => VStr [c] | None => VUndef end
  | VObj fields => lookup (of_Z (Z.of_nat i)) fields
  | _ => VUndef
  end.

(** The TypeError of V8 for a property read on [null] or [undefined]. *)
Definition cannot_read (v : JsValue) (name : jsstring) : JsError :=
  Err (lit "Cannot read properties of " ++ ToString v
       ++ lit " (reading '" ++ name ++ lit "')").

Definition not_a_function (what : jsstring) : JsError :=
  Err (what ++ lit " is not a function").

(** [v.name] *)
Definition get (v : JsValue) (name : jsstring) : Res JsValue :=
  if nullish v then Thrown (cannot_read v name) else Normal (own_prop v name).

(** [v?.name] *)
Definition opt (v : JsValue) (name : jsstring) : JsValue :=
  if nullish v then VUndef else own_prop v name.

(** [v?.[i]] *)
Definition opt_index (v : JsValue) (i : nat) : JsValue :=
  if nullish v then VUndef else own_index v i.

(** [v.toLowerCase()]: only strings have the method. *)
Definition call_toLowerCase (what : jsstring) (v : JsValue) : Res jsstring :=
  match v with
  | VStr s => Normal (toLowerCase s)
  | VUndef | VNull => Thrown (cannot_read v (lit "toLowerCase"))
  | _ => Thrown (not_a_function (what ++ lit ".toLowerCase"))
  end.

(** [v.includes(p)]: strings search a substring, arrays search an element
    strictly equal to the string [p]. *)
Definition call_includes (what : jsstring) (v : JsValue) (p : jsstring) : Res bool :=
  match v with
  | VStr s => Normal (includes s p)
  | VArr items => Normal (existsb (fun e => strict_eq_str e p) items)
  | VUndef | VNull => Thrown (cannot_read v (lit "includes"))
  | _ => Thrown (not_a_function (what ++ lit ".includes"))
  end.

End Js.
Import Js.

(* ================================================================== *)
(** * The outside world: requests, answers, events *)
(* ================================================================== *)

Definition ArrayBuffer := list N.

(** What the code reads of a [fetch] response: [res.ok], [res.status],
    [res.statusText] and the body.  The body is read by a call of its own,
    which is awaited and can reject: [body] is what [res.text()] gives (and
    [res.json()], which parses that text), [bytes] what [res.arrayBuffer()]
    gives.  The code reads the body of a response once. *)
Record Response : Type := mkResponse {
  ok : bool;
  status : Z;
  statusText : jsstring;
  body : Res jsstring;
  bytes : Res ArrayBuffer
}.

(** An entry of [listed.objects]: [uploaded] is [o.uploaded.getTime()]. *)
Record R2Object : Type := mkR2Object {
  key : jsstring;
  uploaded : Z
}.

(** The seven [fetch] calls of the module, each with the parts of its URL,
    headers and body that vary. *)
Inductive HttpRequest : Type :=
| TokenRequest (app_id app_secret : option jsstring)
    (* POST open.feishu.cn/open-apis/auth/v3/tenant_access_token/internal *)
| ReplyRequest (authorization message_id text msg_type : jsstring)
    (* POST open.feishu.cn/open-apis/im/v1/messages/{message_id}/reply *)
| ResourceRequest (authorization message_id file_key : jsstring)
    (* GET open.feishu.cn/open-apis/im/v1/messages/{id}/resources/{key}?type=file *)
| FileUploadRequest (authorization file_name : jsstring) (file : ArrayBuffer)
    (purpose : jsstring)
    (* POST dashscope.aliyuncs.com/compatible-mode/v1/files *)
| ChatRequest (authorization model : jsstring)
    (messages : list (jsstring * jsstring))
    (* POST dashscope.aliyuncs.com/compatible-mode/v1/chat/completions *)
| CreateDocRequest (authorization title : jsstring)
    (* POST open.feishu.cn/open-apis/docx/v1/documents *)
| AppendBlockRequest (authorization document_id : jsstring) (content : JsValue)
    (index : Z)
    (* POST open.feishu.cn/open-apis/docx/v1/documents/{id}/blocks/{id}/children *).

Inductive Event : Type :=
| EvFetch (req : HttpRequest) (r : Res Response)
| EvList (prefix : jsstring) (r : Res (list R2Object))
| EvGet (k : jsstring) (r : Res (option ArrayBuffer))
| EvPut (k : jsstring) (data : ArrayBuffer) (r : Res unit)
| EvDelete (k : jsstring) (r : Res unit)
| EvNow (t : Z).

(** The answers of the outside world, each given the events so far.
    [w_get] answers the two awaited calls by which the pipeline reads an
    object, [MOLTBOT_BUCKET.get(key)] and then [pdfObj.arrayBuffer()] on what
    it gave: [Normal None] when there is no object, the bytes when both calls
    succeed, [Thrown] when either rejects.  Nothing happens between the two
    calls but the test for [null]. *)
Record World : Type := mkWorld {
  w_fetch : list Event -> HttpRequest -> Res Response;
  w_list : list Event -> jsstring -> Res (list R2Object);
  w_get : list Event -> jsstring -> Res (option ArrayBuffer);
  w_put : list Event -> jsstring -> ArrayBuffer -> Res unit;
  w_delete : list Event -> jsstring -> Res unit;
  w_now : list Event -> Z
}.

(** [c.env] *)
Record MoltbotEnv : Type := mkEnv {
  FEISHU_APP_ID : option jsstring;
  FEISHU_APP_SECRET : option jsstring;
  FEISHU_VERIFICATION_TOKEN : option jsstring;
  DASHSCOPE_API_KEY : option jsstring
}.

(** Truthiness of an environment variable: set and not empty. *)
Definition configured (v : option jsstring) : bool :=
  match v with Some (_ :: _) => true | _ => false end.

Definition env_string (v : option jsstring) : JsValue :=
  match v with Some s => VStr s | None => VUndef end.

(* ================================================================== *)
(** * Computations *)
(* ================================================================== *)

(** A computation reads the history and answers with the events it adds and
    its outcome. *)
Definition M (A : Type) : Type := list Event -> list Event * Res A.

Definition ret (A : Type) (a : A) : M A := fun _ => ([], Normal a).

Definition throw (A : Type) (e : JsError) : M A := fun _ => ([], Thrown e).
Arguments throw {A} e.

Definition bind (A B : Type) (m : M A) (f : A -> M B) : M B :=
  fun h =>
    match m h with
    | (e1, Normal a) => let (e2, r) := f a (h ++ e1) in (e1 ++ e2, r)
    | (e1, Thrown e) => (e1, Thrown e)
    end.

(** [try { m } catch (err) { handler err }] *)
Definition try_catch (A : Type) (m : M A) (handler : JsError -> M A) : M A :=
  fun h =>
    match m h with
    | (e1, Normal a) => (e1, Normal a)
    | (e1, Thrown e) => let (e2, r) := handler e (h ++ e1) in (e1 ++ e2, r)
    end.

Definition lift (A : Type) (r : Res A) : M A := fun _ => ([], r).

Declare Scope js_scope.
Delimit Scope js_scope with js.
Notation "x <- m ;; k" := (bind m (fun x => k))
  (at level 61, m at next level, right associativity) : js_scope.
Notation "m ;; k" := (bind m (fun _ => k))
  (at level 61, right associativity) : js_scope.
Notation "''(' x , y ')' <- m ;; k" := (bind m (fun p => let '(x, y) := p in k))
  (at level 61, x name, y name, m at next level, right associativity) : js_scope.
Open Scope js_scope.

(** The events a computation adds to a history, and its outcome. *)
Definition events (A : Type) (m : M A) (h : list Event) : list Event := fst (m h).
Definition outcome (A : Type) (m : M A) (h : list Event) : Res A := snd (m h).

(* ================================================================== *)
(** * String constants of the module *)
(* ================================================================== *)

(** The literals that are not ASCII are given by their UTF-16 code units. *)
Module Text.

(* '⏳ 收到请求，正在提取当前对话中暂存的 PDF 并分析，请稍候...' *)
Definition processing : jsstring :=
  [9203; 32; 25910; 21040; 35831; 27714; 65292; 27491; 22312; 25552; 21462;
   24403; 21069; 23545; 35805; 20013; 26242; 23384; 30340; 32; 80; 68; 70; 32;
   24182; 20998; 26512; 65292; 35831; 31245; 20505; 46; 46; 46]%N.

(* '❌ 在当前对话中没有找到任何待处理的 PDF 文件。请先直接向我发送 PDF 文件。' *)
Definition no_pdf : jsstring :=
  [10060; 32; 22312; 24403; 21069; 23545; 35805; 20013; 27809; 26377; 25214;
   21040; 20219; 20309; 24453; 22788; 29702; 30340; 32; 80; 68; 70; 32; 25991;
   20214; 12290; 35831; 20808; 30452; 25509; 21521; 25105; 21457; 36865; 32;
   80; 68; 70; 32; 25991; 20214; 12290]%N.

(* 'DASHSCOPE_API_KEY 未配置' *)
Definition no_api_key : jsstring :=
  (lit "DASHSCOPE_API_KEY " ++ [26410; 37197; 32622])%N.

(* '你是一个专业的法律文件处理助手。请分析提供的文件并给出准确、专业的摘要和
   关键点提取，使用Markdown格式输出。' *)
Definition system_prompt : jsstring :=
  [20320; 26159; 19968; 20010; 19987; 19994; 30340; 27861; 24459; 25991; 20214;
   22788; 29702; 21161; 25163; 12290; 35831; 20998; 26512; 25552; 20379; 30340;
   25991; 20214; 24182; 32473; 20986; 20934; 30830; 12289; 19987; 19994; 30340;
   25688; 35201; 21644; 20851; 38190; 28857; 25552; 21462; 65292; 20351; 29992;
   77; 97; 114; 107; 100; 111; 119; 110; 26684; 24335; 36755; 20986; 12290]%N.

(* '请提取上述文件的关键信息，并生成一份简明扼要的摘要。如果有多个文件，请分别
   指出它们的核心内容，或综合给出分析。' *)
Definition user_prompt : jsstring :=
  [35831; 25552; 21462; 19978; 36848; 25991; 20214; 30340; 20851; 38190; 20449;
   24687; 65292; 24182; 29983; 25104; 19968; 20221; 31616; 26126; 25212; 35201;
   30340; 25688; 35201; 12290; 22914; 26524; 26377; 22810; 20010; 25991; 20214;
   65292; 35831; 20998; 21035; 25351; 20986; 23427; 20204; 30340; 26680; 24515;
   20869; 23481; 65292; 25110; 32508; 21512; 32473; 20986; 20998; 26512;
   12290]%N.

(* '未能生成摘要。' *)
Definition summary_placeholder : jsstring :=
  [26410; 33021; 29983; 25104; 25688; 35201; 12290]%N.

(* '📄 分析报告: ' *)
Definition title_prefix : jsstring :=
  [55357; 56516; 32; 20998; 26512; 25253; 21578; 58; 32]%N.

(* '✅ 处理成功！\n\n📁 已处理文件：' *)
Definition success_head : jsstring :=
  [9989; 32; 22788; 29702; 25104; 21151; 65281; 10; 10; 55357; 56513; 32;
   24050; 22788; 29702; 25991; 20214; 65306]%N.

(* ' 份\n📄 分析报告：' *)
Definition success_mid : jsstring :=
  [32; 20221; 10; 55357; 56516; 32; 20998; 26512; 25253; 21578; 65306]%N.

(* '❌ 处理失败：' *)
Definition failure_head : jsstring :=
  [10060; 32; 22788; 29702; 22833; 36133; 65306]%N.

(* '❌ 下载文件失败。' *)
Definition download_failed : jsstring :=
  [10060; 32; 19979; 36733; 25991; 20214; 22833; 36133; 12290]%N.

(* '✅ 文件 ' *)
Definition staged_head : jsstring := [9989; 32; 25991; 20214; 32]%N.

(* ' 已接收并暂存。\n请在上传完所有需处理的文件后，回复“整理 PDF”开始分析。' *)
Definition staged_tail : jsstring :=
  [32; 24050; 25509; 25910; 24182; 26242; 23384; 12290; 10; 35831; 22312;
   19978; 20256; 23436; 25152; 26377; 38656; 22788; 29702; 30340; 25991; 20214;
   21518; 65292; 22238; 22797; 8220; 25972; 29702; 32; 80; 68; 70; 8221; 24320;
   22987; 20998; 26512; 12290]%N.

(* '整理 PDF' and '分析合同' *)
Definition trigger_1 : jsstring := [25972; 29702; 32; 80; 68; 70]%N.
Definition trigger_2 : jsstring := [20998; 26512; 21512; 21516]%N.

End Text.

(* ================================================================== *)
(** * The pure parts of the pipeline *)
(* ================================================================== *)

(** [o.key.toLowerCase().endsWith('.pdf')] *)
Definition is_pdf_name (name : jsstring) : bool :=
  endsWith (toLowerCase name) (lit ".pdf").

(** [`chat_data/${chat_id}/`] *)
Definition chat_prefix (chat_id : JsValue) : jsstring :=
  lit "chat_data/" ++ ToString chat_id ++ lit "/".

(** [`chat_data/${chatId}/${Date.now()}_${fileName}`] *)
Definition object_key (chatId : JsValue) (now : Z) (fileName : jsstring) : jsstring :=
  lit "chat_data/" ++ ToString chatId ++ lit "/" ++ of_Z now ++ lit "_" ++ fileName.

(** Two strings that differ at most in the case of their ASCII letters. *)
Definition same_ignoring_case (a b : jsstring) : Prop :=
  Forall2 (fun x y => lower_unit x = lower_unit y) a b.

(** [name] ends in the extension [.pdf], compared without regard to case. *)
Definition ends_in_pdf (name : jsstring) : Prop :=
  exists stem ext, name = stem ++ ext /\ same_ignoring_case ext (lit ".pdf").

(** The comparator of [pdfs.sort]. *)
Definition by_uploaded (a b : R2Object) : Z := uploaded a - uploaded b.

(** [Array.prototype.sort] is stable; with a comparator that is a difference
    of keys its result is the one of insertion sort that keeps equal elements
    in their order. *)
Fixpoint insert_sorted (cmp : R2Object -> R2Object -> Z) (x : R2Object)
  (l : list R2Object) : list R2Object :=
  match l with
  | [] => [x]
  | y :: rest =>
      if Z.leb (cmp x y) 0 then x :: y :: rest
      else y :: insert_sorted cmp x rest
  end.

Fixpoint sort (cmp : R2Object -> R2Object -> Z) (l : list R2Object) : list R2Object :=
  match l with
  | [] => []
  | x :: rest => insert_sorted cmp x (sort cmp rest)
  end.

(** [pdf.key.split('_').slice(1).join('_') || 'file.pdf'] *)
Definition file_name_of_key (k : jsstring) : jsstring :=
  match join (lit "_") (slice1 (split underscore k)) with
  | [] => lit "file.pdf"
  | name => name
  end.

(** The title of the report document:
    [`📄 分析报告: ${joined.substring(0, 50)}${joined.length > 50 ? '...' : ''}`]
    with [joined = fileNames.join(', ')]. *)
Definition report_title (fileNames : list jsstring) : jsstring :=
  let joined := join (lit ", ") fileNames in
  Text.title_prefix ++ substring0 50 joined
  ++ (if Nat.ltb 50 (List.length joined) then lit "..." else []).

Definition chat_messages (fileIds : list JsValue) : list (jsstring * jsstring) :=
  [(lit "system", Text.system_prompt)]
  ++ map (fun id => (lit "system", lit "fileid://" ++ ToString id)) fileIds
  ++ [(lit "user", Text.user_prompt)].

(** [llmData.choices?.[0]?.message?.content], once [llmData.choices] is read. *)
Definition choice_content (choices : JsValue) : JsValue :=
  opt (opt (opt_index choices 0) (lit "message")) (lit "content").

(** [docData.data?.document?.document_id], once [docData.data] is read. *)
Definition created_document_id (data : JsValue) : JsValue :=
  opt (opt data (lit "document")) (lit "document_id").

Definition doc_url (documentId : JsValue) : jsstring :=
  lit "https://feishu.cn/docx/" ++ ToString documentId.

Definition success_text (count : nat) (docUrl : jsstring) : jsstring :=
  Text.success_head ++ of_Z (Z.of_nat count) ++ Text.success_mid ++ docUrl.

Definition failure_text (err : JsError) : jsstring :=
  Text.failure_head ++ message err.

Definition upload_failed_text (fileName errText : jsstring) : jsstring :=
  lit "DashScope upload failed for " ++ fileName ++ lit ": " ++ errText.

Definition upload_no_id_text (fileName : jsstring) : jsstring :=
  lit "DashScope upload failed, no file ID returned for " ++ fileName.

Definition bearer (token : JsValue) : jsstring := lit "Bearer " ++ ToString token.

(* ================================================================== *)
(** * The module [routes/feishu.ts] *)
(* ================================================================== *)

(** Background work handed to [c.executionCtx.waitUntil]. *)
Inductive Task : Type :=
| ProcessPdf (message : JsValue)
| SaveFile (messageId fileKey : JsValue) (fileName : jsstring) (chatId : JsValue).

(** [c.json(body, status)] *)
Record HttpReply : Type := mkReply {
  reply_body : list (jsstring * JsValue);
  reply_status : Z
}.

Section Program.

(** [JSON.parse] and [JSON.stringify] of the platform. *)
Variable JSON_parse : jsstring -> Res JsValue.
Variable JSON_stringify : JsValue -> jsstring.

Variable W : World.

(** ** Calls to the outside *)

Definition fetch (req : HttpRequest) : M Response :=
  fun h => let r := w_fetch W h req in ([EvFetch req r], r).

Definition bucket_list (prefix : jsstring) : M (list R2Object) :=
  fun h => let r := w_list W h prefix in ([EvList prefix r], r).

(** [await env.MOLTBOT_BUCKET.get(k)] and, when there is an object,
    [await pdfObj.arrayBuffer()]. *)
Definition bucket_get (k : jsstring) : M (option ArrayBuffer) :=
  fun h => let r := w_get W h k in ([EvGet k r], r).

Definition bucket_put (k : jsstring) (data : ArrayBuffer) : M unit :=
  fun h => let r := w_put W h k data in ([EvPut k data r], r).

Definition bucket_delete (k : jsstring) : M unit :=
  fun h => let r := w_delete W h k in ([EvDelete k r], r).

Definition date_now : M Z :=
  fun h => let t := w_now W h in ([EvNow t], Normal t).

(** [await res.text()] *)
Definition res_text (res : Response) : M jsstring := lift (body res).

(** [await res.arrayBuffer()] *)
Definition res_arrayBuffer (res : Response) : M ArrayBuffer := lift (bytes res).

(** [await res.json()]: the body is read as text and parsed. *)
Definition json (res : Response) : M JsValue :=
  bodyText <- res_text res ;;
  lift (JSON_parse bodyText).

(** [v.name] inside a computation *)
Definition prop (v : JsValue) (name : string) : M JsValue := lift (get v (lit name)).

(** ** [getFeishuToken] *)

Definition getFeishuToken (appId appSecret : option jsstring) : M JsValue :=
  res <- fetch (TokenRequest appId appSecret) ;;
  data <- json res ;;
  code <- prop data "code" ;;
  if negb (is_zero code) then
    msg <- prop data "msg" ;;
    throw (Err (lit "Failed to get Feishu token: " ++ ToString msg))
  else
    prop data "tenant_access_token".

(** ** [replyFeishuMessage]

    A reply the platform refuses ([data.code !== 0]) is only logged. *)
Definition replyFeishuMessage (token messageId : JsValue) (content : jsstring)
  (msgType : jsstring) : M unit :=
  res <- fetch (ReplyRequest (bearer token) (ToString messageId) content msgType) ;;
  data <- json res ;;
  _ <- prop data "code" ;;
  ret tt.

(** The default value of the parameter [msgType]. *)
Definition text_type : jsstring := lit "text".

(** ** [downloadAndSaveFeishuFile] *)

Definition downloadAndSaveFeishuFile (env : MoltbotEnv)
  (messageId fileKey : JsValue) (fileName : jsstring) (chatId : JsValue) : M unit :=
  try_catch
    (feishuToken <- getFeishuToken (FEISHU_APP_ID env) (FEISHU_APP_SECRET env) ;;
     res <- fetch (ResourceRequest (bearer feishuToken) (ToString messageId)
                                   (ToString fileKey)) ;;
     if negb (ok res) then
       replyFeishuMessage feishuToken messageId Text.download_failed text_type
     else
       arrayBuffer <- res_arrayBuffer res ;;
       now <- date_now ;;
       let objectKey := object_key chatId now fileName in
       bucket_put objectKey arrayBuffer ;;
       replyFeishuMessage feishuToken messageId
         (Text.staged_head ++ fileName ++ Text.staged_tail) text_type)
    (fun _ => ret tt).

(** ** [processPdfAndReply] *)

(** The loop [for (const pdf of pdfs)] of step 3, with the arrays [fileIds]
    and [fileNames] it pushes to. *)
Fixpoint upload_loop (apiKey : jsstring) (pdfs : list R2Object)
  (fileIds : list JsValue) (fileNames : list jsstring)
  : M (list JsValue * list jsstring) :=
  match pdfs with
  | [] => ret (fileIds, fileNames)
  | pdf :: rest =>
      pdfObj <- bucket_get (key pdf) ;;
      match pdfObj with
      | None => upload_loop apiKey rest fileIds fileNames
      | Some pdfBuffer =>
          let fileName := file_name_of_key (key pdf) in
          let fileNames := fileNames ++ [fileName] in
          uploadRes <- fetch (FileUploadRequest (bearer (VStr apiKey)) fileName
                                pdfBuffer (lit "file-extract")) ;;
          if negb (ok uploadRes) then
            errText <- res_text uploadRes ;;
            throw (Err (upload_failed_text fileName errText))
          else
            uploadData <- json uploadRes ;;
            id <- prop uploadData "id" ;;
            if negb (truthy id) then throw (Err (upload_no_id_text fileName))
            else upload_loop apiKey rest (fileIds ++ [id]) fileNames
      end
  end.

(** The loop [for (const pdf of pdfs)] of step 6. *)
Fixpoint delete_loop (pdfs : list R2Object) : M unit :=
  match pdfs with
  | [] => ret tt
  | pdf :: rest => bucket_delete (key pdf) ;; delete_loop rest
  end.

(** Steps 3 to 7, once the sorted list [pdfs] is not empty. *)
Definition analyse (env : MoltbotEnv) (message feishuToken : JsValue)
  (pdfs : list R2Object) : M unit :=
  if negb (configured (DASHSCOPE_API_KEY env)) then throw (Err Text.no_api_key)
  else
    let apiKey := ToString (env_string (DASHSCOPE_API_KEY env)) in
    '(fileIds, fileNames) <- upload_loop apiKey pdfs [] [] ;;
    (* 4. Summarize *)
    llmRes <- fetch (ChatRequest (bearer (VStr apiKey)) (lit "qwen-long")
                       (chat_messages fileIds)) ;;
    if negb (ok llmRes) then
      errText <- res_text llmRes ;;
      throw (Err (lit "LLM generation failed: " ++ errText))
    else
      llmData <- json llmRes ;;
      choices <- prop llmData "choices" ;;
      let summary := or_else (choice_content choices) (VStr Text.summary_placeholder) in
      (* 5. Create the document *)
      docRes <- fetch (CreateDocRequest (bearer feishuToken) (report_title fileNames)) ;;
      docData <- json docRes ;;
      code <- prop docData "code" ;;
      if negb (is_zero code) then
        throw (Err (lit "Failed to create Feishu doc: " ++ JSON_stringify docData))
      else
        data <- prop docData "data" ;;
        let documentId := created_document_id data in
        if negb (truthy documentId) then
          throw (Err (lit "Failed to get document_id from creation response"))
        else
          (* Write the summary; a refused write is only logged *)
          writeRes <- fetch (AppendBlockRequest (bearer feishuToken)
                               (ToString documentId) summary (-1)) ;;
          writeData <- json writeRes ;;
          _ <- prop writeData "code" ;;
          (* 6. Delete the processed files *)
          delete_loop pdfs ;;
          (* 7. Reply success *)
          let docUrl := doc_url documentId in
          messageId <- prop message "message_id" ;;
          replyFeishuMessage feishuToken messageId
            (success_text (List.length fileNames) docUrl) text_type.

(** The body of the second [try] block. *)
Definition pipeline (env : MoltbotEnv) (message feishuToken : JsValue) : M unit :=
  (* 1. Send the processing message *)
  messageId <- prop message "message_id" ;;
  replyFeishuMessage feishuToken messageId Text.processing text_type ;;
  (* 2. Get the PDFs of this chat *)
  chatId <- prop message "chat_id" ;;
  let prefix := chat_prefix chatId in
  listed <- bucket_list prefix ;;
  let pdfs := filter (fun o => is_pdf_name (key o)) listed in
  if Nat.eqb (List.length pdfs) 0 then
    messageId <- prop message "message_id" ;;
    replyFeishuMessage feishuToken messageId Text.no_pdf text_type
  else
    let pdfs := sort by_uploaded pdfs in
    analyse env message feishuToken pdfs.

Definition processPdfAndReply (env : MoltbotEnv) (message : JsValue) : M unit :=
  if (negb (configured (FEISHU_APP_ID env))
      || negb (configured (FEISHU_APP_SECRET env)))%bool then ret tt
  else
    acquired <- try_catch
                  (t <- getFeishuToken (FEISHU_APP_ID env) (FEISHU_APP_SECRET env) ;;
                   ret (Some t))
                  (fun _ => ret None) ;;
    match acquired with
    | None => ret tt
    | Some feishuToken =>
        try_catch (pipeline env message feishuToken)
          (fun err =>
             messageId <- prop message "message_id" ;;
             replyFeishuMessage feishuToken messageId (failure_text err) text_type)
    end.

(** ** The handler of [POST /webhook] *)

(** [JSON.parse(message.content)], with [{}] when it throws. *)
Definition parse_content (content : JsValue) : JsValue :=
  match JSON_parse (ToString content) with
  | Normal v => v
  | Thrown _ => VObj []
  end.

Definition json_reply (body : list (jsstring * JsValue)) (status : Z)
  (tasks : list Task) : Res (HttpReply * list Task) :=
  Normal (mkReply body status, tasks).

Definition bind_res (A B : Type) (r : Res A) (f : A -> Res B) : Res B :=
  match r with
  | Normal a => f a
  | Thrown e => Thrown e
  end.

Definition invalid_token : list (jsstring * JsValue) :=
  [(lit "error", VStr (lit "Invalid token"))].

(** [A && v !== A] for the configured verification token [A]. *)
Definition token_mismatch (env : MoltbotEnv) (v : JsValue) : bool :=
  match FEISHU_VERIFICATION_TOKEN env with
  | Some (c :: t) => negb (strict_eq_str v (c :: t))
  | _ => false
  end.

Definition ok_reply (tasks : list Task) : Res (HttpReply * list Task) :=
  json_reply [(lit "ok", VBool true)] 200 tasks.

(** The branch [message.message_type === 'text'] (lines 38 to 50): a trigger
    phrase starts the pipeline in the background. *)
Definition on_text_message (message : JsValue) : Res (HttpReply * list Task) :=
  let contentObj := parse_content (own_prop message (lit "content")) in
  bind_res (get contentObj (lit "text")) (fun t =>
  let text := or_else t (VStr []) in
  bind_res (call_includes (lit "text") text Text.trigger_1) (fun hit1 =>
  if hit1 then ok_reply [ProcessPdf message]
  else
    bind_res (call_includes (lit "text") text Text.trigger_2) (fun hit2 =>
    if hit2 then ok_reply [ProcessPdf message] else ok_reply []))).

(** The branch [message.message_type === 'file'] (lines 51 to 64): the
    attachment is staged in the background. *)
Definition on_file_message (message : JsValue) : Res (HttpReply * list Task) :=
  let contentObj := parse_content (own_prop message (lit "content")) in
  bind_res (get contentObj (lit "file_name")) (fun n =>
  let fileName := or_else n (VStr (lit "unknown.pdf")) in
  let fileKey := own_prop contentObj (lit "file_key") in
  if truthy fileKey then
    bind_res (call_toLowerCase (lit "fileName") fileName) (fun lower =>
    if endsWith lower (lit ".pdf") then
      ok_reply [SaveFile (own_prop message (lit "message_id")) fileKey
                         (ToString fileName) (own_prop message (lit "chat_id"))]
    else ok_reply [])
  else ok_reply []).

(** The handler after [JSON.parse] succeeded, inside the outer [try]. *)
Definition handle (env : MoltbotEnv) (data : JsValue) : Res (HttpReply * list Task) :=
  bind_res (get data (lit "type")) (fun type =>
  if strict_eq_str type (lit "url_verification") then
    (* 1. URL verification *)
    if token_mismatch env (own_prop data (lit "token")) then
      json_reply invalid_token 403 []
    else
      json_reply [(lit "challenge", own_prop data (lit "challenge"))] 200 []
  else
    (* 2. Event v2 *)
    let header := own_prop data (lit "header") in
    if (strict_eq_str (own_prop data (lit "schema")) (lit "2.0")
        && strict_eq_str (opt header (lit "event_type"))
                         (lit "im.message.receive_v1"))%bool then
      bind_res (get header (lit "token")) (fun eventToken =>
      if token_mismatch env eventToken then json_reply invalid_token 403 []
      else
        bind_res (get (own_prop data (lit "event")) (lit "message")) (fun message =>
        bind_res (get message (lit "message_type")) (fun message_type =>
        if strict_eq_str message_type (lit "text") then on_text_message message
        else if strict_eq_str message_type (lit "file") then on_file_message message
        else ok_reply [])))
    else
      (* every other event gets the default success response *)
      ok_reply []).

(** [feishu.post('/webhook', ...)]: the reply sent to the platform and the
    background tasks handed to [waitUntil]. *)
Definition webhook (env : MoltbotEnv) (bodyText : jsstring) : HttpReply * list Task :=
  match JSON_parse bodyText with
  | Thrown _ => (mkReply [(lit "error", VStr (lit "Invalid JSON"))] 400, [])
  | Normal data =>
      match handle env data with
      | Normal r => r
      | Thrown _ =>
          (mkReply [(lit "error", VStr (lit "Internal server error"))] 500, [])
      end
  end.

(** A background task; [.catch(console.error)] swallows what it throws. *)
Definition run_task (env : MoltbotEnv) (t : Task) : M unit :=
  try_catch
    match t with
    | ProcessPdf message => processPdfAndReply env message
    | SaveFile messageId fileKey fileName chatId =>
        downloadAndSaveFeishuFile env messageId fileKey fileName chatId
    end
    (fun _ => ret tt).

End Program.

(* ================================================================== *)
(** * A small world to run the module in *)
(* ================================================================== *)

Module Demo.

(** A message event of type [file] in conversation [c1], with the given
    content. *)
Definition file_event_data (content : jsstring) : JsValue :=
  VObj [(lit "schema", VStr (lit "2.0"));
        (lit "header",
         VObj [(lit "event_type", VStr (lit "im.message.receive_v1"));
               (lit "token", VStr (lit "vtoken"))]);
        (lit "event",
         VObj [(lit "message",
                VObj [(lit "message_type", VStr (lit "file"));
                      (lit "message_id", VStr (lit "om_2"));
                      (lit "chat_id", VStr (lit "c1"));
                      (lit "content", VStr content)])])].

(** A parser for the few bodies the demo world answers with. *)
Definition parse (s : jsstring) : Res JsValue :=
  if JsString.eqb s (lit "token") then
    Normal (VObj [(lit "code", VNum 0); (lit "tenant_access_token", VStr (lit "t-1"))])
  else if JsString.eqb s (lit "ok") then Normal (VObj [(lit "code", VNum 0)])
  else if JsString.eqb s (lit "refused") then Normal (VObj [(lit "code", VNum 1770001)])
  else if JsString.eqb s (lit "{}") then Normal (VObj [])
  else if JsString.eqb s (lit "null") then Normal VNull
  else if startsWith s (lit "id:") then
    Normal (VObj [(lit "id", VStr (skipn 3 s))])
  else if startsWith s (lit "summary:") then
    Normal (VObj [(lit "choices",
                   VArr [VObj [(lit "message",
                                VObj [(lit "content", VStr (skipn 8 s))])]])])
  else if startsWith s (lit "verify:") then
    Normal (VObj [(lit "type", VStr (lit "url_verification"));
                  (lit "token", VStr (skipn 7 s));
                  (lit "challenge", VStr (lit "abc123"))])
  else if startsWith s (lit "file-event:") then
    Normal (file_event_data (skipn 11 s))
  else if JsString.eqb s (lit "key-only") then
    Normal (VObj [(lit "file_key", VStr (lit "file_v2_1"))])
  else if JsString.eqb s (lit "numbered") then
    Normal (VObj [(lit "file_name", VNum 123);
                  (lit "file_key", VStr (lit "file_v2_1"))])
  else if startsWith s (lit "name-only:") then
    Normal (VObj [(lit "file_name", VStr (skipn 10 s))])
  else if startsWith s (lit "attachment:") then
    Normal (VObj [(lit "file_name", VStr (skipn 11 s));
                  (lit "file_key", VStr (lit "file_v2_1"))])
  else if startsWith s (lit "doc:") then
    Normal (VObj [(lit "code", VNum 0);
                  (lit "data",
                   VObj [(lit "document",
                          VObj [(lit "document_id", VStr (skipn 4 s))])])])
  else Thrown (Err (lit "Unexpected token")).

Definition stringify (v : JsValue) : jsstring := ToString v.

Definition answer (text : string) : Res Response :=
  Normal (mkResponse true 200 (lit "OK") (Normal (lit text)) (Normal [])).

Definition mem (k : jsstring) (l : list jsstring) : bool :=
  existsb (JsString.eqb k) l.

(** The bucket lists [objs] under every prefix they start with; the keys in
    [missing] are gone when fetched; the upload of a name in [rejected] is
    answered 400; the summarization and the block write answer [chat] and
    [write]. *)
Definition world (objs : list R2Object) (missing rejected : list jsstring)
  (chat write : string) : World :=
  {| w_fetch := fun _ req =>
       match req with
       | TokenRequest _ _ => answer "token"
       | ReplyRequest _ _ _ _ => answer "ok"
       | ResourceRequest _ _ _ =>
           Normal (mkResponse true 200 (lit "OK") (Normal [])
                     (Normal [37; 80; 68; 70]%N))
       | FileUploadRequest _ name _ _ =>
           if mem name rejected
           then Normal (mkResponse false 400 (lit "Bad Request")
                          (Normal (lit "too large")) (Normal []))
           else Normal (mkResponse true 200 (lit "OK")
                          (Normal (lit "id:file-" ++ name)) (Normal []))
       | ChatRequest _ _ _ => answer chat
       | CreateDocRequest _ _ => answer "doc:D1"
       | AppendBlockRequest _ _ _ _ => answer write
       end;
     w_list := fun _ prefix =>
       Normal (filter (fun o => startsWith (key o) prefix) objs);
     w_get := fun _ k =>
       if mem k missing then Normal None else Normal (Some [37; 80; 68; 70]%N);
     w_put := fun _ _ _ => Normal tt;
     w_delete := fun _ _ => Normal tt;
     w_now := fun _ => 100%Z |}.

Definition env : MoltbotEnv :=
  {| FEISHU_APP_ID := Some (lit "cli_a1");
     FEISHU_APP_SECRET := Some (lit "s3cret");
     FEISHU_VERIFICATION_TOKEN := Some (lit "vtoken");
     DASHSCOPE_API_KEY := Some (lit "sk-1") |}.

(** The trigger message of conversation [c1]. *)
Definition message : JsValue :=
  VObj [(lit "message_id", VStr (lit "om_1")); (lit "chat_id", VStr (lit "c1"));
        (lit "message_type", VStr (lit "text"))].

(** [b.pdf] uploaded at 200 is listed before [a.pdf] uploaded at 100. *)
Definition a_pdf : R2Object := mkR2Object (lit "chat_data/c1/100_a.pdf") 100.
Definition b_pdf : R2Object := mkR2Object (lit "chat_data/c1/200_b.pdf") 200.
Definition notes : R2Object := mkR2Object (lit "chat_data/c1/150_notes.txt") 150.
Definition staged : list R2Object := [b_pdf; notes; a_pdf].

Definition run (w : World) : list Event * Res unit :=
  processPdfAndReply parse stringify w env message [].

Definition trace (w : World) : list Event :=
  events (processPdfAndReply parse stringify w env message) [].

(** Everything goes well. *)
Definition calm : World := world staged [] [] "summary:good" "ok".

(** The service refuses the upload of [b.pdf]. *)
Definition upload_of_b_refused : World :=
  world staged [] [lit "data/c1/200_b.pdf"] "summary:good" "ok".


(** The platform refuses the block write. *)
Definition write_refused_world : World := world staged [] [] "summary:good" "refused".

(** The summarization answers without any choice. *)
Definition no_summary : World := world staged [] [] "{}" "ok".

(** The summarization answers 200 with the body [null]. *)
Definition summary_is_null : World := world staged [] [] "null" "ok".

(** The object of [a.pdf] is gone when the run fetches it. *)
Definition a_is_gone : World :=
  world staged [lit "chat_data/c1/100_a.pdf"] [] "summary:good" "ok".

(** The world [w], except that the request of the block write never gets
    through. *)
Definition failing_write (w : World) : World :=
  {| w_fetch := fun h req =>
       match req with
       | AppendBlockRequest _ _ _ _ => Thrown (Err (lit "fetch failed"))
       | _ => w_fetch w h req
       end;
     w_list := w_list w;
     w_get := w_get w;
     w_put := w_put w;
     w_delete := w_delete w;
     w_now := w_now w |}.

(** The world [w], except that every upload is answered [r]. *)
Definition uploads_answered (r : Res Response) (w : World) : World :=
  {| w_fetch := fun h req =>
       match req with
       | FileUploadRequest _ _ _ _ => r
       | _ => w_fetch w h req
       end;
     w_list := w_list w;
     w_get := w_get w;
     w_put := w_put w;
     w_delete := w_delete w;
     w_now := w_now w |}.

(** The world [w], except that the bucket refuses to delete. *)
Definition failing_delete (w : World) : World :=
  {| w_fetch := w_fetch w;
     w_list := w_list w;
     w_get := w_get w;
     w_put := w_put w;
     w_delete := fun _ _ => Thrown (Err (lit "bucket unavailable"));
     w_now := w_now w |}.

Definition api_authorization : jsstring := bearer (VStr (lit "sk-1")).
Definition doc_authorization : jsstring := bearer (VStr (lit "t-1")).
Definition pdf_bytes : ArrayBuffer := [37; 80; 68; 70]%N.

End Demo.

(* ================================================================== *)
(** * Reading a trace *)
(* ================================================================== *)

(** The events of a trace that [f] selects, in order. *)
Definition pick (A : Type) (f : Event -> option A) (t : list Event) : list A :=
  flat_map (fun ev => match f ev with Some a => [a] | None => [] end) t.

(** Keys asked from the bucket, and keys for which it gave an object. *)
Definition get_keys : list Event -> list jsstring :=
  pick (fun ev => match ev with EvGet k _ => Some k | _ => None end).

Definition fetched_keys : list Event -> list jsstring :=
  pick (fun ev => match ev with EvGet k (Normal (Some _)) => Some k | _ => None end).

Definition missing_keys : list Event -> list jsstring :=
  pick (fun ev => match ev with EvGet k (Normal None) => Some k | _ => None end).

(** Keys of the [delete] calls. *)
Definition delete_keys : list Event -> list jsstring :=
  pick (fun ev => match ev with EvDelete k _ => Some k | _ => None end).

(** Object lists the bucket answered. *)
Definition listings : list Event -> list (list R2Object) :=
  pick (fun ev => match ev with EvList _ (Normal objs) => Some objs | _ => None end).

(** File names sent to the understanding service. *)
Definition upload_names : list Event -> list jsstring :=
  pick (fun ev => match ev with
                  | EvFetch (FileUploadRequest _ name _ _) _ => Some name
                  | _ => None
                  end).

(** Message lists of the summarization requests. *)
Definition chat_requests : list Event -> list (list (jsstring * jsstring)) :=
  pick (fun ev => match ev with
                  | EvFetch (ChatRequest _ _ messages) _ => Some messages
                  | _ => None
                  end).

(** Titles of the documents asked for. *)
Definition titles : list Event -> list jsstring :=
  pick (fun ev => match ev with
                  | EvFetch (CreateDocRequest _ title) _ => Some title
                  | _ => None
                  end).

(** Document and content of the block writes. *)
Definition appended : list Event -> list (jsstring * JsValue) :=
  pick (fun ev => match ev with
                  | EvFetch (AppendBlockRequest _ id content _) _ => Some (id, content)
                  | _ => None
                  end).

(** Texts of the replies sent to the conversation. *)
Definition replies : list Event -> list jsstring :=
  pick (fun ev => match ev with
                  | EvFetch (ReplyRequest _ _ text _) _ => Some text
                  | _ => None
                  end).

(** Calls to the understanding service, to the document service, and
    deletions. *)
Definition understanding_call (ev : Event) : bool :=
  match ev with
  | EvFetch (FileUploadRequest _ _ _ _) _ | EvFetch (ChatRequest _ _ _) _ => true
  | _ => false
  end.

Definition document_call (ev : Event) : bool :=
  match ev with
  | EvFetch (CreateDocRequest _ _) _ | EvFetch (AppendBlockRequest _ _ _ _) _ => true
  | _ => false
  end.

Definition upload_stage (ev : Event) : bool :=
  match ev with
  | EvGet _ _ | EvFetch (FileUploadRequest _ _ _ _) _ => true
  | _ => false
  end.

Definition deletion (ev : Event) : bool :=
  match ev with EvDelete _ _ => true | _ => false end.

Definition summarize_or_later (ev : Event) : bool :=
  match ev with
  | EvFetch (ChatRequest _ _ _) _ => true
  | _ => (document_call ev || deletion ev)%bool
  end.

(** [data] is a message event of type [file] that passes the token check,
    and [message] is its message. *)
Definition file_event (env : MoltbotEnv) (data message : JsValue) : Prop :=
  nullish data = false /\
  strict_eq_str (own_prop data (lit "type")) (lit "url_verification") = false /\
  own_prop data (lit "schema") = VStr (lit "2.0") /\
  own_prop (own_prop data (lit "header")) (lit "event_type")
  = VStr (lit "im.message.receive_v1") /\
  token_mismatch env (own_prop (own_prop data (lit "header")) (lit "token")) = false /\
  nullish (own_prop data (lit "event")) = false /\
  message = own_prop (own_prop data (lit "event")) (lit "message") /\
  own_prop message (lit "message_type") = VStr (lit "file").

(** The name the file branch of the handler works with, from what it finds
    at [contentObj.file_name]: a string that is not empty as it is;
    [unknown.pdf] when the field is missing or holds a falsy value; and none
    when it holds a truthy value that is not a string, which has no
    [toLowerCase] to call. *)
Definition attachment_name (name : JsValue) : option jsstring :=
  match name with
  | VStr (c :: s) => Some (c :: s)
  | VStr [] | VUndef | VNull | VBool false => Some (lit "unknown.pdf")
  | VNum z => if Z.eqb z 0 then Some (lit "unknown.pdf") else None
  | VBool true | VArr _ | VObj _ => None
  end.

(** The bucket as a map from keys to contents, and what the [put] and
    [delete] calls of a trace that went through do to it. *)
Definition Bucket := jsstring -> option ArrayBuffer.

Definition store_step (b : Bucket) (ev : Event) : Bucket :=
  match ev with
  | EvPut k data (Normal _) => fun k' => if JsString.eqb k' k then Some data else b k'
  | EvDelete k (Normal _) => fun k' => if JsString.eqb k' k then None else b k'
  | _ => b
  end.

Definition store_after (t : list Event) (b : Bucket) : Bucket :=
  fold_left store_step t b.

Definition storage_write (ev : Event) : bool :=
  match ev with EvPut _ _ _ | EvDelete _ _ => true | _ => false end.

(** A [delete] call that threw. *)
Definition delete_threw (ev : Event) : bool :=
  match ev with EvDelete _ (Thrown _) => true | _ => false end.


Definition bucket_read (ev : Event) : bool :=
  match ev with EvGet _ _ => true | _ => false end.

(** [l1] is an initial part of [l2]. *)
Definition Prefix (A : Type) (l1 l2 : list A) : Prop := exists rest, l2 = l1 ++ rest.

(** [l1] is [l2] with some elements left out. *)
Inductive Subseq (A : Type) : list A -> list A -> Prop :=
| Subseq_nil : Subseq [] []
| Subseq_skip : forall x l1 l2, Subseq l1 l2 -> Subseq l1 (x :: l2)
| Subseq_keep : forall x l1 l2, Subseq l1 l2 -> Subseq (x :: l1) (x :: l2).

(** The files of a listing that the pipeline works on: the [.pdf] keys,
    oldest upload first. *)
Definition gathered (objs : list R2Object) : list R2Object :=
  sort by_uploaded (filter (fun o => is_pdf_name (key o)) objs).

Definition oldest_first (l : list R2Object) : Prop :=
  StronglySorted (fun a b => (uploaded a <= uploaded b)%Z) l.

Section Answers.

Variable parse : jsstring -> Res JsValue.

(** The body of a response as [res.json()] gives it, when the body can be
    read, is JSON, and is a value whose properties can be read. *)
Definition json_of (r : Response) : option JsValue :=
  match body r with
  | Normal bodyText =>
      match parse bodyText with
      | Normal d => if nullish d then None else Some d
      | Thrown _ => None
      end
  | Thrown _ => None
  end.

(** The two failures of an upload the code tests for, and reports with an
    error of its own: a response that is not ok, whose text it quotes, and a
    response whose JSON holds no file id. *)
Definition upload_refused (r : Response) : bool :=
  if ok r then
    match json_of r with
    | Some d => negb (truthy (own_prop d (lit "id")))
    | None => false
    end
  else
    match body r with
    | Normal _ => true
    | Thrown _ => false
    end.

(** The file id of an accepted upload. *)
Definition upload_id (rr : Res Response) : option JsValue :=
  match rr with
  | Normal r =>
      if ok r then
        match json_of r with
        | Some d => if truthy (own_prop d (lit "id"))
                    then Some (own_prop d (lit "id")) else None
        | None => None
        end
      else None
  | Thrown _ => None
  end.

(** The ids the understanding service gave, in the order of the uploads. *)
Definition upload_ids : list Event -> list JsValue :=
  pick (fun ev => match ev with
                  | EvFetch (FileUploadRequest _ _ _ _) rr => upload_id rr
                  | _ => None
                  end).

(** The uploads the understanding service accepted: the name each file was
    sent under, with the id the service gave for it. *)
Definition accepted : list Event -> list (jsstring * JsValue) :=
  pick (fun ev => match ev with
                  | EvFetch (FileUploadRequest _ name _ _) rr =>
                      match upload_id rr with
                      | Some id => Some (name, id)
                      | None => None
                      end
                  | _ => None
                  end).

(** What a summarization response holds at [choices[0].message.content]. *)
Definition generated_text (rr : Res Response) : option JsValue :=
  match rr with
  | Normal r =>
      if ok r then
        match json_of r with
        | Some d =>
            Some (opt (opt (opt_index (own_prop d (lit "choices")) 0) (lit "message"))
                      (lit "content"))
        | None => None
        end
      else None
  | Thrown _ => None
  end.

(** The identifier of the document a creation response announces, at
    [data.document.document_id] of an answer with [code] 0. *)
Definition created (rr : Res Response) : option JsValue :=
  match rr with
  | Normal r =>
      match json_of r with
      | Some d =>
          let documentId :=
            opt (opt (own_prop d (lit "data")) (lit "document")) (lit "document_id") in
          if (is_zero (own_prop d (lit "code")) && truthy documentId)%bool
          then Some documentId else None
      | None => None
      end
  | Thrown _ => None
  end.

(** A block write the platform answered with an error code. *)
Definition write_refused (r : Response) : bool :=
  match json_of r with
  | Some d => negb (is_zero (own_prop d (lit "code")))
  | None => false
  end.

(** No block write without an answer that [res.json()] can read. *)
Definition write_answered (ev : Event) : bool :=
  match ev with
  | EvFetch (AppendBlockRequest _ _ _ _) (Normal res) =>
      match json_of res with Some _ => true | None => false end
  | EvFetch (AppendBlockRequest _ _ _ _) (Thrown _) => false
  | _ => true
  end.

(** A block write that got an answer [res.json()] can read: with it the run
    is past the document, and what follows is the cleanup. *)
Definition written (ev : Event) : bool :=
  match ev with
  | EvFetch (AppendBlockRequest _ _ _ _) (Normal res) =>
      match json_of res with Some _ => true | None => false end
  | _ => false
  end.

(** An event at which the gather, upload, summarize or document-creation
    stage fails. *)
Definition stage_failure (ev : Event) : bool :=
  match ev with
  | EvList _ (Thrown _) => true
  | EvGet _ (Thrown _) => true
  | EvFetch (FileUploadRequest _ _ _ _) rr =>
      match upload_id rr with Some _ => false | None => true end
  | EvFetch (ChatRequest _ _ _) rr =>
      match generated_text rr with Some _ => false | None => true end
  | EvFetch (CreateDocRequest _ _) rr =>
      match created rr with Some _ => false | None => true end
  | _ => false
  end.

(** The trace holds a successful document creation. *)
Definition document_created (t : list Event) : Prop :=
  exists auth title rr id,
    In (EvFetch (CreateDocRequest auth title) rr) t /\ created rr = Some id.

(** What the specification asks of the cleanup of a run with trace [t]. *)
Definition cleanup_is_safe (t : list Event) : Prop :=
  (* a deletion comes only after the document was created *)
  (forall before k r after,
     t = before ++ EvDelete k r :: after -> document_created before) /\
  (* once the block write is answered the run deletes: it goes through the
     gathered files, in order and, unless a [delete] call throws, to the end;
     these keys leave the bucket, all others stay *)
  (Exists (fun ev => written ev = true) t ->
   exists objs,
     listings t = [objs] /\
     delete_keys t <> [] /\
     Prefix (delete_keys t) (map key (gathered objs)) /\
     (Forall (fun ev => delete_threw ev = false) t ->
      delete_keys t = map key (gathered objs) /\
      forall b k,
        store_after t b k
        = if existsb (JsString.eqb k) (map key (gathered objs))
          then None else b k)) /\
  (* a run that does not get that far deletes nothing *)
  (Forall (fun ev => written ev = false) t ->
   delete_keys t = [] /\ forall b, store_after t b = b) /\
  (* so a failure of an earlier stage leaves every file in the bucket *)
  (Exists (fun ev => stage_failure ev = true) t ->
   delete_keys t = [] /\ forall b, store_after t b = b) /\
  (* and so does every run that does not get the document created *)
  (~ document_created t ->
   delete_keys t = [] /\ forall b, store_after t b = b).

End Answers.

(* ================================================================== *)
(** * The shapes of a run *)
(* ================================================================== *)

(** The traces of [processPdfAndReply], stage by stage.  Each constructor is
    one way the code leaves a stage; the section [Anatomy] proves that every
    run of the code has one of these shapes. *)
Section Shapes.

Variable parse : jsstring -> Res JsValue.
Variable env : MoltbotEnv.
Variable message : JsValue.
Variable feishuToken : JsValue.

Definition api_key : jsstring := ToString (env_string (DASHSCOPE_API_KEY env)).

Definition upload_event (pdf : R2Object) (pdfBuffer : ArrayBuffer)
  (rr : Res Response) : Event :=
  EvFetch (FileUploadRequest (bearer (VStr api_key)) (file_name_of_key (key pdf))
             pdfBuffer (lit "file-extract")) rr.

Definition chat_event (fileIds : list JsValue) (rr : Res Response) : Event :=
  EvFetch (ChatRequest (bearer (VStr api_key)) (lit "qwen-long")
             (chat_messages fileIds)) rr.

Definition create_event (fileNames : list jsstring) (rr : Res Response) : Event :=
  EvFetch (CreateDocRequest (bearer feishuToken) (report_title fileNames)) rr.

Definition append_event (documentId summary : JsValue) (rr : Res Response) : Event :=
  EvFetch (AppendBlockRequest (bearer feishuToken) (ToString documentId)
             summary (-1)) rr.

Definition reply_event (messageId : JsValue) (text : jsstring)
  (rr : Res Response) : Event :=
  EvFetch (ReplyRequest (bearer feishuToken) (ToString messageId) text text_type) rr.

(** The summary written to the document. *)
Definition summary_of (text : JsValue) : JsValue :=
  or_else text (VStr Text.summary_placeholder).

(** The upload loop over the files left, with the ids and names pushed so
    far. *)
Inductive Uploaded
  : list R2Object -> list JsValue -> list jsstring ->
    list Event -> Res (list JsValue * list jsstring) -> Prop :=
| Up_end : forall fileIds fileNames,
    Uploaded [] fileIds fileNames [] (Normal (fileIds, fileNames))
| Up_get_threw : forall pdf rest fileIds fileNames e,
    Uploaded (pdf :: rest) fileIds fileNames
      [EvGet (key pdf) (Thrown e)] (Thrown e)
| Up_missing : forall pdf rest fileIds fileNames U r,
    Uploaded rest fileIds fileNames U r ->
    Uploaded (pdf :: rest) fileIds fileNames
      (EvGet (key pdf) (Normal None) :: U) r
| Up_rejected : forall pdf rest fileIds fileNames pdfBuffer rr e,
    upload_id parse rr = None ->
    (forall res, rr = Normal res -> upload_refused parse res = true ->
       (exists errText,
          body res = Normal errText /\
          e = Err (upload_failed_text (file_name_of_key (key pdf)) errText)) \/
       e = Err (upload_no_id_text (file_name_of_key (key pdf)))) ->
    Uploaded (pdf :: rest) fileIds fileNames
      [EvGet (key pdf) (Normal (Some pdfBuffer)); upload_event pdf pdfBuffer rr]
      (Thrown e)
| Up_accepted : forall pdf rest fileIds fileNames pdfBuffer rr id U r,
    upload_id parse rr = Some id ->
    Uploaded rest (fileIds ++ [id]) (fileNames ++ [file_name_of_key (key pdf)]) U r ->
    Uploaded (pdf :: rest) fileIds fileNames
      (EvGet (key pdf) (Normal (Some pdfBuffer)) :: upload_event pdf pdfBuffer rr :: U)
      r.

(** The cleanup loop. *)
Inductive Deleted : list R2Object -> list Event -> Res unit -> Prop :=
| Del_end : Deleted [] [] (Normal tt)
| Del_threw : forall pdf rest e,
    Deleted (pdf :: rest) [EvDelete (key pdf) (Thrown e)] (Thrown e)
| Del_next : forall pdf rest D r,
    Deleted rest D r ->
    Deleted (pdf :: rest) (EvDelete (key pdf) (Normal tt) :: D) r.

(** Steps 3 to 7 on the sorted files [pdfs]. *)
Inductive Analysed (pdfs : list R2Object) : list Event -> Res unit -> Prop :=
| An_no_key :
    configured (DASHSCOPE_API_KEY env) = false ->
    Analysed pdfs [] (Thrown (Err Text.no_api_key))
| An_upload_failed : forall U e,
    Uploaded pdfs [] [] U (Thrown e) ->
    Analysed pdfs U (Thrown e)
| An_summarize_failed : forall U fileIds fileNames rr e,
    Uploaded pdfs [] [] U (Normal (fileIds, fileNames)) ->
    generated_text parse rr = None ->
    Analysed pdfs (U ++ [chat_event fileIds rr]) (Thrown e)
| An_create_failed : forall U fileIds fileNames rr text rr' e,
    Uploaded pdfs [] [] U (Normal (fileIds, fileNames)) ->
    generated_text parse rr = Some text ->
    created parse rr' = None ->
    Analysed pdfs
      (U ++ [chat_event fileIds rr; create_event fileNames rr']) (Thrown e)
| An_write_failed : forall U fileIds fileNames rr text rr' documentId rr'' e,
    Uploaded pdfs [] [] U (Normal (fileIds, fileNames)) ->
    generated_text parse rr = Some text ->
    created parse rr' = Some documentId ->
    match rr'' with Normal res => json_of parse res = None | Thrown _ => True end ->
    Analysed pdfs
      (U ++ [chat_event fileIds rr; create_event fileNames rr';
             append_event documentId (summary_of text) rr'']) (Thrown e)
| An_written : forall U fileIds fileNames rr text rr' documentId res d D r R r',
    Uploaded pdfs [] [] U (Normal (fileIds, fileNames)) ->
    generated_text parse rr = Some text ->
    created parse rr' = Some documentId ->
    json_of parse res = Some d ->
    Deleted pdfs D r ->
    match r with
    | Thrown e => R = [] /\ r' = Thrown e
    | Normal _ =>
        exists messageId rr'',
          get message (lit "message_id") = Normal messageId /\
          R = [reply_event messageId
                 (success_text (List.length fileNames) (doc_url documentId)) rr'']
    end ->
    Analysed pdfs
      (U ++ [chat_event fileIds rr; create_event fileNames rr';
             append_event documentId (summary_of text) (Normal res)] ++ D ++ R)
      r'.

(** The body of the [try] block. *)
Inductive Piped : list Event -> Res unit -> Prop :=
| Pi_no_message : forall e,
    get message (lit "message_id") = Thrown e ->
    Piped [] (Thrown e)
| Pi_notice_failed : forall messageId rr e,
    get message (lit "message_id") = Normal messageId ->
    Piped [reply_event messageId Text.processing rr] (Thrown e)
| Pi_list_failed : forall messageId rr e,
    get message (lit "message_id") = Normal messageId ->
    Piped
      [reply_event messageId Text.processing rr;
       EvList (chat_prefix (own_prop message (lit "chat_id"))) (Thrown e)]
      (Thrown e)
| Pi_nothing_staged : forall messageId rr objs rr' r,
    get message (lit "message_id") = Normal messageId ->
    filter (fun o => is_pdf_name (key o)) objs = [] ->
    Piped
      [reply_event messageId Text.processing rr;
       EvList (chat_prefix (own_prop message (lit "chat_id"))) (Normal objs);
       reply_event messageId Text.no_pdf rr']
      r
| Pi_analysed : forall messageId rr objs A r,
    get message (lit "message_id") = Normal messageId ->
    filter (fun o => is_pdf_name (key o)) objs <> [] ->
    Analysed (gathered objs) A r ->
    Piped
      ([reply_event messageId Text.processing rr;
        EvList (chat_prefix (own_prop message (lit "chat_id"))) (Normal objs)]
       ++ A)
      r.

(** The [catch] block: what is sent after the body ended with [r]. *)
Inductive Reported : Res unit -> list Event -> Prop :=
| Rep_nothing : Reported (Normal tt) []
| Rep_no_message : forall e e',
    get message (lit "message_id") = Thrown e' ->
    Reported (Thrown e) []
| Rep_failure : forall e messageId rr,
    get message (lit "message_id") = Normal messageId ->
    Reported (Thrown e) [reply_event messageId (failure_text e) rr].

End Shapes.

(** A whole run of [processPdfAndReply]. *)
Inductive Processed (parse : jsstring -> Res JsValue) (env : MoltbotEnv)
  (message : JsValue) : list Event -> Prop :=
| Pr_not_configured :
    (negb (configured (FEISHU_APP_ID env))
     || negb (configured (FEISHU_APP_SECRET env)))%bool = true ->
    Processed parse env message []
| Pr_no_token : forall rr,
    Processed parse env message
      [EvFetch (TokenRequest (FEISHU_APP_ID env) (FEISHU_APP_SECRET env)) rr]
| Pr_run : forall rr feishuToken P r F,
    Piped parse env message feishuToken P r ->
    Reported message feishuToken r F ->
    Processed parse env message
      (EvFetch (TokenRequest (FEISHU_APP_ID env) (FEISHU_APP_SECRET env)) rr
       :: P ++ F).

(* ================================================================== *)
(** * More vocabulary: the webhook, the stager, the errors of a run *)
(* ================================================================== *)

(** [data] is a message event that passes the token check, and [message]
    is what it holds at [event.message]. *)
Definition message_event (env : MoltbotEnv) (data message : JsValue) : Prop :=
  nullish data = false /\
  own_prop data (lit "type") <> VStr (lit "url_verification") /\
  own_prop data (lit "schema") = VStr (lit "2.0") /\
  own_prop (own_prop data (lit "header")) (lit "event_type")
  = VStr (lit "im.message.receive_v1") /\
  token_mismatch env (own_prop (own_prop data (lit "header")) (lit "token")) = false /\
  message = own_prop (own_prop data (lit "event")) (lit "message").

Section MoreAnswers.

Variable parse : jsstring -> Res JsValue.

(** The access token an answer to the token request grants: the answer must
    be JSON with [code] equal to 0. *)
Definition granted (rr : Res Response) : option JsValue :=
  match rr with
  | Normal r =>
      match json_of parse r with
      | Some d =>
          if is_zero (own_prop d (lit "code"))
          then Some (own_prop d (lit "tenant_access_token")) else None
      | None => None
      end
  | Thrown _ => None
  end.

(** An answer the code can read with [res.json()] and look into. *)
Definition answered (rr : Res Response) : bool :=
  match rr with
  | Normal r => match json_of parse r with Some _ => true | None => false end
  | Thrown _ => false
  end.

End MoreAnswers.

Definition token_event (env : MoltbotEnv) (rr : Res Response) : Event :=
  EvFetch (TokenRequest (FEISHU_APP_ID env) (FEISHU_APP_SECRET env)) rr.

Definition resource_event (feishuToken messageId fileKey : JsValue)
  (rr : Res Response) : Event :=
  EvFetch (ResourceRequest (bearer feishuToken) (ToString messageId)
             (ToString fileKey)) rr.

(** The text that confirms the staging of [fileName]. *)
Definition staged_text (fileName : jsstring) : jsstring :=
  Text.staged_head ++ fileName ++ Text.staged_tail.

(** The six ways a run of [downloadAndSaveFeishuFile] goes. *)
Inductive Staged (parse : jsstring -> Res JsValue) (env : MoltbotEnv)
  (messageId fileKey : JsValue) (fileName : jsstring) (chatId : JsValue)
  : list Event -> Prop :=
| St_no_token : forall rr,
    granted parse rr = None ->
    Staged parse env messageId fileKey fileName chatId [token_event env rr]
| St_no_download : forall rr feishuToken e,
    granted parse rr = Some feishuToken ->
    Staged parse env messageId fileKey fileName chatId
      [token_event env rr; resource_event feishuToken messageId fileKey (Thrown e)]
| St_refused : forall rr feishuToken res rr',
    granted parse rr = Some feishuToken ->
    ok res = false ->
    Staged parse env messageId fileKey fileName chatId
      [token_event env rr; resource_event feishuToken messageId fileKey (Normal res);
       reply_event feishuToken messageId Text.download_failed rr']
| St_no_body : forall rr feishuToken res e,
    granted parse rr = Some feishuToken ->
    ok res = true ->
    bytes res = Thrown e ->
    Staged parse env messageId fileKey fileName chatId
      [token_event env rr; resource_event feishuToken messageId fileKey (Normal res)]
| St_put_failed : forall rr feishuToken res arrayBuffer now e,
    granted parse rr = Some feishuToken ->
    ok res = true ->
    bytes res = Normal arrayBuffer ->
    Staged parse env messageId fileKey fileName chatId
      [token_event env rr; resource_event feishuToken messageId fileKey (Normal res);
       EvNow now;
       EvPut (object_key chatId now fileName) arrayBuffer (Thrown e)]
| St_stored : forall rr feishuToken res arrayBuffer now rr',
    granted parse rr = Some feishuToken ->
    ok res = true ->
    bytes res = Normal arrayBuffer ->
    Staged parse env messageId fileKey fileName chatId
      [token_event env rr; resource_event feishuToken messageId fileKey (Normal res);
       EvNow now;
       EvPut (object_key chatId now fileName) arrayBuffer (Normal tt);
       reply_event feishuToken messageId (staged_text fileName) rr'].

Definition puts : list Event -> list (jsstring * ArrayBuffer) :=
  pick (fun ev => match ev with EvPut k data _ => Some (k, data) | _ => None end).

Definition bucket_listing (ev : Event) : bool :=
  match ev with EvList _ _ => true | _ => false end.

Section Verdict.

Variable parse : jsstring -> Res JsValue.
Variable stringify : JsValue -> jsstring.
Variable env : MoltbotEnv.

(** [await res.json()] followed by the read of the property [name]: the
    error of the read of the body, the error of the parser, the TypeError of a
    property read on [null], or what [next] makes of the value. *)
Definition reading (res : Response) (name : string)
  (next : JsValue -> option JsError) : option JsError :=
  match body res with
  | Thrown e => Some e
  | Normal bodyText =>
      match parse bodyText with
      | Thrown e => Some e
      | Normal d => if nullish d then Some (cannot_read d (lit name)) else next d
      end
  end.

(** [await res.text()] of a response that is not ok: the error of the read
    of the body, or the error the code makes of the text. *)
Definition quoting (res : Response) (report : jsstring -> JsError) : option JsError :=
  match body res with
  | Thrown e => Some e
  | Normal errText => Some (report errText)
  end.

(** The error the pipeline raises at a call, given what the call answered:
    [None] when the run goes on after it. *)
Definition verdict (ev : Event) : option JsError :=
  match ev with
  | EvFetch (TokenRequest _ _) _ => None
  | EvFetch _ (Thrown e) => Some e
  | EvFetch (FileUploadRequest _ name _ _) (Normal res) =>
      if negb (ok res) then
        quoting res (fun errText => Err (upload_failed_text name errText))
      else
        reading res "id" (fun d =>
          if truthy (own_prop d (lit "id")) then None
          else Some (Err (upload_no_id_text name)))
  | EvFetch (ChatRequest _ _ _) (Normal res) =>
      if negb (ok res) then
        quoting res (fun errText => Err (lit "LLM generation failed: " ++ errText))
      else reading res "choices" (fun _ => None)
  | EvFetch (CreateDocRequest _ _) (Normal res) =>
      reading res "code" (fun d =>
        if negb (is_zero (own_prop d (lit "code"))) then
          Some (Err (lit "Failed to create Feishu doc: " ++ stringify d))
        else if truthy (created_document_id (own_prop d (lit "data"))) then None
        else Some (Err (lit "Failed to get document_id from creation response")))
  | EvFetch (AppendBlockRequest _ _ _ _) (Normal res) =>
      reading res "code" (fun _ => None)
  | EvFetch (ReplyRequest _ _ _ _) (Normal res) =>
      reading res "code" (fun _ => None)
  | EvFetch (ResourceRequest _ _ _) (Normal _) => None
  | EvList _ (Thrown e) => Some e
  | EvList _ (Normal objs) =>
      if configured (DASHSCOPE_API_KEY env) then None
      else
        match filter (fun o => is_pdf_name (key o)) objs with
        | [] => None
        | _ :: _ => Some (Err Text.no_api_key)
        end
  | EvGet _ (Thrown e) => Some e
  | EvGet _ (Normal _) => None
  | EvPut _ _ (Thrown e) => Some e
  | EvPut _ _ (Normal _) => None
  | EvDelete _ (Thrown e) => Some e
  | EvDelete _ (Normal _) => None
  | EvNow _ => None
  end.

(** The run goes on after every call of [t]. *)
Definition calm (t : list Event) : Prop :=
  Forall (fun ev => verdict ev = None) t.

(** The trace [t] ends with the first call at which an error is raised, and
    the error is [e]. *)
Definition blamed (t : list Event) (e : JsError) : Prop :=
  exists before ev, t = before ++ [ev] /\ calm before /\ verdict ev = Some e.

(** A computation that throws did so at its last call, the first one to
    blame; one that returns has no call to blame. *)
Definition Blame (A : Type) (run : list Event * Res A) : Prop :=
  match run with
  | (t, Thrown e) => blamed t e
  | (t, Normal _) => calm t
  end.

End Verdict.

(** What the shapes tell of every call of the pipeline, for the message
    [message] and the access token [feishuToken]. *)
Definition shaped_call (env : MoltbotEnv) (message feishuToken : JsValue)
  (ev : Event) : Prop :=
  match ev with
  | EvFetch (ReplyRequest auth mid _ ty) _ =>
      auth = bearer feishuToken /\
      mid = ToString (own_prop message (lit "message_id")) /\
      ty = lit "text"
  | EvFetch (FileUploadRequest auth _ _ purpose) _ =>
      auth = bearer (VStr (api_key env)) /\ purpose = lit "file-extract"
  | EvFetch (ChatRequest auth model _) _ =>
      auth = bearer (VStr (api_key env)) /\ model = lit "qwen-long"
  | EvFetch (CreateDocRequest auth _) _ => auth = bearer feishuToken
  | EvFetch (AppendBlockRequest auth _ _ index) _ =>
      auth = bearer feishuToken /\ index = (-1)%Z
  | EvList prefix _ => prefix = chat_prefix (own_prop message (lit "chat_id"))
  | EvGet _ _ | EvDelete _ _ => True
  | EvFetch (TokenRequest _ _) _ | EvFetch (ResourceRequest _ _ _) _
  | EvPut _ _ _ | EvNow _ => False
  end.

(** The calls the pipeline may make for the message [message] with the
    access token [feishuToken], as they go over the wire: the header
    [Authorization] holds [Bearer] and the access token in the calls to the
    chat platform, and [Bearer] and the configured API key in the calls to
    the understanding service; replies go to the message as [text]; the
    listing is made under [chat_data/{chat_id}/].  The pipeline stores
    nothing, downloads nothing and does not read the clock. *)
Definition pipeline_call (env : MoltbotEnv) (message feishuToken : JsValue)
  (ev : Event) : Prop :=
  match ev with
  | EvFetch (ReplyRequest auth mid _ ty) _ =>
      auth = lit "Bearer " ++ ToString feishuToken /\
      mid = ToString (own_prop message (lit "message_id")) /\
      ty = lit "text"
  | EvFetch (FileUploadRequest auth _ _ purpose) _ =>
      (exists apiKey,
         DASHSCOPE_API_KEY env = Some apiKey /\ apiKey <> [] /\
         auth = lit "Bearer " ++ apiKey) /\
      purpose = lit "file-extract"
  | EvFetch (ChatRequest auth model _) _ =>
      (exists apiKey,
         DASHSCOPE_API_KEY env = Some apiKey /\ apiKey <> [] /\
         auth = lit "Bearer " ++ apiKey) /\
      model = lit "qwen-long"
  | EvFetch (CreateDocRequest auth _) _ =>
      auth = lit "Bearer " ++ ToString feishuToken
  | EvFetch (AppendBlockRequest auth _ _ index) _ =>
      auth = lit "Bearer " ++ ToString feishuToken /\ index = (-1)%Z
  | EvList prefix _ =>
      prefix = lit "chat_data/" ++ ToString (own_prop message (lit "chat_id"))
               ++ lit "/"
  | EvGet _ _ | EvDelete _ _ => True
  | EvFetch (TokenRequest _ _) _ | EvFetch (ResourceRequest _ _ _) _
  | EvPut _ _ _ | EvNow _ => False
  end.

(** The objects the bucket gave, and the files sent to the understanding
    service. *)
Definition fetched : list Event -> list (jsstring * ArrayBuffer) :=
  pick (fun ev => match ev with
                  | EvGet k (Normal (Some data)) => Some (k, data)
                  | _ => None
                  end).

Definition uploads : list Event -> list (jsstring * ArrayBuffer) :=
  pick (fun ev => match ev with
                  | EvFetch (FileUploadRequest _ name file _) _ => Some (name, file)
                  | _ => None
                  end).

(* ================================================================== *)
(** * More inputs to run the module on *)
(* ================================================================== *)

Module Cases.

(** A message event of type [text] in conversation [c1], with the given
    content. *)
Definition text_event_data (content : jsstring) : JsValue :=
  VObj [(lit "schema", VStr (lit "2.0"));
        (lit "header",
         VObj [(lit "event_type", VStr (lit "im.message.receive_v1"));
               (lit "token", VStr (lit "vtoken"))]);
        (lit "event",
         VObj [(lit "message",
                VObj [(lit "message_type", VStr (lit "text"));
                      (lit "message_id", VStr (lit "om_1"));
                      (lit "chat_id", VStr (lit "c1"));
                      (lit "content", VStr content)])])].

(** A message event that holds no message. *)
Definition empty_event_data : JsValue :=
  VObj [(lit "schema", VStr (lit "2.0"));
        (lit "header",
         VObj [(lit "event_type", VStr (lit "im.message.receive_v1"));
               (lit "token", VStr (lit "vtoken"))]);
        (lit "event", VObj [])].

(** The parser of [Demo], with three more bodies. *)
Definition parse (s : jsstring) : Res JsValue :=
  if startsWith s (lit "text-event:") then Normal (text_event_data (skipn 11 s))
  else if startsWith s (lit "say:") then
    Normal (VObj [(lit "text", VStr (skipn 4 s))])
  else if JsString.eqb s (lit "empty-event") then Normal empty_event_data
  else Demo.parse s.

(** The world [w], with the answers of [f] to the requests it knows. *)
Definition answering (f : HttpRequest -> option (Res Response)) (w : World) : World :=
  {| w_fetch := fun h req =>
       match f req with
       | Some r => r
       | None => w_fetch w h req
       end;
     w_list := w_list w;
     w_get := w_get w;
     w_put := w_put w;
     w_delete := w_delete w;
     w_now := w_now w |}.

(** The platform grants no token. *)
Definition token_refused : World :=
  answering (fun req => match req with
                        | TokenRequest _ _ => Some (Demo.answer "refused")
                        | _ => None
                        end) Demo.calm.



(** The attachment cannot be downloaded. *)
Definition download_refused : World :=
  answering (fun req =>
               match req with
               | ResourceRequest _ _ _ =>
                   Some (Normal (mkResponse false 404 (lit "Not Found") (Normal [])
                                   (Normal [])))
               | _ => None
               end) Demo.calm.

(** The attachment is answered 200, but its body cannot be read. *)
Definition download_unreadable : World :=
  answering (fun req =>
               match req with
               | ResourceRequest _ _ _ =>
                   Some (Normal (mkResponse true 200 (lit "OK") (Normal [])
                                   (Thrown (Err (lit "body stream error")))))
               | _ => None
               end) Demo.calm.

(** The bucket cannot be listed. *)
Definition listing_fails : World :=
  {| w_fetch := w_fetch Demo.calm;
     w_list := fun _ _ => Thrown (Err (lit "bucket unavailable"));
     w_get := w_get Demo.calm;
     w_put := w_put Demo.calm;
     w_delete := w_delete Demo.calm;
     w_now := w_now Demo.calm |}.

(** The environment of [Demo] without the key of the understanding
    service. *)
Definition env_without_key : MoltbotEnv :=
  {| FEISHU_APP_ID := FEISHU_APP_ID Demo.env;
     FEISHU_APP_SECRET := FEISHU_APP_SECRET Demo.env;
     FEISHU_VERIFICATION_TOKEN := FEISHU_VERIFICATION_TOKEN Demo.env;
     DASHSCOPE_API_KEY := None |}.

(** The stager on the attachment [Report.PDF] of the message [om_2]. *)
Definition stage (w : World) : M unit :=
  downloadAndSaveFeishuFile Demo.parse w Demo.env (VStr (lit "om_2"))
    (VStr (lit "file_v2_1")) (lit "Report.PDF") (VStr (lit "c1")).

(** The pipeline on the trigger message of [Demo]. *)
Definition process (w : World) (env : MoltbotEnv) : M unit :=
  processPdfAndReply Demo.parse Demo.stringify w env Demo.message.

End Cases.

(* ================================================================== *)
(** * Facts about strings *)
(* ================================================================== *)

Lemma eqb_eq (s t : jsstring) : JsString.eqb s t = true <-> s = t.
Proof.
  revert t; induction s as [|a s IH]; intros [|b t]; simpl; split;
    try congruence; try reflexivity.
  - intros H. apply andb_true_iff in H as [Hab Hst].
    apply N.eqb_eq in Hab. apply IH in Hst. congruence.
  - intros H. injection H as -> ->. rewrite N.eqb_refl. simpl. now apply IH.
Qed.

Lemma eqb_refl (s : jsstring) : JsString.eqb s s = true.
Proof. now apply eqb_eq. Qed.

Lemma eqb_neq (s t : jsstring) : JsString.eqb s t = false <-> s <> t.
Proof.
  split.
  - intros H E. apply eqb_eq in E. congruence.
  - intros H. destruct (JsString.eqb s t) eqn:E; [|reflexivity].
    apply eqb_eq in E. contradiction.
Qed.

Lemma startsWith_app (p s : jsstring) : startsWith (p ++ s) p = true.
Proof.
  induction p as [|a p IH]; simpl; [reflexivity|].
  now rewrite N.eqb_refl.
Qed.

Lemma startsWith_inv (s p : jsstring) :
  startsWith s p = true -> exists rest, s = p ++ rest.
Proof.
  revert s; induction p as [|a p IH]; intros s H.
  - now exists s.
  - destruct s as [|b s]; simpl in H; [discriminate|].
    apply andb_true_iff in H as [Hab Hs]. apply N.eqb_eq in Hab; subst b.
    destruct (IH _ Hs) as [rest ->]. now exists rest.
Qed.

Lemma includes_unfold (s p : jsstring) :
  includes s p
  = (startsWith s p || match s with [] => false | _ :: s' => includes s' p end)%bool.
Proof. destruct s; reflexivity. Qed.

Lemma includes_app (pre sub post : jsstring) :
  includes (pre ++ sub ++ post) sub = true.
Proof.
  induction pre as [|c pre IH]; simpl.
  - rewrite includes_unfold, startsWith_app. reflexivity.
  - rewrite IH. apply orb_true_r.
Qed.

Lemma includes_inv (s p : jsstring) :
  includes s p = true -> exists pre post, s = pre ++ p ++ post.
Proof.
  induction s as [|c s IH]; simpl; intros H.
  - rewrite orb_false_r in H. apply startsWith_inv in H as [rest ->].
    now exists [], rest.
  - apply orb_true_iff in H as [H|H].
    + apply startsWith_inv in H as [rest ->]. now exists [], rest.
    + destruct (IH H) as (pre & post & ->). now exists (c :: pre), post.
Qed.

Lemma includes_trans (s name part : jsstring) :
  includes s name = true -> includes name part = true -> includes s part = true.
Proof.
  intros H1 H2.
  apply includes_inv in H1 as (pre & post & ->).
  apply includes_inv in H2 as (pre' & post' & ->).
  replace (pre ++ (pre' ++ part ++ post') ++ post)
    with ((pre ++ pre') ++ part ++ (post' ++ post))
    by (now rewrite <- !app_assoc).
  apply includes_app.
Qed.

Lemma endsWith_app (s suffix : jsstring) : endsWith (s ++ suffix) suffix = true.
Proof.
  unfold endsWith. rewrite length_app.
  replace (List.length s + List.length suffix - List.length suffix)%nat
    with (List.length s) by lia.
  rewrite skipn_app, skipn_all, Nat.sub_diag. cbn [skipn app].
  rewrite eqb_refl, andb_true_r. apply Nat.leb_le. lia.
Qed.

Lemma endsWith_inv (s suffix : jsstring) :
  endsWith s suffix = true -> exists stem, s = stem ++ suffix.
Proof.
  unfold endsWith. intros H. apply andb_true_iff in H as [_ H].
  apply eqb_eq in H.
  remember (List.length s - List.length suffix)%nat as k eqn:Hk. clear Hk.
  exists (firstn k s). rewrite <- H. symmetry. apply firstn_skipn.
Qed.

Lemma map_eq_Forall2 (A B : Type) (f : A -> B) (a b : list A) :
  map f a = map f b <-> Forall2 (fun x y => f x = f y) a b.
Proof.
  split.
  - revert b; induction a as [|x a IH]; intros [|y b] H; try discriminate.
    + constructor.
    + injection H as Hxy H. constructor; auto.
  - induction 1; simpl; congruence.
Qed.

(** The test of the code for the extension is a comparison of the end of
    the name with [.pdf] that ignores case. *)
Lemma is_pdf_name_spec (name : jsstring) :
  is_pdf_name name = true <-> ends_in_pdf name.
Proof.
  unfold is_pdf_name, ends_in_pdf, same_ignoring_case, toLowerCase. split.
  - intros H. apply endsWith_inv in H as [stem H].
    apply map_eq_app in H as (stem' & ext & -> & _ & Hext).
    exists stem', ext. split; [reflexivity|].
    apply map_eq_Forall2. exact Hext.
  - intros (stem & ext & -> & Hext).
    apply map_eq_Forall2 in Hext. rewrite map_app, Hext.
    apply (endsWith_app (map lower_unit stem) (lit ".pdf")).
Qed.

Lemma split_not_nil (sep : code_unit) (s : jsstring) : split sep s <> [].
Proof.
  destruct s as [|c s]; simpl; [discriminate|].
  destruct (N.eqb c sep); [discriminate|].
  destruct (split sep s); discriminate.
Qed.

Lemma split_first (sep : code_unit) (a b : jsstring) :
  ~ In sep a -> split sep (a ++ sep :: b) = a :: split sep b.
Proof.
  induction a as [|c a IH]; simpl; intros H.
  - now rewrite N.eqb_refl.
  - destruct (N.eqb c sep) eqn:E.
    + apply N.eqb_eq in E. exfalso. apply H. now left.
    + rewrite IH by (intros Hin; apply H; now right). reflexivity.
Qed.

Lemma join_split (sep : code_unit) (s : jsstring) : join [sep] (split sep s) = s.
Proof.
  induction s as [|c s IH]; simpl; [reflexivity|].
  destruct (N.eqb c sep) eqn:E.
  - apply N.eqb_eq in E; subst c.
    pose proof (split_not_nil sep s) as Hn.
    destruct (split sep s) as [|w ws]; [contradiction|].
    simpl in *. now rewrite IH.
  - pose proof (split_not_nil sep s) as Hn.
    destruct (split sep s) as [|w ws]; [contradiction|].
    simpl in *. destruct ws; simpl in *; now rewrite <- IH.
Qed.

(** What [split('_').slice(1).join('_')] keeps of a key: everything after
    the first underscore. *)
Lemma after_first_underscore (a b : jsstring) :
  ~ In underscore a ->
  join (lit "_") (slice1 (split underscore (a ++ underscore :: b))) = b.
Proof.
  intros H. rewrite split_first by assumption. simpl.
  apply (join_split underscore).
Qed.

(** Every key under [chat_data/] has its first underscore in that prefix,
    so the name computed from the key is the key without [chat_]. *)
Lemma file_name_of_key_chat_data (rest : jsstring) :
  file_name_of_key (lit "chat_data/" ++ rest) = lit "data/" ++ rest.
Proof.
  unfold file_name_of_key.
  change (lit "chat_data/" ++ rest)
    with (lit "chat" ++ underscore :: (lit "data/" ++ rest)).
  rewrite after_first_underscore.
  - reflexivity.
  - simpl. unfold underscore. intros [H|[H|[H|[H|[]]]]]; discriminate.
Qed.

Lemma file_name_of_object_key (chatId : JsValue) (now : Z) (fileName : jsstring) :
  file_name_of_key (object_key chatId now fileName)
  = lit "data/" ++ ToString chatId ++ lit "/" ++ of_Z now ++ lit "_" ++ fileName.
Proof. unfold object_key. apply file_name_of_key_chat_data. Qed.

(* ================================================================== *)
(** * Facts about the sort *)
(* ================================================================== *)

Lemma insert_sorted_perm cmp (x : R2Object) (l : list R2Object) :
  Permutation (insert_sorted cmp x l) (x :: l).
Proof.
  induction l as [|y l IH]; simpl; [reflexivity|].
  destruct (Z.leb (cmp x y) 0); [reflexivity|].
  rewrite IH. apply perm_swap.
Qed.

Lemma sort_perm cmp (l : list R2Object) : Permutation (sort cmp l) l.
Proof.
  induction l as [|x l IH]; simpl; [reflexivity|].
  rewrite insert_sorted_perm. now constructor.
Qed.

Lemma sort_nil_inv cmp (l : list R2Object) : sort cmp l = [] -> l = [].
Proof.
  intros H. apply Permutation_nil. rewrite <- H. apply sort_perm.
Qed.

Lemma insert_sorted_oldest_first (x : R2Object) (l : list R2Object) :
  oldest_first l -> oldest_first (insert_sorted by_uploaded x l).
Proof.
  unfold oldest_first, by_uploaded.
  induction l as [|y l IH]; simpl; intros H.
  - repeat constructor.
  - inversion H as [|? ? Hl Hy]; subst.
    destruct (Z.leb (uploaded x - uploaded y) 0) eqn:E.
    + apply Z.leb_le in E. constructor; [assumption|].
      constructor; [lia|].
      eapply Forall_impl; [|exact Hy]. simpl. intros; lia.
    + apply Z.leb_gt in E. constructor; [now apply IH|].
      eapply Permutation_Forall; [symmetry; apply insert_sorted_perm|].
      constructor; [lia|assumption].
Qed.

Lemma sort_oldest_first (l : list R2Object) : oldest_first (sort by_uploaded l).
Proof.
  induction l as [|x l IH]; simpl.
  - constructor.
  - now apply insert_sorted_oldest_first.
Qed.

(** The sort is stable: objects uploaded at the same time keep the order
    of the listing. *)
Lemma insert_sorted_same_time (z : Z) (x : R2Object) (l : list R2Object) :
  filter (fun o => Z.eqb (uploaded o) z) (insert_sorted by_uploaded x l)
  = filter (fun o => Z.eqb (uploaded o) z) (x :: l).
Proof.
  induction l as [|y l IH]; [reflexivity|].
  cbn [insert_sorted]. unfold by_uploaded at 1.
  destruct (Z.leb (uploaded x - uploaded y) 0) eqn:E; [reflexivity|].
  apply Z.leb_gt in E.
  cbn [filter] in *. rewrite IH.
  destruct (Z.eqb (uploaded x) z) eqn:Ex, (Z.eqb (uploaded y) z) eqn:Ey;
    try reflexivity.
  apply Z.eqb_eq in Ex, Ey. lia.
Qed.

Lemma sort_stable (z : Z) (l : list R2Object) :
  filter (fun o => Z.eqb (uploaded o) z) (sort by_uploaded l)
  = filter (fun o => Z.eqb (uploaded o) z) l.
Proof.
  induction l as [|x l IH]; [reflexivity|].
  cbn [sort]. rewrite insert_sorted_same_time. cbn [filter]. now rewrite IH.
Qed.

Lemma Subseq_Forall (A : Type) (P : A -> Prop) (l1 l2 : list A) :
  Subseq l1 l2 -> Forall P l2 -> Forall P l1.
Proof.
  induction 1; intros HF; inversion HF; subst; auto.
Qed.

Lemma Subseq_oldest_first (l1 l2 : list R2Object) :
  Subseq l1 l2 -> oldest_first l2 -> oldest_first l1.
Proof.
  unfold oldest_first. induction 1; intros HS.
  - constructor.
  - inversion HS; subst. auto.
  - inversion HS; subst. constructor; [auto|].
    eapply Subseq_Forall; eassumption.
Qed.

Lemma Subseq_refl (A : Type) (l : list A) : Subseq l l.
Proof. induction l; constructor; assumption. Qed.

(* ================================================================== *)
(** * Every run has one of the shapes *)
(* ================================================================== *)

Lemma get_normal (v : JsValue) (name : jsstring) (x : JsValue) :
  get v name = Normal x -> nullish v = false /\ x = own_prop v name.
Proof.
  unfold get. destruct (nullish v); intros H; [discriminate|].
  injection H as <-. auto.
Qed.

Lemma get_thrown (v : JsValue) (name : jsstring) (e : JsError) :
  get v name = Thrown e -> nullish v = true.
Proof. unfold get. destruct (nullish v); intros H; [reflexivity|discriminate]. Qed.

Lemma get_not_nullish (v : JsValue) (name : jsstring) :
  nullish v = false -> get v name = Normal (own_prop v name).
Proof. unfold get. now intros ->. Qed.

Ltac unfold_monad :=
  cbv beta iota zeta delta
    [bind ret throw lift try_catch fetch json res_text res_arrayBuffer prop
     bucket_list bucket_get bucket_put bucket_delete date_now].

(** Case analysis on what the next [match] of the goal looks at. *)
Ltac next_case :=
  match goal with
  | |- context [match ?x with _ => _ end] =>
      match x with
      | context [match _ with _ => _ end] => fail 1
      | _ => destruct x eqn:?
      end
  | |- context [if ?x then _ else _] =>
      match x with
      | context [if _ then _ else _] => fail 1
      | _ => destruct x eqn:?
      end
  end.

(** The facts a run leaves behind, in the form the shapes use. *)
Ltac tidy :=
  repeat match goal with
  | H : negb _ = true |- _ => apply negb_true_iff in H
  | H : negb _ = false |- _ => apply negb_false_iff in H
  | H : get _ _ = Normal _ |- _ =>
      apply get_normal in H; destruct H as [? ?]; subst
  | H : get _ _ = Thrown _ |- _ => apply get_thrown in H
  | H : (_ || _)%bool = false |- _ => apply orb_false_iff in H; destruct H
  end.

Ltac answers :=
  unfold upload_id, upload_refused, generated_text, created, write_refused,
    json_of, choice_content, created_document_id in *;
  repeat match goal with
  | H : ?x = _ |- context [?x] => rewrite H
  | H : ?x = _, H' : context [?x] |- _ => rewrite H in H'
  end;
  cbn [andb orb negb] in *.

Section Anatomy.

Variable parse : jsstring -> Res JsValue.
Variable stringify : JsValue -> jsstring.
Variable W : World.

Lemma reply_run (token messageId : JsValue) (content msgType : jsstring)
  (h : list Event) :
  exists rr r,
    replyFeishuMessage parse W token messageId content msgType h
    = ([EvFetch (ReplyRequest (bearer token) (ToString messageId) content msgType) rr],
       r).
Proof.
  unfold replyFeishuMessage. unfold_monad.
  repeat next_case; simpl; eauto.
Qed.

Lemma token_run (appId appSecret : option jsstring) (h : list Event) :
  exists rr r,
    getFeishuToken parse W appId appSecret h
    = ([EvFetch (TokenRequest appId appSecret) rr], r).
Proof.
  unfold getFeishuToken. unfold_monad.
  repeat next_case; simpl; eauto.
Qed.

Lemma upload_loop_shape (env : MoltbotEnv) (pdfs : list R2Object) :
  forall fileIds fileNames h,
  exists U r,
    upload_loop parse W (api_key env) pdfs fileIds fileNames h = (U, r) /\
    Uploaded parse env pdfs fileIds fileNames U r.
Proof.
  induction pdfs as [|pdf rest IH]; intros fileIds fileNames h.
  - simpl. unfold_monad. eexists _, _. split; [reflexivity|]. constructor.
  - cbn [upload_loop]. unfold_monad.
    repeat (first
      [ match goal with
        | |- context [upload_loop parse W _ rest ?i ?n ?h'] =>
            destruct (IH i n h') as (? & ? & -> & ?)
        end
      | next_case ]; cbv beta iota zeta).
    all: eexists _, _; (split; [reflexivity|]).
    all: cbn [app]; tidy.
    all: try (apply Up_rejected;
              [ answers; reflexivity
              | intros res [= <-] Href; answers;
                solve [eauto 6 | discriminate] ]).
    all: try (eapply Up_accepted; [answers; reflexivity | assumption]).
    all: try (now apply Up_missing).
    all: try apply Up_get_threw.
Qed.

Lemma delete_loop_shape (pdfs : list R2Object) :
  forall h, exists D r, delete_loop W pdfs h = (D, r) /\ Deleted pdfs D r.
Proof.
  induction pdfs as [|pdf rest IH]; intros h.
  - simpl. unfold_monad. eexists _, _. split; [reflexivity|]. constructor.
  - cbn [delete_loop]. unfold_monad.
    destruct (w_delete W h (key pdf)) as [[]|e].
    + destruct (IH (h ++ [EvDelete (key pdf) (Normal tt)])) as (D & r & -> & HD).
      eexists _, _. split; [reflexivity|]. now apply Del_next.
    + eexists _, _. split; [reflexivity|]. apply Del_threw.
Qed.

Lemma analyse_shape (env : MoltbotEnv) (message feishuToken : JsValue)
  (pdfs : list R2Object) (h : list Event) :
  nullish message = false ->
  exists A r,
    analyse parse stringify W env message feishuToken pdfs h = (A, r) /\
    Analysed parse env message feishuToken pdfs A r.
Proof.
  intros Hmsg. unfold analyse.
  destruct (configured (DASHSCOPE_API_KEY env)) eqn:Hkey; cbn [negb].
  2: { unfold_monad. eexists _, _. split; [reflexivity|]. now apply An_no_key. }
  unfold_monad. fold (api_key env).
  destruct (upload_loop_shape env pdfs [] [] h) as (U & ru & -> & HU).
  destruct ru as [[fileIds fileNames]|e]; cbv beta iota zeta.
  2: { eexists _, _. split; [reflexivity|]. now apply An_upload_failed. }
  repeat (first
    [ match goal with
      | |- context [delete_loop W pdfs ?h'] =>
          destruct (delete_loop_shape pdfs h') as (? & ? & -> & ?)
      | |- context [replyFeishuMessage parse W ?t ?m ?c ?ty ?h'] =>
          destruct (reply_run t m c ty h') as (? & ? & ->)
      end
    | next_case ]; cbv beta iota zeta).
  all: eexists _, _; (split; [reflexivity|]).
  all: cbn [app]; tidy; try congruence.
  all: try solve [eapply An_summarize_failed; [eassumption | answers; reflexivity]].
  all: try solve [eapply An_create_failed;
                  [eassumption | answers; reflexivity | answers; reflexivity]].
  all: try solve [eapply An_write_failed;
                  [eassumption | answers; reflexivity | answers; reflexivity
                  | answers; solve [reflexivity | exact I] ]].
  - eapply An_written with (r := Normal tt);
      [ eassumption | answers; reflexivity | answers; reflexivity
      | answers; reflexivity
      | match goal with H : Deleted _ _ (Normal ?u) |- _ => destruct u; exact H end
      | ].
    cbv beta iota. eexists _, _. split; [now apply get_not_nullish|reflexivity].
  - match goal with
    | |- Analysed _ _ _ _ _ (U ++ ?c :: ?cr :: ?ap :: ?D) _ =>
        change (U ++ c :: cr :: ap :: D) with (U ++ [c; cr; ap] ++ D);
        rewrite <- (app_nil_r D)
    end.
    eapply An_written;
      [ eassumption | answers; reflexivity | answers; reflexivity
      | answers; reflexivity | eassumption | ].
    cbv beta iota. auto.
Qed.

Lemma pipeline_shape (env : MoltbotEnv) (message feishuToken : JsValue)
  (h : list Event) :
  exists P r,
    pipeline parse stringify W env message feishuToken h = (P, r) /\
    Piped parse env message feishuToken P r.
Proof.
  unfold pipeline. unfold_monad.
  destruct (get message (lit "message_id")) as [messageId|e] eqn:Hmid.
  2: { eexists _, _. split; [reflexivity|]. now apply Pi_no_message. }
  pose proof (get_normal _ _ Hmid) as [Hmsg ->].
  repeat (first
    [ match goal with
      | |- context [replyFeishuMessage parse W ?t ?m ?c ?ty ?h'] =>
          destruct (reply_run t m c ty h') as (? & ? & ->)
      | |- context [analyse parse stringify W ?e ?m ?t ?p ?h'] =>
          destruct (analyse_shape e m t p h' Hmsg) as (? & ? & -> & ?)
      end
    | next_case ]; cbv beta iota zeta).
  all: eexists _, _; (split; [reflexivity|]).
  all: cbn [app]; tidy; try congruence.
  - apply Pi_nothing_staged; [now apply get_not_nullish|].
    apply Nat.eqb_eq in Heqb. now apply length_zero_iff_nil.
  - match goal with
    | |- Piped _ _ _ _ (?a :: ?b :: ?A) _ => change (a :: b :: A) with ([a; b] ++ A)
    end.
    apply Pi_analysed; [now apply get_not_nullish| |assumption].
    apply Nat.eqb_neq in Heqb. intros Hnil. apply Heqb. now rewrite Hnil.
  - apply Pi_list_failed. now apply get_not_nullish.
  - apply Pi_notice_failed. now apply get_not_nullish.
Qed.

Theorem processPdfAndReply_shape (env : MoltbotEnv) (message : JsValue)
  (h : list Event) :
  Processed parse env message
    (events (processPdfAndReply parse stringify W env message) h).
Proof.
  unfold events, processPdfAndReply.
  destruct (negb (configured (FEISHU_APP_ID env))
            || negb (configured (FEISHU_APP_SECRET env)))%bool eqn:Hcfg.
  { unfold_monad. simpl. now apply Pr_not_configured. }
  unfold_monad.
  destruct (token_run (FEISHU_APP_ID env) (FEISHU_APP_SECRET env) h)
    as (rr & rt & ->).
  destruct rt as [feishuToken|e]; cbv beta iota zeta; cbn [app fst].
  2: { apply Pr_no_token. }
  destruct (pipeline_shape env message feishuToken
              (h ++ [EvFetch (TokenRequest (FEISHU_APP_ID env)
                                           (FEISHU_APP_SECRET env)) rr]))
    as (P & r & HP & HS).
  rewrite HP.
  destruct r as [[]|e]; cbv beta iota zeta.
  - cbn [fst]. rewrite <- (app_nil_r P).
    eapply Pr_run; [eassumption|constructor].
  - destruct (get message (lit "message_id")) as [messageId|e'] eqn:Hmid.
    + match goal with
      | |- context [replyFeishuMessage parse W ?t ?m ?c ?ty ?h'] =>
          destruct (reply_run t m c ty h') as (rr' & r' & ->)
      end.
      cbn [fst app].
      eapply Pr_run; [eassumption|]. now apply Rep_failure.
    + cbn [fst app]. 
      eapply Pr_run; [eassumption|]. eapply Rep_no_message. eassumption.
Qed.

End Anatomy.

(* ================================================================== *)
(** * Reading the shapes *)
(* ================================================================== *)

Lemma pick_app (A : Type) (f : Event -> option A) (t1 t2 : list Event) :
  pick f (t1 ++ t2) = pick f t1 ++ pick f t2.
Proof. unfold pick. apply flat_map_app. Qed.

Lemma pick_cons (A : Type) (f : Event -> option A) (ev : Event) (t : list Event) :
  pick f (ev :: t) = match f ev with Some a => [a] | None => [] end ++ pick f t.
Proof. reflexivity. Qed.

Lemma pick_nil (A : Type) (f : Event -> option A) : pick f [] = [].
Proof. reflexivity. Qed.




Lemma regroup_upload (A : Type) (x : A) (pre U F : list A) :
  x :: (pre ++ U) ++ F = (x :: pre) ++ U ++ F.
Proof. cbn [app]. f_equal. now rewrite <- !app_assoc. Qed.

Lemma regroup_later (A : Type) (x : A) (pre U rest F : list A) :
  x :: (pre ++ U ++ rest) ++ F = (x :: pre) ++ U ++ (rest ++ F).
Proof. cbn [app]. f_equal. now rewrite <- !app_assoc. Qed.

(** An event that [P] selects, in a trace whose parts [X] and [Y] hold none,
    lies in the part between them. *)
Lemma located (P : Event -> bool) (X U Y : list Event) :
  Forall (fun ev => P ev = false) X ->
  Forall (fun ev => P ev = false) Y ->
  forall before ev after,
    P ev = true -> X ++ U ++ Y = before ++ ev :: after ->
    exists b' a', before = X ++ b' /\ U = b' ++ ev :: a' /\ after = a' ++ Y.
Proof.
  intros HX HY. induction HX as [|x X Hx _ IH]; intros before ev after Hev E.
  - cbn [app] in E. revert before E.
    induction U as [|u U IHU]; intros before E.
    + exfalso. cbn [app] in E. subst Y.
      apply Forall_app in HY as [_ HY]. inversion HY; congruence.
    + destruct before as [|b before]; cbn [app] in E.
      * injection E as -> <-. now exists [], U.
      * injection E as -> E. destruct (IHU _ E) as (b' & a' & Hb & HU & Ha).
        cbn [app] in Hb. subst. now exists (b :: b'), a'.
  - destruct before as [|b before]; cbn [app] in E.
    + injection E as -> _. congruence.
    + injection E as -> E. destruct (IH _ _ _ Hev E) as (b' & a' & -> & HU & Ha).
      now exists b', a'.
Qed.

Lemma deletion_not_read (D : list Event) :
  Forall (fun ev => deletion ev = true) D ->
  Forall (fun ev => bucket_read ev = false) D.
Proof.
  intros H. eapply Forall_impl; [|exact H].
  intros [| | | | |]; simpl; congruence.
Qed.

Lemma success_is_not_processing :
  startsWith Text.processing Text.success_head = false.
Proof. reflexivity. Qed.

Lemma success_is_not_no_pdf : startsWith Text.no_pdf Text.success_head = false.
Proof. reflexivity. Qed.

Lemma success_is_not_failure (e : JsError) :
  startsWith (failure_text e) Text.success_head = false.
Proof. reflexivity. Qed.

Lemma pick_none (A : Type) (f : Event -> option A) (t : list Event) :
  Forall (fun ev => f ev = None) t -> pick f t = [].
Proof.
  induction 1 as [|ev t Hev _ IH]; [reflexivity|].
  unfold pick in *. simpl. now rewrite Hev, IH.
Qed.

Lemma in_pick (A : Type) (f : Event -> option A) (t : list Event) (ev : Event) (a : A) :
  In ev t -> f ev = Some a -> In a (pick f t).
Proof.
  intros Hin Hf. unfold pick. apply in_flat_map. exists ev.
  split; [assumption|]. rewrite Hf. now left.
Qed.

Lemma pick_in (A : Type) (f : Event -> option A) (t : list Event) (a : A) :
  In a (pick f t) -> exists ev, In ev t /\ f ev = Some a.
Proof.
  unfold pick. intros H. apply in_flat_map in H as (ev & Hin & Ha).
  exists ev. split; [assumption|].
  destruct (f ev); simpl in Ha; [|contradiction].
  destruct Ha as [->|[]]. reflexivity.
Qed.

Lemma missing_was_asked (t : list Event) (k : jsstring) :
  In k (missing_keys t) -> In k (get_keys t).
Proof.
  intros H. apply pick_in in H as (ev & Hin & Hev).
  eapply in_pick; [exact Hin|].
  destruct ev as [| |? [[|]|]| | |]; try discriminate.
  injection Hev as ->. reflexivity.
Qed.

Lemma Prefix_refl (A : Type) (l : list A) : Prefix l l.
Proof. exists []. now rewrite app_nil_r. Qed.

Lemma Prefix_nil (A : Type) (l : list A) : Prefix [] l.
Proof. now exists l. Qed.

Lemma Prefix_cons (A : Type) (x : A) (l1 l2 : list A) :
  Prefix l1 l2 -> Prefix (x :: l1) (x :: l2).
Proof. intros [rest ->]. now exists rest. Qed.

Section Grammar.

Variable parse : jsstring -> Res JsValue.
Variable env : MoltbotEnv.
Variable message : JsValue.
Variable feishuToken : JsValue.

(** ** The upload loop *)

Lemma Uploaded_stage pdfs fileIds fileNames U r :
  Uploaded parse env pdfs fileIds fileNames U r ->
  Forall (fun ev => upload_stage ev = true) U.
Proof. induction 1; repeat constructor; assumption. Qed.

Lemma upload_stage_pick (A : Type) (f : Event -> option A) (U : list Event) :
  (forall ev, upload_stage ev = true -> f ev = None) ->
  Forall (fun ev => upload_stage ev = true) U -> pick f U = [].
Proof.
  intros Hf HU. apply pick_none. eapply Forall_impl; [|exact HU]. exact Hf.
Qed.

(** Every fetched object is sent, under the name computed from its key. *)
Lemma Uploaded_names pdfs fileIds fileNames U r :
  Uploaded parse env pdfs fileIds fileNames U r ->
  upload_names U = map file_name_of_key (fetched_keys U).
Proof.
  induction 1; try reflexivity.
  - assumption.
  - unfold upload_names, fetched_keys, pick in *. simpl. now f_equal.
Qed.

Lemma Uploaded_get_keys pdfs fileIds fileNames U r :
  Uploaded parse env pdfs fileIds fileNames U r ->
  Prefix (get_keys U) (map key pdfs).
Proof.
  induction 1; simpl.
  - apply Prefix_nil.
  - now exists (map key rest).
  - now apply Prefix_cons.
  - now exists (map key rest).
  - now apply Prefix_cons.
Qed.

(** A loop that ends normally went through all the files; the names and ids
    it pushed are those of the objects it fetched, in order. *)
Lemma Uploaded_normal pdfs fileIds fileNames U r :
  Uploaded parse env pdfs fileIds fileNames U r ->
  forall fileIds' fileNames', r = Normal (fileIds', fileNames') ->
    get_keys U = map key pdfs /\
    fileNames' = fileNames ++ map file_name_of_key (fetched_keys U) /\
    fileIds' = fileIds ++ upload_ids parse U /\
    List.length (upload_ids parse U) = List.length (fetched_keys U) /\
    Forall (fun ev => stage_failure parse ev = false) U /\
    exists files, Subseq files pdfs /\ map key files = fetched_keys U.
Proof.
  induction 1; intros ids' names' Hr; try discriminate.
  - injection Hr as <- <-. rewrite !app_nil_r.
    repeat split; try constructor. exists []. split; constructor.
  - destruct (IHUploaded _ _ Hr) as (Hk & Hn & Hi & Hl & Hf & files & Hs & Hm).
    repeat split; try assumption.
    + simpl. now f_equal.
    + constructor; [reflexivity|assumption].
    + exists files. split; [now constructor|assumption].
  - destruct (IHUploaded _ _ Hr) as (Hk & Hn & Hi & Hl & Hf & files & Hs & Hm).
    repeat split.
    + simpl. now f_equal.
    + rewrite Hn, <- app_assoc. reflexivity.
    + rewrite Hi, <- app_assoc. unfold upload_ids, pick. simpl. now rewrite H.
    + unfold upload_ids, fetched_keys, pick in *. simpl. rewrite H. simpl.
      now f_equal.
    + constructor; [reflexivity|].
      constructor; [simpl; now rewrite H|assumption].
    + exists (pdf :: files). split; [now constructor|]. simpl. now f_equal.
Qed.

(** An upload that gives no file id is the last call of the loop, which
    ends with an error. *)
Lemma Uploaded_failed pdfs fileIds fileNames U r :
  Uploaded parse env pdfs fileIds fileNames U r ->
  forall auth name file purpose rr,
    In (EvFetch (FileUploadRequest auth name file purpose) rr) U ->
    upload_id parse rr = None ->
    exists before e,
      U = before ++ [EvFetch (FileUploadRequest auth name file purpose) rr] /\
      r = Thrown e.
Proof.
  induction 1; intros auth name file purpose rr0 Hin Hid; simpl in Hin.
  - contradiction.
  - destruct Hin as [Hin|[]]. discriminate.
  - destruct Hin as [Hin|Hin]; [discriminate|].
    destruct (IHUploaded _ _ _ _ _ Hin Hid) as (before & e & -> & ->).
    now exists (EvGet (key pdf) (Normal None) :: before), e.
  - destruct Hin as [Hin|[Hin|[]]]; [discriminate|].
    rewrite <- Hin.
    now exists [EvGet (key pdf) (Normal (Some pdfBuffer))], e.
  - destruct Hin as [Hin|[Hin|Hin]]; [discriminate| |].
    + injection Hin as _ _ _ _ ->. congruence.
    + destruct (IHUploaded _ _ _ _ _ Hin Hid) as (before & e & -> & ->).
      now exists (EvGet (key pdf) (Normal (Some pdfBuffer))
                  :: upload_event env pdf pdfBuffer rr :: before), e.
Qed.

(** An upload the code refuses is not one that gave an id. *)
Lemma refused_gives_no_id (res : Response) :
  upload_refused parse res = true -> upload_id parse (Normal res) = None.
Proof.
  unfold upload_id, upload_refused.
  destruct (ok res); [|reflexivity].
  destruct (json_of parse res); [|reflexivity].
  destruct (truthy (own_prop j (lit "id"))); [discriminate|reflexivity].
Qed.

(** A refused upload ends the loop with an error that names the file. *)
Lemma Uploaded_refused pdfs fileIds fileNames U r :
  Uploaded parse env pdfs fileIds fileNames U r ->
  forall auth name file purpose res,
    In (EvFetch (FileUploadRequest auth name file purpose) (Normal res)) U ->
    upload_refused parse res = true ->
    (exists errText,
       body res = Normal errText /\
       r = Thrown (Err (upload_failed_text name errText))) \/
    r = Thrown (Err (upload_no_id_text name)).
Proof.
  induction 1; intros auth name file purpose res Hin Href; simpl in Hin.
  - contradiction.
  - destruct Hin as [Hin|[]]. discriminate.
  - destruct Hin as [Hin|Hin]; [discriminate|]. eauto.
  - destruct Hin as [Hin|[Hin|[]]]; [discriminate|].
    injection Hin as _ <- _ _ ->.
    destruct (H0 res eq_refl Href) as [(errText & Hb & ->)| ->]; eauto.
  - destruct Hin as [Hin|[Hin|Hin]]; [discriminate| |eauto].
    injection Hin as _ _ _ _ ->. exfalso.
    apply refused_gives_no_id in Href. congruence.
Qed.

(** After a missing object the loop goes on to the next file, or ends
    normally when it was the last. *)
Lemma Uploaded_missing pdfs fileIds fileNames U r :
  Uploaded parse env pdfs fileIds fileNames U r ->
  forall before k after, U = before ++ EvGet k (Normal None) :: after ->
    match after with
    | [] => exists x, r = Normal x
    | ev :: _ => exists k' g, ev = EvGet k' g
    end.
Proof.
  induction 1; intros before k after HU.
  - destruct before; discriminate.
  - destruct before as [|? [|? ?]]; discriminate.
  - destruct before as [|ev before]; simpl in HU.
    + injection HU as _ <-.
      destruct H; eauto.
    + injection HU as _ HU. eapply IHUploaded. eassumption.
  - destruct before as [|? [|? [|? ?]]]; discriminate.
  - destruct before as [|? [|? before]]; simpl in HU; try discriminate.
    injection HU as _ _ HU. eapply IHUploaded. eassumption.
Qed.

(** The same within a trace: the files come between a part [X] and a part
    [Y] without [get] calls, and [Y] starts with the summarization request
    when the loop ends normally. *)
Lemma located_missing pdfs fileIds fileNames U r (X Y : list Event) :
  Uploaded parse env pdfs fileIds fileNames U r ->
  Forall (fun ev => bucket_read ev = false) X ->
  Forall (fun ev => bucket_read ev = false) Y ->
  (forall x, r = Normal x ->
     exists auth model messages rr Y',
       Y = EvFetch (ChatRequest auth model messages) rr :: Y') ->
  forall before k after,
    X ++ U ++ Y = before ++ EvGet k (Normal None) :: after ->
    exists ev after',
      after = ev :: after' /\
      match ev with
      | EvGet _ _ | EvFetch (ChatRequest _ _ _) _ => True
      | _ => False
      end.
Proof.
  intros HU HX HY Hchat before k after E.
  apply (located bucket_read) in E as (b' & a' & -> & HUeq & ->);
    try assumption; try reflexivity.
  pose proof (Uploaded_missing HU _ _ _ HUeq) as Hnext.
  destruct a' as [|ev a'].
  - destruct Hnext as [x Hx].
    destruct (Hchat _ Hx) as (auth & model & messages & rr & Y' & ->).
    eexists _, _. split; [reflexivity|exact I].
  - destruct Hnext as (k' & g & ->).
    eexists _, _. split; [reflexivity|exact I].
Qed.

(** ** The cleanup loop *)

Lemma Deleted_stage pdfs D r :
  Deleted pdfs D r -> Forall (fun ev => deletion ev = true) D.
Proof. induction 1; repeat constructor; assumption. Qed.

Lemma Deleted_keys pdfs D r :
  Deleted pdfs D r -> Prefix (delete_keys D) (map key pdfs).
Proof.
  induction 1; simpl.
  - apply Prefix_nil.
  - now exists (map key rest).
  - now apply Prefix_cons.
Qed.

Lemma Deleted_normal pdfs D r :
  Deleted pdfs D r -> forall u, r = Normal u ->
  delete_keys D = map key pdfs /\ Forall (fun ev => delete_threw ev = false) D.
Proof.
  induction 1; intros u Hr; try discriminate.
  - split; constructor.
  - destruct (IHDeleted _ Hr) as [Hk Hf]. split.
    + simpl. now f_equal.
    + now constructor.
Qed.

Lemma Deleted_thrown pdfs D r :
  Deleted pdfs D r -> forall e, r = Thrown e ->
  Exists (fun ev => delete_threw ev = true) D.
Proof.
  induction 1; intros e' Hr; try discriminate.
  - now left.
  - right. eauto.
Qed.

Lemma Deleted_started pdfs D r :
  Deleted pdfs D r -> pdfs <> [] -> delete_keys D <> [].
Proof. destruct 1; intros Hp; [contradiction| |]; discriminate. Qed.

End Grammar.

Section Quiet.

Variable parse : jsstring -> Res JsValue.
Variable env : MoltbotEnv.

(** The upload loop only fetches objects and uploads them. *)
Lemma Uploaded_quiet pdfs fileIds fileNames U r :
  Uploaded parse env pdfs fileIds fileNames U r ->
  listings U = [] /\ replies U = [] /\ delete_keys U = [] /\
  chat_requests U = [] /\ titles U = [] /\ appended U = [].
Proof.
  intros H. apply Uploaded_stage in H.
  repeat split; (apply upload_stage_pick; [|assumption]);
    intros [[]| | | | |]; simpl; congruence.
Qed.

(** The cleanup loop only deletes. *)
Lemma Deleted_quiet pdfs D r :
  Deleted pdfs D r ->
  listings D = [] /\ replies D = [] /\ get_keys D = [] /\ fetched_keys D = [] /\
  missing_keys D = [] /\ upload_names D = [] /\ upload_ids parse D = [] /\
  chat_requests D = [] /\ titles D = [] /\ appended D = [].
Proof.
  intros H. apply Deleted_stage in H.
  repeat split; (apply pick_none; eapply Forall_impl; [|exact H]);
    intros [[]| | | | |]; simpl; congruence.
Qed.

Lemma upload_stage_earlier (U : list Event) :
  Forall (fun ev => upload_stage ev = true) U ->
  Forall (fun ev => summarize_or_later ev = false) U.
Proof.
  intros H. eapply Forall_impl; [|exact H].
  intros [[]| | | | |]; simpl; congruence.
Qed.

End Quiet.

Lemma upload_stage_keeps (U : list Event) :
  Forall (fun ev => upload_stage ev = true) U ->
  Forall (fun ev => storage_write ev = false) U.
Proof.
  intros H. eapply Forall_impl; [|exact H].
  intros [[]| | | | |]; simpl; congruence.
Qed.

(** A trace without [put] and [delete] leaves the bucket as it was. *)
Lemma store_after_quiet (t : list Event) :
  Forall (fun ev => storage_write ev = false) t ->
  forall b, store_after t b = b.
Proof.
  unfold store_after. induction 1 as [|ev t Hev _ IH]; intros b; simpl.
  - reflexivity.
  - rewrite <- (IH b) at 2. f_equal.
    destruct ev; try discriminate; reflexivity.
Qed.






Lemma upload_stage_no_deletion (U : list Event) :
  Forall (fun ev => upload_stage ev = true) U ->
  Forall (fun ev => deletion ev = false) U.
Proof.
  intros H. eapply Forall_impl; [|exact H].
  intros [[]| | | | |]; simpl; congruence.
Qed.


Lemma Forall_false_Exists (P : Event -> bool) (t : list Event) :
  Forall (fun ev => P ev = false) t -> Exists (fun ev => P ev = true) t -> False.
Proof.
  intros HF HE. apply Exists_exists in HE as (ev & Hin & Hev).
  rewrite Forall_forall in HF. apply HF in Hin. congruence.
Qed.

Lemma includes_suffix (pre s : jsstring) : includes (pre ++ s) s = true.
Proof. rewrite <- (app_nil_r s) at 1. apply includes_app. Qed.

Lemma failure_text_head (e : JsError) :
  startsWith (failure_text e) Text.failure_head = true.
Proof. apply startsWith_app. Qed.

(** Both upload errors carry the name of the file. *)
Lemma upload_failed_names_file (name errText : jsstring) :
  includes (failure_text (Err (upload_failed_text name errText))) name = true.
Proof.
  unfold failure_text, upload_failed_text. cbn [message].
  rewrite app_assoc. apply includes_app.
Qed.

Lemma upload_no_id_names_file (name : jsstring) :
  includes (failure_text (Err (upload_no_id_text name))) name = true.
Proof.
  unfold failure_text, upload_no_id_text. cbn [message].
  rewrite app_assoc. apply includes_suffix.
Qed.

(** The name computed from a key the stager wrote ends with the name the
    file was sent with. *)
Lemma file_name_keeps_original (chatId : JsValue) (now : Z) (original : jsstring) :
  includes (file_name_of_key (object_key chatId now original)) original = true.
Proof.
  rewrite file_name_of_object_key. rewrite !app_assoc. apply includes_suffix.
Qed.



(* ================================================================== *)
(** * The properties of the specification *)
(* ================================================================== *)

(** Case analysis of a trace along the shapes. *)
Ltac by_shape H :=
  inversion H as [ ? | ? | ? ? ? ? ? HPiped HReported ]; subst; clear H;
  [ | | inversion HPiped as [ ? ? | ? ? ? ? | ? ? ? ? | ? ? ? ? ? ? ?
                            | ? ? ? ? ? ? ? HAnalysed ];
        subst; clear HPiped;
        inversion HReported; subst; clear HReported ].

(** The same, down to the steps of the analysis. *)
Ltac by_steps H :=
  by_shape H;
  try match goal with
      | HA : Analysed _ _ _ _ _ _ _ |- _ => inversion HA; subst; clear HA
      end;
  repeat match goal with
  | H1 : get ?m ?n = Normal _, H2 : get ?m ?n = Thrown _ |- _ =>
      rewrite H1 in H2; discriminate H2
  | H : match ?r with Normal _ => _ | Thrown _ => _ end |- _ =>
      destruct r; [destruct H as (? & ? & ? & ->) | destruct H as [-> ?]];
      try discriminate; subst
  end.

(** An event of the cleanup loop is a deletion. *)
Ltac not_in_cleanup H :=
  match type of H with
  | In _ ?D =>
      match goal with
      | HD : Deleted _ D _ |- _ =>
          exfalso; apply Deleted_stage in HD;
          rewrite Forall_forall in HD; apply HD in H; discriminate H
      end
  end.

(** A property of events holds all along a trace given by its parts. *)
Ltac all_along :=
  repeat first
    [ assumption
    | apply Forall_nil
    | apply Forall_cons;
      [ first [ reflexivity
              | cbn [stage_failure chat_event create_event];
                repeat match goal with
                | H : ?x = Some _ |- context [?x] => rewrite H
                end;
                reflexivity ] |]
    | apply Forall_app; split ].

(** An event of the upload loop is a [get] or an upload. *)
Ltac not_in_upload H :=
  match type of H with
  | In _ ?U =>
      match goal with
      | HU : Uploaded _ _ _ _ _ U _ |- _ =>
          exfalso; apply Uploaded_stage in HU;
          rewrite Forall_forall in HU; apply HU in H; discriminate H
      end
  end.

(** What the loops of the trace are known to do. *)
Ltac facts parse :=
  repeat match goal with
  | HU : Uploaded _ _ _ _ _ ?U ?r |- _ =>
      lazymatch goal with
      | _ : Forall (fun ev => upload_stage ev = true) U |- _ => fail
      | _ =>
          pose proof (Uploaded_stage HU);
          pose proof (Uploaded_names HU);
          destruct (Uploaded_quiet HU) as (? & ? & ? & ? & ? & ?);
          try (destruct (Uploaded_normal HU eq_refl)
                 as (? & ? & ? & ? & ? & ? & ? & ?))
      end
  | HD : Deleted _ ?D _ |- _ =>
      lazymatch goal with
      | _ : Forall (fun ev => deletion ev = true) D |- _ => fail
      | _ =>
          pose proof (Deleted_stage HD);
          pose proof (Deleted_keys HD);
          pose proof (deletion_not_read (Deleted_stage HD));
          destruct (Deleted_quiet parse HD)
            as (? & ? & ? & ? & ? & ? & ? & ? & ? & ?)
      end
  end.

(** What holds all along a trace holds along its part [D]. *)
Ltac part_of H D :=
  let ev := fresh "ev" in
  let Hev := fresh "Hev" in
  assert (Forall (fun ev => delete_threw ev = false) D)
    by (rewrite Forall_forall in H; rewrite Forall_forall;
        intros ev Hev; apply H;
        repeat first [progress cbn [In] | rewrite in_app_iff]; tauto);
  clear H.

(** Where in a trace an event of hypothesis [H] can be. *)
Ltac in_cases H :=
  repeat match type of H with
  | In _ (_ ++ _) => apply in_app_or in H; destruct H as [H|H]
  | In _ (_ :: _) => destruct H as [H|H]
  | In _ [] => destruct H
  end;
  try discriminate H.

(** Computes the projections of a trace given by its parts. *)
Ltac project :=
  unfold listings, replies, delete_keys, get_keys, fetched_keys, missing_keys,
    upload_names, upload_ids, chat_requests, titles, appended in *;
  repeat first [rewrite pick_cons | rewrite pick_app | rewrite pick_nil];
  repeat match goal with
  | H : pick ?f ?U = _ |- context [pick ?f ?U] => rewrite H
  end;
  cbn [app reply_event chat_event create_event append_event upload_event];
  rewrite ?app_nil_r.

Section Claims.

Variable parse : jsstring -> Res JsValue.
Variable stringify : JsValue -> jsstring.
Variable W : World.








(** C2, amended.  An upload that gives no file id, in whatever way it
    fails, ends the run: the failure reply is the only call after it.  So the
    run makes no summarization call, no document call and no deletion, and
    the bucket is left as it was.  When the failure is one of the two the
    code tests for (a response that is not ok and whose text can be read, or
    a JSON answer without a file id), the text of the reply holds the name
    the file was uploaded under, and with it the original name of a file the
    stager stored. *)
Theorem C2_failed_upload_aborts (env : MoltbotEnv) (message : JsValue)
  (h : list Event) (auth name : jsstring) (file : ArrayBuffer)
  (purpose : jsstring) (rr : Res Response) :
  let t := events (processPdfAndReply parse stringify W env message) h in
  In (EvFetch (FileUploadRequest auth name file purpose) rr) t ->
  upload_id parse rr = None ->
  Forall (fun ev => summarize_or_later ev = false) t /\
  (forall b, store_after t b = b) /\
  exists before auth' messageId text msgType rr',
    t = before ++ [EvFetch (FileUploadRequest auth name file purpose) rr;
                   EvFetch (ReplyRequest auth' messageId text msgType) rr'] /\
    startsWith text Text.failure_head = true /\
    forall res,
      rr = Normal res -> upload_refused parse res = true ->
      includes text name = true /\
      forall chatId now original,
        name = file_name_of_key (object_key chatId now original) ->
        includes text original = true.
Proof.
  intros t Hin Hid.
  pose proof (processPdfAndReply_shape parse stringify W env message h) as Hs.
  fold t in Hs. clearbody t.
  by_steps Hs; in_cases Hin.
  all: try not_in_cleanup Hin.
  all: match goal with
       | HU : Uploaded _ _ _ _ _ ?U _, Hin : In _ ?U |- _ =>
           pose proof (Uploaded_stage HU) as Hstage;
           pose proof (fun res => @Uploaded_refused _ _ _ _ _ _ _ HU
                                    auth name file purpose res) as Hnamed;
           destruct (Uploaded_failed HU _ _ _ _ _ Hin Hid) as (U' & e' & HUeq & E);
           try discriminate E; injection E as E
       end.
  all: pose proof (upload_stage_earlier Hstage);
    pose proof (upload_stage_keeps Hstage).
  all: split; [all_along|].
  all: split; [apply store_after_quiet; all_along|].
  all: rewrite HUeq in Hnamed |- *.
  all: match goal with
       | |- exists _ _ _ _ _ _,
              ?x :: ([?a; ?b] ++ ?U ++ [_]) ++ [reply_event ?tk ?m ?txt ?r] = _ /\ _ =>
           exists (x :: a :: b :: U), (bearer tk), (ToString m), txt, text_type, r
       end.
  all: split; [cbn [app]; rewrite <- app_assoc; reflexivity|].
  all: split; [apply failure_text_head|].
  all: intros res -> Href.
  all: assert (Hlast : In (EvFetch (FileUploadRequest auth name file purpose)
                             (Normal res))
                          (U' ++ [EvFetch (FileUploadRequest auth name file purpose)
                                    (Normal res)]))
         by (apply in_or_app; right; now left).
  all: destruct (Hnamed res Hlast Href) as [(errText & _ & [= ->])|[= ->]].
  - split; [apply upload_failed_names_file|].
    intros chatId now original ->.
    eapply includes_trans;
      [apply upload_failed_names_file|apply file_name_keeps_original].
  - split; [apply upload_no_id_names_file|].
    intros chatId now original ->.
    eapply includes_trans;
      [apply upload_no_id_names_file|apply file_name_keeps_original].
Qed.


(** The ids of the accepted uploads are the ids the service gave, in order. *)
Lemma accepted_ids (t : list Event) :
  map snd (accepted parse t) = upload_ids parse t.
Proof.
  unfold accepted, upload_ids, pick.
  induction t as [|ev t IH]; [reflexivity|].
  cbn [flat_map]. rewrite map_app, IH. f_equal.
  destruct ev as [[] rr| | | | |]; try reflexivity.
  destruct (upload_id parse rr); reflexivity.
Qed.

Lemma upload_ids_length (t : list Event) :
  (List.length (upload_ids parse t) <= List.length (upload_names t))%nat.
Proof.
  unfold upload_ids, upload_names, pick.
  induction t as [|ev t IH]; [reflexivity|].
  cbn [flat_map]. rewrite !length_app.
  destruct ev as [[] rr| | | | |]; try exact IH.
  destruct (upload_id parse rr); cbn [List.length]; lia.
Qed.

(** When every upload gave an id, the accepted uploads are all the uploads. *)
Lemma accepted_names (t : list Event) :
  List.length (upload_ids parse t) = List.length (upload_names t) ->
  map fst (accepted parse t) = upload_names t.
Proof.
  induction t as [|ev t IH]; [reflexivity|].
  pose proof (upload_ids_length t) as Hle.
  unfold accepted, upload_ids, upload_names, pick in *.
  cbn [flat_map]. rewrite map_app, !length_app.
  destruct ev as [[] rr| | | | |]; try exact IH.
  destruct (upload_id parse rr); cbn [List.length app map fst]; intros Hlen.
  - f_equal. apply IH. lia.
  - lia.
Qed.

(** What a run has done when it asks for the summary. *)
Lemma summarize_request (env : MoltbotEnv) (message : JsValue)
  (h : list Event) (auth model : jsstring)
  (messages : list (jsstring * jsstring)) (rr : Res Response) :
  let t := events (processPdfAndReply parse stringify W env message) h in
  In (EvFetch (ChatRequest auth model messages) rr) t ->
  exists objs files,
    listings t = [objs] /\
    get_keys t = map key (gathered objs) /\
    Subseq files (gathered objs) /\
    fetched_keys t = map key files /\
    upload_names t = map (fun f => file_name_of_key (key f)) files /\
    List.length (upload_ids parse t) = List.length files /\
    messages = chat_messages (upload_ids parse t).
Proof.
  intros t Hin.
  pose proof (processPdfAndReply_shape parse stringify W env message h) as Hs.
  fold t in Hs. clearbody t.
  by_steps Hs; in_cases Hin.
  all: try not_in_cleanup Hin.
  all: try not_in_upload Hin.
  all: injection Hin as _ _ <- _.
  all: facts parse.
  all: match goal with
       | HS : Subseq ?files (gathered ?objs) |- _ => exists objs, files
       end.
  all: project.
  all: match goal with
       | Hm : map key ?files = _, Hl : Datatypes.length _ = Datatypes.length _,
         Hi : ?ids = [] ++ _ |- _ =>
           rewrite <- Hm, map_map in *; rewrite Hl, length_map;
           cbn [app] in Hi; subst ids
       end.
  all: repeat split; try assumption; try reflexivity.
Qed.

(** C4.  A run that asks for the summary has asked the bucket for every
    gathered file, oldest upload first, and has uploaded each object the
    bucket gave, in that order; every one of these uploads was accepted.  The
    request lists, between the two prompts, the id the service gave for each
    of these files, in the order of the uploads. *)
Theorem C4_ids_oldest_first (env : MoltbotEnv) (message : JsValue)
  (h : list Event) (auth model : jsstring)
  (messages : list (jsstring * jsstring)) (rr : Res Response) :
  let t := events (processPdfAndReply parse stringify W env message) h in
  In (EvFetch (ChatRequest auth model messages) rr) t ->
  exists objs files,
    listings t = [objs] /\
    Permutation (gathered objs) (filter (fun o => is_pdf_name (key o)) objs) /\
    oldest_first (gathered objs) /\
    get_keys t = map key (gathered objs) /\
    Subseq files (gathered objs) /\
    oldest_first files /\
    fetched_keys t = map key files /\
    map fst (accepted parse t) = map (fun f => file_name_of_key (key f)) files /\
    messages
    = (lit "system", Text.system_prompt)
      :: map (fun upload => (lit "system", lit "fileid://" ++ ToString (snd upload)))
           (accepted parse t)
      ++ [(lit "user", Text.user_prompt)].
Proof.
  intros t Hin.
  destruct (summarize_request env message h _ _ _ _ Hin)
    as (objs & files & Hlist & Hget & Hsub & Hfetched & Hnames & Hlen & Hmsg).
  fold t in Hlist, Hget, Hfetched, Hnames, Hlen, Hmsg.
  exists objs, files.
  split; [exact Hlist|].
  split; [apply sort_perm|].
  split; [apply sort_oldest_first|].
  split; [exact Hget|].
  split; [exact Hsub|].
  split; [eapply Subseq_oldest_first; [exact Hsub|apply sort_oldest_first]|].
  split; [exact Hfetched|].
  split.
  - rewrite accepted_names; [exact Hnames|].
    rewrite Hlen, Hnames, length_map. reflexivity.
  - rewrite Hmsg. unfold chat_messages.
    rewrite <- (accepted_ids t), map_map. reflexivity.
Qed.

(** C5, amended.  When the platform answers the block write with an error
    code (a JSON answer whose [code] is not 0), the run goes on.  The write
    went to the document that was created; the run starts the cleanup of the
    gathered files and, unless a [delete] call throws, deletes all of them and
    sends the success reply, whose text ends with the address of that
    document. *)
Theorem C5_refused_write_is_tolerated (env : MoltbotEnv) (message : JsValue)
  (h : list Event) (auth documentId : jsstring) (content : JsValue) (index : Z)
  (res : Response) :
  let t := events (processPdfAndReply parse stringify W env message) h in
  In (EvFetch (AppendBlockRequest auth documentId content index) (Normal res)) t ->
  write_refused parse res = true ->
  exists objs,
    listings t = [objs] /\
    (exists auth' title rr' id,
       In (EvFetch (CreateDocRequest auth' title) rr') t /\
       created parse rr' = Some id /\ documentId = ToString id) /\
    delete_keys t <> [] /\
    Prefix (delete_keys t) (map key (gathered objs)) /\
    (Forall (fun ev => delete_threw ev = false) t ->
     delete_keys t = map key (gathered objs) /\
     exists count : nat,
       In (Text.success_head ++ of_Z (Z.of_nat count) ++ Text.success_mid
           ++ lit "https://feishu.cn/docx/" ++ documentId) (replies t)).
Proof.
  intros t Hin Href.
  pose proof (processPdfAndReply_shape parse stringify W env message h) as Hs.
  fold t in Hs. clearbody t.
  by_steps Hs; in_cases Hin.
  all: try not_in_cleanup Hin.
  all: try not_in_upload Hin.
  all: injection Hin as _ <- _ _ E; subst.
  (* a write that got no readable answer is not a refused one *)
  all: try (unfold write_refused in Href;
            match goal with
            | H : json_of parse _ = None |- _ => rewrite H in Href
            end; discriminate Href).
  all: match goal with
       | HD : Deleted _ _ _ |- _ => pose proof (Deleted_started HD) as Hstart
       end.
  all: exists objs.
  all: split; [facts parse; project; reflexivity|].
  all: split;
    [ eexists _, _, _, _; split; [|split; [eassumption|reflexivity]];
      cbn [app]; do 3 apply in_cons; apply in_or_app; left;
      apply in_or_app; right; apply in_cons; apply in_eq |].
  all: facts parse; project.
  all: split;
    [ apply Hstart; intros Hnil; apply sort_nil_inv in Hnil; contradiction |].
  all: split; [assumption|].
  all: intros Hok; part_of Hok D.
  all: match goal with
       | HD : Deleted _ _ (Normal _) |- _ =>
           destruct (Deleted_normal HD eq_refl) as [Hk _];
           unfold delete_keys in Hk; rewrite Hk;
           split; [reflexivity|];
           eexists; unfold success_text, doc_url; cbn [In]; eauto 6
       | HD : Deleted _ _ (Thrown _) |- _ =>
           exfalso; eapply Forall_false_Exists; [eassumption|];
           eapply Deleted_thrown; [exact HD|reflexivity]
       end.
Qed.

Lemma token_mismatch_spec (env : MoltbotEnv) (v : JsValue) :
  token_mismatch env v = true <->
  configured (FEISHU_VERIFICATION_TOKEN env) = true /\
  v <> env_string (FEISHU_VERIFICATION_TOKEN env).
Proof.
  unfold token_mismatch, configured, env_string.
  destruct (FEISHU_VERIFICATION_TOKEN env) as [[|c s]|].
  - split; [discriminate|intros [H _]; discriminate].
  - rewrite negb_true_iff. split.
    + intros H. split; [reflexivity|]. intros ->.
      simpl in H. rewrite N.eqb_refl, eqb_refl in H. discriminate.
    + intros [_ H]. destruct v; try reflexivity.
      apply eqb_neq. congruence.
  - split; [discriminate|intros [H _]; discriminate].
Qed.

(** C6.  A payload of type [url_verification] is answered with the error
    403 [Invalid token], and not with the challenge, when a verification
    token is configured and the token of the payload is not that one;
    otherwise the answer is the object that holds the challenge of the
    payload, and nothing more.  No background task is started either way. *)
Theorem C6_url_verification (env : MoltbotEnv) (bodyText : jsstring)
  (data : JsValue) :
  parse bodyText = Normal data ->
  own_prop data (lit "type") = VStr (lit "url_verification") ->
  (configured (FEISHU_VERIFICATION_TOKEN env) = true /\
   own_prop data (lit "token") <> env_string (FEISHU_VERIFICATION_TOKEN env) ->
   webhook parse env bodyText
   = (mkReply [(lit "error", VStr (lit "Invalid token"))] 403, [])) /\
  (~ (configured (FEISHU_VERIFICATION_TOKEN env) = true /\
      own_prop data (lit "token") <> env_string (FEISHU_VERIFICATION_TOKEN env)) ->
   webhook parse env bodyText
   = (mkReply [(lit "challenge", own_prop data (lit "challenge"))] 200, [])).
Proof.
  intros Hparse Htype.
  assert (Hobj : nullish data = false) by (destruct data; try discriminate; reflexivity).
  unfold webhook, handle. rewrite Hparse, (get_not_nullish _ _ Hobj).
  cbn [bind_res]. rewrite Htype.
  cbn [strict_eq_str]. rewrite eqb_refl.
  split; intros H.
  - apply token_mismatch_spec in H. now rewrite H.
  - destruct (token_mismatch env (own_prop data (lit "token"))) eqn:E.
    + apply token_mismatch_spec in E. contradiction.
    + reflexivity.
Qed.

(** C7.  The name computed from a storage key drops [chat_] and nothing
    else: the path and the timestamp stay.  For the two files [a.pdf] and
    [b.pdf] of conversation [c1] the title of the report is made of
    [data/c1/100_a.pdf, data/c1/200_b.pdf], not of [a.pdf, b.pdf]. *)
Theorem C7_title_keeps_the_key_path :
  (forall chatId now fileName,
     file_name_of_key (object_key chatId now fileName)
     = lit "data/" ++ ToString chatId ++ lit "/" ++ of_Z now
       ++ lit "_" ++ fileName) /\
  titles (fst (Demo.run (Demo.world Demo.staged [] [] "summary:good" "ok")))
  = [Text.title_prefix ++ lit "data/c1/100_a.pdf, data/c1/200_b.pdf"] /\
  report_title [lit "a.pdf"; lit "b.pdf"]
  = Text.title_prefix ++ lit "a.pdf, b.pdf".
Proof.
  split; [|split].
  - apply file_name_of_object_key.
  - vm_compute. reflexivity.
  - vm_compute. reflexivity.
Qed.

Lemma same_head_before_slash (a b r1 r2 : jsstring) :
  ~ In slash a -> ~ In slash b ->
  a ++ slash :: r1 = b ++ slash :: r2 -> a = b.
Proof.
  revert b; induction a as [|x a IH]; intros [|y b] Ha Hb E; simpl in E.
  - reflexivity.
  - injection E as E _. exfalso. apply Hb. now left.
  - injection E as E _. exfalso. apply Ha. now left.
  - injection E as -> E. f_equal.
    apply IH with (b := b); [| |exact E]; intros Hin; [apply Ha|apply Hb]; now right.
Qed.

Lemma object_key_has_prefix (chatId : JsValue) (now : Z) (fileName : jsstring) :
  startsWith (object_key chatId now fileName) (chat_prefix chatId) = true.
Proof.
  unfold object_key, chat_prefix.
  replace (lit "chat_data/" ++ ToString chatId ++ lit "/" ++ of_Z now
           ++ lit "_" ++ fileName)
    with ((lit "chat_data/" ++ ToString chatId ++ lit "/")
          ++ of_Z now ++ lit "_" ++ fileName)
    by (now rewrite <- !app_assoc).
  apply startsWith_app.
Qed.

Lemma prefix_names_conversation (c c' : JsValue) (now : Z) (fileName : jsstring) :
  ~ In slash (ToString c) -> ~ In slash (ToString c') ->
  startsWith (object_key c' now fileName) (chat_prefix c) = true ->
  ToString c' = ToString c.
Proof.
  intros Hc Hc' H. apply startsWith_inv in H as [rest H].
  unfold object_key, chat_prefix in H. rewrite <- !app_assoc in H.
  apply app_inv_head in H.
  change (lit "/" ++ of_Z now ++ lit "_" ++ fileName)
    with (slash :: of_Z now ++ lit "_" ++ fileName) in H.
  change (lit "/" ++ rest) with (slash :: rest) in H.
  eapply same_head_before_slash; eassumption.
Qed.

(** What the file branch of the handler does with a message. *)
Lemma on_file_message_result (message : JsValue) :
  let contentObj := parse_content parse (own_prop message (lit "content")) in
  let name := own_prop contentObj (lit "file_name") in
  let fileKey := own_prop contentObj (lit "file_key") in
  on_file_message parse message
  = if nullish contentObj then Thrown (cannot_read contentObj (lit "file_name"))
    else if truthy fileKey then
      match attachment_name name with
      | Some fileName =>
          ok_reply
            (if is_pdf_name fileName
             then [SaveFile (own_prop message (lit "message_id")) fileKey fileName
                            (own_prop message (lit "chat_id"))]
             else [])
      | None => Thrown (not_a_function (lit "fileName.toLowerCase"))
      end
    else ok_reply [].
Proof.
  intros contentObj name fileKey.
  unfold on_file_message. fold contentObj. unfold get.
  destruct (nullish contentObj); [reflexivity|].
  cbn [bind_res]. fold name. fold fileKey.
  destruct (truthy fileKey); [|reflexivity].
  destruct name as [| |[|]|z|[|c s]|items|fields]; try reflexivity.
  - unfold or_else, attachment_name. cbn [truthy].
    destruct (Z.eqb z 0); reflexivity.
  - unfold or_else. cbn [truthy attachment_name call_toLowerCase bind_res ToString].
    fold (is_pdf_name (c :: s)). destruct (is_pdf_name (c :: s)); reflexivity.
Qed.

Lemma attachment_name_some (name : JsValue) (fileName : jsstring) :
  attachment_name name = Some fileName <->
  (name = VStr fileName /\ fileName <> []) \/
  (truthy name = false /\ fileName = lit "unknown.pdf").
Proof.
  split.
  - destruct name as [| |[|]|z|[|c s]|items|fields]; cbn [attachment_name truthy];
      try discriminate;
      try (intros [= <-]; right; split; reflexivity).
    + destruct (Z.eqb z 0); [|discriminate].
      intros [= <-]. right. split; reflexivity.
    + intros [= <-]. left. split; [reflexivity|discriminate].
  - intros [[-> Hn]|[Ht ->]].
    + destruct fileName; [now contradiction Hn|reflexivity].
    + destruct name as [| |[|]|z|[|c s]|items|fields]; cbn [attachment_name truthy] in *;
        try discriminate; try reflexivity.
      apply negb_false_iff in Ht. now rewrite Ht.
Qed.

Lemma attachment_name_none (name : JsValue) :
  attachment_name name = None <->
  truthy name = true /\ forall s, name <> VStr s.
Proof.
  split.
  - destruct name as [| |[|]|z|[|c s]|items|fields]; cbn [attachment_name truthy];
      try discriminate;
      try (intros _; split; [reflexivity|discriminate]).
    destruct (Z.eqb z 0); [discriminate|].
    intros _. split; [reflexivity|discriminate].
  - intros [Ht Hs].
    destruct name as [| |[|]|z|[|c s]|items|fields]; cbn [attachment_name truthy] in *;
      try discriminate; try reflexivity.
    + apply negb_true_iff in Ht. now rewrite Ht.
    + now contradiction (Hs (c :: s)).
Qed.

(** A file event reaches the file branch. *)
Lemma handle_file_event (env : MoltbotEnv) (data message : JsValue) :
  file_event env data message ->
  handle parse env data = on_file_message parse message.
Proof.
  intros (Hdata & Htype & Hschema & Hevent & Htoken & Hev & -> & Hmt).
  assert (Hheader : nullish (own_prop data (lit "header")) = false)
    by (destruct (own_prop data (lit "header")); try discriminate; reflexivity).
  assert (Hmsg : nullish (own_prop (own_prop data (lit "event")) (lit "message"))
                 = false)
    by (destruct (own_prop (own_prop data (lit "event")) (lit "message"));
        try discriminate; reflexivity).
  unfold handle.
  rewrite (get_not_nullish _ _ Hdata). cbn [bind_res]. rewrite Htype.
  rewrite Hschema. unfold opt. rewrite Hheader, Hevent.
  cbn [strict_eq_str]. rewrite !eqb_refl. cbn [andb].
  rewrite (get_not_nullish _ _ Hheader). cbn [bind_res]. rewrite Htoken.
  rewrite (get_not_nullish _ _ Hev). cbn [bind_res].
  rewrite (get_not_nullish _ _ Hmsg). cbn [bind_res]. rewrite Hmt.
  reflexivity.
Qed.

(** Every object the stager writes has the key of its conversation, made
    with the time it read from the clock. *)
Lemma stager_keys (env : MoltbotEnv) (messageId fileKey : JsValue)
  (fileName : jsstring) (chatId : JsValue) (h : list Event)
  (k : jsstring) (data : ArrayBuffer) (r : Res unit) :
  In (EvPut k data r)
     (events (downloadAndSaveFeishuFile parse W env messageId fileKey fileName chatId) h) ->
  exists now,
    In (EvNow now)
       (events (downloadAndSaveFeishuFile parse W env messageId fileKey fileName
                  chatId) h) /\
    k = object_key chatId now fileName.
Proof.
  unfold events, downloadAndSaveFeishuFile. unfold_monad.
  destruct (token_run parse W (FEISHU_APP_ID env) (FEISHU_APP_SECRET env) h)
    as (rr & rt & ->).
  destruct rt as [feishuToken|e]; cbv beta iota zeta.
  2: { cbn [fst app]. intros [H|[]]. discriminate. }
  repeat (first
    [ match goal with
      | |- context [replyFeishuMessage parse W ?t ?m ?c ?ty ?h'] =>
          destruct (reply_run parse W t m c ty h') as (? & ? & ->)
      end
    | next_case ]; cbv beta iota zeta).
  all: cbn [fst app]; intros Hin; in_cases Hin.
  all: injection Hin as <- _ _; eexists; (split; [|reflexivity]).
  all: cbn [In]; auto.
Qed.

(** C8, amended.  For a file event that passed the token check, with the
    content of its message parsed as JSON, and taken as [{}] when it does
    not parse, the handler hands the attachment to the stager exactly when
    the content is not [null], carries a file key, and its file name ends in
    [.pdf] without regard to case; the name is the string at [file_name], and
    [unknown.pdf] when there is none.  The webhook answers 500, and stages
    nothing, when the content is [null] and when a file key comes with a
    name that is no string; every other attachment gets the plain success
    answer and no task.  The stager writes under
    [chat_data/{chat}/{now}_{name}], with the time it read from the clock: a
    key under the prefix of its conversation; between conversations whose ids
    hold no [/], a key of one is under the prefix of no other. *)
Theorem C8_staging_amended :
  (forall env bodyText data message contentObj,
     let name := own_prop contentObj (lit "file_name") in
     let fileKey := own_prop contentObj (lit "file_key") in
     let broken :=
       nullish contentObj = true \/
       (truthy fileKey = true /\ truthy name = true /\ forall s, name <> VStr s) in
     parse bodyText = Normal data ->
     file_event env data message ->
     (parse (ToString (own_prop message (lit "content"))) = Normal contentObj \/
      ((exists e, parse (ToString (own_prop message (lit "content"))) = Thrown e) /\
       contentObj = VObj [])) ->
     (forall task,
        In task (snd (webhook parse env bodyText)) <->
        nullish contentObj = false /\
        truthy fileKey = true /\
        exists fileName,
          ((name = VStr fileName /\ fileName <> []) \/
           (truthy name = false /\ fileName = lit "unknown.pdf")) /\
          ends_in_pdf fileName /\
          task = SaveFile (own_prop message (lit "message_id")) fileKey fileName
                          (own_prop message (lit "chat_id"))) /\
     (broken ->
      webhook parse env bodyText
      = (mkReply [(lit "error", VStr (lit "Internal server error"))] 500, [])) /\
     (~ broken ->
      fst (webhook parse env bodyText) = mkReply [(lit "ok", VBool true)] 200)) /\
  (forall env messageId fileKey fileName chatId h k data r,
     let t := events (downloadAndSaveFeishuFile parse W env messageId fileKey
                        fileName chatId) h in
     In (EvPut k data r) t ->
     (exists now,
        In (EvNow now) t /\
        k = lit "chat_data/" ++ ToString chatId ++ lit "/" ++ of_Z now
            ++ lit "_" ++ fileName) /\
     startsWith k (lit "chat_data/" ++ ToString chatId ++ lit "/") = true) /\
  (forall c c' now fileName,
     ~ In slash (ToString c) -> ~ In slash (ToString c') ->
     startsWith (lit "chat_data/" ++ ToString c' ++ lit "/" ++ of_Z now
                 ++ lit "_" ++ fileName)
                (lit "chat_data/" ++ ToString c ++ lit "/") = true ->
     ToString c' = ToString c).
Proof.
  split; [|split].
  - intros env bodyText data message contentObj name fileKey broken Hparse Hev Hc.
    assert (Hcontent : parse_content parse (own_prop message (lit "content"))
                       = contentObj).
    { unfold parse_content. destruct Hc as [->|[[e ->] ->]]; reflexivity. }
    unfold webhook. rewrite Hparse, (handle_file_event Hev).
    rewrite on_file_message_result, Hcontent. fold name fileKey.
    destruct (nullish contentObj) eqn:Hnull.
    { split; [|split].
      - intros task. split; [intros []|intros [[=] _]].
      - reflexivity.
      - intros Hnot. contradiction Hnot. now left. }
    destruct (truthy fileKey) eqn:Hk.
    2: { split; [|split].
         - intros task. split; [intros []|intros (_ & [=] & _)].
         - intros [[=]|([=] & _)].
         - reflexivity. }
    destruct (attachment_name name) as [fileName|] eqn:Hname.
    + apply attachment_name_some in Hname.
      assert (Hstr : ~ (truthy name = true /\ forall s, name <> VStr s)).
      { intros [Ht Hs]. destruct Hname as [[E _]|[E _]]; [now apply Hs in E|congruence]. }
      split; [|split].
      * intros task. cbn [ok_reply json_reply snd]. split.
        -- destruct (is_pdf_name fileName) eqn:Hpdf; [|intros []].
           intros [<-|[]]. repeat split.
           exists fileName. split; [exact Hname|]. split; [|reflexivity].
           now apply is_pdf_name_spec.
        -- intros (_ & _ & fileName' & Hname' & Hpdf & ->).
           assert (fileName' = fileName).
           { destruct Hname as [[E Hn]|[E ->]], Hname' as [[E' Hn']|[E' ->]];
               try congruence.
             - rewrite E in E'. cbn [truthy] in E'.
               destruct fileName; [now contradiction Hn|discriminate].
             - rewrite E' in E. cbn [truthy] in E.
               destruct fileName'; [now contradiction Hn'|discriminate]. }
           subst fileName'. apply is_pdf_name_spec in Hpdf. rewrite Hpdf. now left.
      * intros [[=]|(_ & Hbad)]. contradiction.
      * reflexivity.
    + apply attachment_name_none in Hname.
      split; [|split].
      * intros task. split; [intros []|].
        intros (_ & _ & fileName & [[E _]|[E _]] & _).
        -- destruct Hname as [_ Hs]. now apply Hs in E.
        -- destruct Hname. congruence.
      * reflexivity.
      * intros Hnot. contradiction Hnot. right. split; [reflexivity|exact Hname].
  - intros env messageId fileKey fileName chatId h k data r t Hin.
    apply stager_keys in Hin as (now & Hnow & ->).
    split; [exists now; split; [exact Hnow|reflexivity]|].
    apply object_key_has_prefix.
  - intros c c' now fileName. apply prefix_names_conversation.
Qed.

(** C9, amended.  When the summarization response is ok and its body is
    JSON other than [null] that holds nothing at [choices[0].message.content]
    (or anything falsy), the run does not fail there: it asks for the
    document; the text it writes is the placeholder, written to the document
    once created; and when that write is answered and no [delete] call
    throws, it sends the success reply, whose text ends with the address of
    that document. *)
Theorem C9_missing_summary_is_replaced (env : MoltbotEnv) (message : JsValue)
  (h : list Event) (auth model : jsstring)
  (messages : list (jsstring * jsstring)) (rr : Res Response) (text : JsValue) :
  let t := events (processPdfAndReply parse stringify W env message) h in
  In (EvFetch (ChatRequest auth model messages) rr) t ->
  generated_text parse rr = Some text ->
  truthy text = false ->
  titles t <> [] /\
  (forall id content, In (id, content) (appended t) ->
     content = VStr Text.summary_placeholder) /\
  (forall auth' title rr' documentId,
     In (EvFetch (CreateDocRequest auth' title) rr') t ->
     created parse rr' = Some documentId ->
     appended t = [(ToString documentId, VStr Text.summary_placeholder)] /\
     (Forall (fun ev => write_answered parse ev = true) t ->
      Forall (fun ev => delete_threw ev = false) t ->
      exists count : nat,
        In (Text.success_head ++ of_Z (Z.of_nat count) ++ Text.success_mid
            ++ lit "https://feishu.cn/docx/" ++ ToString documentId)
           (replies t))).
Proof.
  intros t Hin Htext Hfalsy.
  pose proof (processPdfAndReply_shape parse stringify W env message h) as Hs.
  fold t in Hs. clearbody t.
  by_steps Hs; in_cases Hin.
  all: try not_in_cleanup Hin.
  all: try not_in_upload Hin.
  all: injection Hin as _ _ _ E; subst.
  all: try congruence.
  all: match goal with
       | H : generated_text parse ?r = Some ?x |- _ =>
           rewrite Htext in H; injection H as <-
       end.
  all: try (unfold summary_of, or_else; rewrite Hfalsy).
  all: split; [facts parse; project; discriminate|].
  all: split;
    [ intros id content Hc; facts parse; project; revert Hc; project;
      cbn [In]; intros Hc;
      repeat destruct Hc as [Hc|Hc]; try contradiction; congruence |].
  all: intros auth' title created_rr documentId' Hcr Hid.
  all: in_cases Hcr.
  all: try not_in_cleanup Hcr.
  all: try not_in_upload Hcr.
  all: injection Hcr as _ _ E; subst.
  all: try congruence.
  all: match goal with
       | H : created parse ?r = Some ?x |- _ =>
           rewrite Hid in H; injection H as <-
       end.
  all: facts parse; project.
  all: split; [reflexivity|].
  all: intros Hans Hok.
  all: try match goal with
       | Hw : match ?r with Normal _ => _ | Thrown _ => True end |- _ =>
           exfalso; unfold append_event in Hans;
           rewrite Forall_forall in Hans;
           match type of Hans with
           | context [EvFetch (AppendBlockRequest ?a ?i ?c ?x) r] =>
               specialize (Hans (EvFetch (AppendBlockRequest a i c x) r))
           end;
           cbn [write_answered] in Hans;
           destruct r; [rewrite Hw in Hans|];
           (apply Bool.diff_false_true, Hans;
            repeat first [progress cbn [In] | rewrite in_app_iff]; tauto)
       end.
  all: part_of Hok D.
  all: match goal with
       | HD : Deleted _ _ (Normal _) |- _ =>
           eexists; unfold success_text, doc_url; cbn [In]; eauto 6
       | HD : Deleted _ _ (Thrown _) |- _ =>
           exfalso; eapply Forall_false_Exists; [eassumption|];
           eapply Deleted_thrown; [exact HD|reflexivity]
       end.
Qed.

(** C10.  When the bucket gives no object for a listed key, the run goes on
    with the next file, or with the summarization when it was the last.  The
    file takes no part in what follows: the uploads, the ids of the
    summarization request, the title and the count of the success reply are
    those of the objects that were fetched.  A run that reaches the success
    reply has deleted every key it asked for, this one included. *)
Theorem C10_missing_object_is_skipped (env : MoltbotEnv) (message : JsValue)
  (h : list Event) (k : jsstring) :
  let t := events (processPdfAndReply parse stringify W env message) h in
  In (EvGet k (Normal None)) t ->
  (forall before after,
     t = before ++ EvGet k (Normal None) :: after ->
     exists ev after',
       after = ev :: after' /\
       match ev with
       | EvGet _ _ | EvFetch (ChatRequest _ _ _) _ => True
       | _ => False
       end) /\
  upload_names t = map file_name_of_key (fetched_keys t) /\
  (forall messages,
     In messages (chat_requests t) ->
     messages = chat_messages (upload_ids parse t) /\
     List.length (upload_ids parse t) = List.length (fetched_keys t)) /\
  (forall title,
     In title (titles t) ->
     title = report_title (map file_name_of_key (fetched_keys t))) /\
  (forall text,
     In text (replies t) -> startsWith text Text.success_head = true ->
     (exists url, text = success_text (List.length (fetched_keys t)) url) /\
     delete_keys t = get_keys t /\
     In k (delete_keys t)).
Proof.
  intros t Hin.
  pose proof (processPdfAndReply_shape parse stringify W env message h) as Hs.
  fold t in Hs. clearbody t.
  by_steps Hs; in_cases Hin.
  all: try not_in_cleanup Hin.
  all: pose proof (in_pick (fun ev => match ev with
                                      | EvGet k _ => Some k
                                      | _ => None
                                      end) _ _ Hin eq_refl) as Hasked.
  all: fold get_keys in Hasked.
  all: facts parse.
  all: split;
    [ intros before after E;
      first [rewrite regroup_later in E | rewrite regroup_upload in E];
      eapply located_missing in E;
      [ exact E | eassumption | all_along | all_along
      | intros ? Hr; try discriminate Hr; unfold chat_event; cbn [app];
        repeat eexists ]
    | ].
  all: split; [project; reflexivity|].
  all: project.
  all: split;
    [ intros messages Hm; repeat destruct Hm as [Hm|Hm]; try contradiction;
      (subst; cbn [app]; split; [reflexivity|assumption]) |].
  all: split;
    [ intros title Hm; repeat destruct Hm as [Hm|Hm]; try contradiction;
      subst; reflexivity |].
  all: intros reply Hm Hhead.
  all: repeat destruct Hm as [Hm|Hm]; try contradiction; subst reply.
  all: try (rewrite success_is_not_processing in Hhead; discriminate Hhead).
  all: try (rewrite success_is_not_failure in Hhead; discriminate Hhead).
  all: match goal with
       | HD : Deleted _ _ (Normal _) |- _ =>
           destruct (Deleted_normal HD eq_refl) as [Hk _];
           unfold delete_keys in Hk; rewrite Hk
       end.
  all: match goal with
       | Hg : pick _ _ = map key (gathered _) |- _ => rewrite Hg in Hasked
       end.
  all: split; [|split; [reflexivity|assumption]].
  all: eexists; subst fileNames; cbn [app]; rewrite length_map; reflexivity.
Qed.

End Claims.

(* ================================================================== *)
(** * The properties at work in the demo world *)
(* ================================================================== *)

Ltac found := vm_compute; repeat (first [left; reflexivity | right]).

(** In the demo world, the run deletes the two files it gathered, after
    the block write was answered. *)
Example cleanup_deletes_the_gathered_files :
  let t := Demo.trace Demo.calm in
  Exists (fun ev => written Demo.parse ev = true) t /\
  delete_keys t = [lit "chat_data/c1/100_a.pdf"; lit "chat_data/c1/200_b.pdf"] /\
  forall b,
    store_after t b (lit "chat_data/c1/100_a.pdf") = None /\
    store_after t b (lit "chat_data/c1/150_notes.txt")
    = b (lit "chat_data/c1/150_notes.txt").
Proof.
  cbv zeta. split; [|split; [reflexivity|intros b; split; reflexivity]].
  apply Exists_exists.
  exists (EvFetch (AppendBlockRequest Demo.doc_authorization (lit "D1")
                     (VStr (lit "good")) (-1)) (Demo.answer "ok")).
  split; [found|reflexivity].
Qed.

(** The same trace with its [delete] calls left out is not what the
    specification asks for. *)
Example cleanup_without_deletions_is_refused :
  ~ cleanup_is_safe Demo.parse
      (filter (fun ev => negb (deletion ev)) (Demo.trace Demo.calm)).
Proof.
  intros (_ & Hdel & _).
  destruct Hdel as (objs & _ & Hsome & _).
  - apply Exists_exists.
    exists (EvFetch (AppendBlockRequest Demo.doc_authorization (lit "D1")
                       (VStr (lit "good")) (-1)) (Demo.answer "ok")).
    split; [found|reflexivity].
  - apply Hsome. reflexivity.
Qed.

(** C2 as the specification words it fails, at two inputs.  An upload
    answered 200 with the body [null] holds no file id: the run stops with
    the TypeError of the read of [id], and no reply names the file.  And when
    the text of an upload answered 400 cannot be read, the reply carries the
    error of that read. *)
Lemma C2_counterexample :
  (let t := Demo.trace (Demo.uploads_answered (Demo.answer "null") Demo.calm) in
   let res := mkResponse true 200 (lit "OK") (Normal (lit "null")) (Normal []) in
   In (EvFetch (FileUploadRequest Demo.api_authorization (lit "data/c1/100_a.pdf")
                  Demo.pdf_bytes (lit "file-extract")) (Normal res)) t /\
   upload_id Demo.parse (Normal res) = None /\
   replies t
   = [Text.processing;
      Text.failure_head ++ lit "Cannot read properties of null (reading 'id')"] /\
   Forall (fun text => includes text (lit "a.pdf") = false) (replies t)) /\
  (let res := mkResponse false 400 (lit "Bad Request")
                (Thrown (Err (lit "body stream error"))) (Normal []) in
   let t := Demo.trace (Demo.uploads_answered (Normal res) Demo.calm) in
   In (EvFetch (FileUploadRequest Demo.api_authorization (lit "data/c1/100_a.pdf")
                  Demo.pdf_bytes (lit "file-extract")) (Normal res)) t /\
   replies t = [Text.processing; Text.failure_head ++ lit "body stream error"] /\
   Forall (fun text => includes text (lit "a.pdf") = false) (replies t)).
Proof.
  split; cbv zeta; repeat split; try reflexivity; try found.
  all: vm_compute; repeat constructor.
Qed.

(** C2, amended, applies: the upload of [b.pdf] is refused with 400, after
    the upload of [a.pdf] went through. *)
Lemma C2_witness :
  let t := Demo.trace Demo.upload_of_b_refused in
  let res := mkResponse false 400 (lit "Bad Request") (Normal (lit "too large"))
               (Normal []) in
  let upload := EvFetch (FileUploadRequest Demo.api_authorization
                           (lit "data/c1/200_b.pdf") Demo.pdf_bytes
                           (lit "file-extract")) (Normal res) in
  In upload t /\
  upload_id Demo.parse (Normal res) = None /\
  upload_refused Demo.parse res = true /\
  Forall (fun ev => summarize_or_later ev = false) t /\
  (forall b, store_after t b = b) /\
  exists before auth messageId text msgType rr,
    t = before ++ [upload; EvFetch (ReplyRequest auth messageId text msgType) rr] /\
    startsWith text Text.failure_head = true /\
    includes text (lit "data/c1/200_b.pdf") = true /\
    includes text (lit "b.pdf") = true.
Proof.
  intros t res upload.
  assert (Hin : In upload t) by found.
  assert (Hid : upload_id Demo.parse (Normal res) = None) by reflexivity.
  assert (Href : upload_refused Demo.parse res = true) by reflexivity.
  split; [exact Hin|]. split; [exact Hid|]. split; [exact Href|].
  destruct (@C2_failed_upload_aborts Demo.parse Demo.stringify
              Demo.upload_of_b_refused Demo.env Demo.message [] _ _ _ _ _
              Hin Hid)
    as (Hquiet & Hstore & before & auth & mid & text & ty & rr & Ht & Hhead & Hname).
  split; [exact Hquiet|]. split; [exact Hstore|].
  exists before, auth, mid, text, ty, rr.
  split; [exact Ht|]. split; [exact Hhead|].
  destruct (Hname res eq_refl Href) as [Hfile Horiginal].
  split; [exact Hfile|].
  exact (Horiginal (VStr (lit "c1")) 200%Z (lit "b.pdf") eq_refl).
Defined.


(** C4 applies: [b.pdf] (uploaded at 200) is listed before [a.pdf]
    (uploaded at 100), and the request names the id of [a.pdf] first. *)
Lemma C4_witness :
  let t := Demo.trace Demo.calm in
  let messages :=
    [(lit "system", Text.system_prompt);
     (lit "system", lit "fileid://file-data/c1/100_a.pdf");
     (lit "system", lit "fileid://file-data/c1/200_b.pdf");
     (lit "user", Text.user_prompt)] in
  In (EvFetch (ChatRequest Demo.api_authorization (lit "qwen-long") messages)
        (Demo.answer "summary:good")) t /\
  listings t = [[Demo.b_pdf; Demo.notes; Demo.a_pdf]] /\
  accepted Demo.parse t
  = [(lit "data/c1/100_a.pdf", VStr (lit "file-data/c1/100_a.pdf"));
     (lit "data/c1/200_b.pdf", VStr (lit "file-data/c1/200_b.pdf"))] /\
  exists objs files,
    listings t = [objs] /\
    Permutation (gathered objs) (filter (fun o => is_pdf_name (key o)) objs) /\
    oldest_first (gathered objs) /\
    get_keys t = map key (gathered objs) /\
    Subseq files (gathered objs) /\
    oldest_first files /\
    fetched_keys t = map key files /\
    map fst (accepted Demo.parse t)
    = map (fun f => file_name_of_key (key f)) files /\
    messages
    = (lit "system", Text.system_prompt)
      :: map (fun upload => (lit "system", lit "fileid://" ++ ToString (snd upload)))
           (accepted Demo.parse t)
      ++ [(lit "user", Text.user_prompt)].
Proof.
  intros t messages.
  assert (Hin : In (EvFetch (ChatRequest Demo.api_authorization (lit "qwen-long")
                               messages) (Demo.answer "summary:good")) t)
    by found.
  split; [exact Hin|]. split; [reflexivity|]. split; [reflexivity|].
  exact (@C4_ids_oldest_first Demo.parse Demo.stringify Demo.calm Demo.env
           Demo.message [] _ _ _ _ Hin).
Defined.

(** C5 as the specification words it fails, at two inputs.  When the
    request of the block write does not get through, the run aborts: nothing
    is deleted and the conversation gets the failure reply.  And when the
    write is refused and the bucket then fails to delete, no success reply is
    sent. *)
Lemma C5_counterexample :
  (let t := Demo.trace (Demo.failing_write Demo.calm) in
   In (EvFetch (AppendBlockRequest Demo.doc_authorization (lit "D1")
                  (VStr (lit "good")) (-1))
         (Thrown (Err (lit "fetch failed")))) t /\
   delete_keys t = [] /\
   replies t = [Text.processing; Text.failure_head ++ lit "fetch failed"]) /\
  (let t := Demo.trace (Demo.failing_delete Demo.write_refused_world) in
   let res := mkResponse true 200 (lit "OK") (Normal (lit "refused")) (Normal []) in
   In (EvFetch (AppendBlockRequest Demo.doc_authorization (lit "D1")
                  (VStr (lit "good")) (-1)) (Normal res)) t /\
   write_refused Demo.parse res = true /\
   replies t = [Text.processing; Text.failure_head ++ lit "bucket unavailable"]).
Proof.
  split; cbv zeta; repeat split; try reflexivity; found.
Qed.

(** C5, amended, applies: the block write is answered with an error code;
    both files are deleted and the reply ends with the address of [D1]. *)
Lemma C5_witness :
  let t := Demo.trace Demo.write_refused_world in
  let res := mkResponse true 200 (lit "OK") (Normal (lit "refused")) (Normal []) in
  In (EvFetch (AppendBlockRequest Demo.doc_authorization (lit "D1")
                 (VStr (lit "good")) (-1)) (Normal res)) t /\
  write_refused Demo.parse res = true /\
  Forall (fun ev => delete_threw ev = false) t /\
  delete_keys t = [lit "chat_data/c1/100_a.pdf"; lit "chat_data/c1/200_b.pdf"] /\
  replies t
  = [Text.processing;
     Text.success_head ++ lit "2" ++ Text.success_mid
     ++ lit "https://feishu.cn/docx/D1"] /\
  exists count : nat,
    In (Text.success_head ++ of_Z (Z.of_nat count) ++ Text.success_mid
        ++ lit "https://feishu.cn/docx/" ++ lit "D1") (replies t).
Proof.
  intros t res.
  assert (Hin : In (EvFetch (AppendBlockRequest Demo.doc_authorization (lit "D1")
                               (VStr (lit "good")) (-1)) (Normal res)) t)
    by found.
  assert (Href : write_refused Demo.parse res = true) by reflexivity.
  assert (Hok : Forall (fun ev => delete_threw ev = false) t)
    by (vm_compute; repeat constructor).
  split; [exact Hin|]. split; [exact Href|]. split; [exact Hok|].
  destruct (@C5_refused_write_is_tolerated Demo.parse Demo.stringify
              Demo.write_refused_world Demo.env Demo.message [] _ _ _ _ _
              Hin Href) as (objs & _ & _ & _ & _ & Hall).
  destruct (Hall Hok) as [_ Hlinked].
  split; [reflexivity|]. split; [reflexivity|exact Hlinked].
Defined.

(** C6 applies: the right token and the challenge [abc123]. *)
Lemma C6_witness :
  let data := VObj [(lit "type", VStr (lit "url_verification"));
                    (lit "token", VStr (lit "vtoken"));
                    (lit "challenge", VStr (lit "abc123"))] in
  Demo.parse (lit "verify:vtoken") = Normal data /\
  own_prop data (lit "type") = VStr (lit "url_verification") /\
  webhook Demo.parse Demo.env (lit "verify:vtoken")
  = (mkReply [(lit "challenge", VStr (lit "abc123"))] 200, []).
Proof.
  intros data.
  assert (Hparse : Demo.parse (lit "verify:vtoken") = Normal data) by reflexivity.
  assert (Htype : own_prop data (lit "type") = VStr (lit "url_verification"))
    by reflexivity.
  split; [exact Hparse|]. split; [exact Htype|].
  apply (proj2 (@C6_url_verification Demo.parse Demo.env _ _ Hparse Htype)).
  intros [_ Hdiff]. apply Hdiff. reflexivity.
Defined.

(** With a wrong token the same payload is rejected. *)
Example url_verification_rejected :
  webhook Demo.parse Demo.env (lit "verify:guess")
  = (mkReply [(lit "error", VStr (lit "Invalid token"))] 403, []).
Proof. reflexivity. Qed.

(** C9 as the specification words it fails: a summarization answered 200
    with the body [null] holds nothing at [choices[0].message.content], and
    the run fails on the read of [choices]; no document is asked for. *)
Lemma C9_counterexample :
  let t := Demo.trace Demo.summary_is_null in
  let res := mkResponse true 200 (lit "OK") (Normal (lit "null")) (Normal []) in
  In (EvFetch (ChatRequest Demo.api_authorization (lit "qwen-long")
                 [(lit "system", Text.system_prompt);
                  (lit "system", lit "fileid://file-data/c1/100_a.pdf");
                  (lit "system", lit "fileid://file-data/c1/200_b.pdf");
                  (lit "user", Text.user_prompt)]) (Normal res)) t /\
  Demo.parse (lit "null") = Normal VNull /\
  titles t = [] /\
  appended t = [] /\
  delete_keys t = [] /\
  replies t
  = [Text.processing;
     Text.failure_head ++ lit "Cannot read properties of null (reading 'choices')"].
Proof.
  cbv zeta; repeat split; try reflexivity; found.
Qed.

(** C9, amended, applies: the summarization answers [{}]. *)
Lemma C9_witness :
  let t := Demo.trace Demo.no_summary in
  let rr := Demo.answer "{}" in
  In (EvFetch (ChatRequest Demo.api_authorization (lit "qwen-long")
                 (chat_messages [VStr (lit "file-data/c1/100_a.pdf");
                                 VStr (lit "file-data/c1/200_b.pdf")])) rr) t /\
  generated_text Demo.parse rr = Some VUndef /\
  truthy VUndef = false /\
  appended t = [(lit "D1", VStr Text.summary_placeholder)] /\
  replies t
  = [Text.processing;
     Text.success_head ++ lit "2" ++ Text.success_mid
     ++ lit "https://feishu.cn/docx/D1"] /\
  exists count : nat,
    In (Text.success_head ++ of_Z (Z.of_nat count) ++ Text.success_mid
        ++ lit "https://feishu.cn/docx/" ++ lit "D1") (replies t).
Proof.
  intros t rr.
  assert (Hin : In (EvFetch (ChatRequest Demo.api_authorization (lit "qwen-long")
                               (chat_messages [VStr (lit "file-data/c1/100_a.pdf");
                                               VStr (lit "file-data/c1/200_b.pdf")]))
                       rr) t) by found.
  assert (Htext : generated_text Demo.parse rr = Some VUndef) by reflexivity.
  assert (Hfalsy : truthy VUndef = false) by reflexivity.
  split; [exact Hin|]. split; [exact Htext|]. split; [exact Hfalsy|].
  destruct (@C9_missing_summary_is_replaced Demo.parse Demo.stringify
              Demo.no_summary Demo.env Demo.message [] _ _ _ _ _
              Hin Htext Hfalsy) as (_ & _ & Hdoc).
  assert (Hcreate : In (EvFetch (CreateDocRequest Demo.doc_authorization
                                   (report_title [lit "data/c1/100_a.pdf";
                                                  lit "data/c1/200_b.pdf"]))
                          (Demo.answer "doc:D1")) t) by found.
  destruct (Hdoc _ _ _ (VStr (lit "D1")) Hcreate eq_refl) as [Hwritten Hlinked].
  split; [exact Hwritten|]. split; [reflexivity|].
  apply Hlinked; vm_compute; repeat constructor.
Defined.

(** C10 applies: the object of [a.pdf] is gone; [b.pdf] alone is uploaded
    and counted, and both keys are deleted. *)
Lemma C10_witness :
  let t := Demo.trace Demo.a_is_gone in
  In (EvGet (lit "chat_data/c1/100_a.pdf") (Normal None)) t /\
  upload_names t = [lit "data/c1/200_b.pdf"] /\
  In (success_text 1 (lit "https://feishu.cn/docx/D1")) (replies t) /\
  delete_keys t = get_keys t /\
  In (lit "chat_data/c1/100_a.pdf") (delete_keys t).
Proof.
  intros t.
  assert (Hin : In (EvGet (lit "chat_data/c1/100_a.pdf") (Normal None)) t)
    by found.
  assert (Hreply : In (success_text 1 (lit "https://feishu.cn/docx/D1"))
                      (replies t)) by found.
  split; [exact Hin|]. split; [reflexivity|]. split; [exact Hreply|].
  destruct (@C10_missing_object_is_skipped Demo.parse Demo.stringify
              Demo.a_is_gone Demo.env Demo.message [] _ Hin)
    as (_ & _ & _ & _ & Hdone).
  destruct (Hdone _ Hreply eq_refl) as (_ & Hkeys & Hdel).
  split; assumption.
Defined.

(** C8 as the specification words it fails, at five inputs: an attachment
    named [a.pdf] whose message carries no file key is not staged; an
    attachment whose message gives a file key and no name is staged, as
    [unknown.pdf]; an attachment with a file key and the number 123 for a
    name, and one whose content is [null], are answered 500; and the prefix
    of conversation [a] also lists what was staged for conversation [a/b]. *)
Lemma C8_counterexample :
  (ends_in_pdf (lit "a.pdf") /\
   webhook Demo.parse Demo.env (lit "file-event:name-only:a.pdf")
   = (mkReply [(lit "ok", VBool true)] 200, [])) /\
  (Demo.parse (lit "key-only") = Normal (VObj [(lit "file_key", VStr (lit "file_v2_1"))]) /\
   webhook Demo.parse Demo.env (lit "file-event:key-only")
   = (mkReply [(lit "ok", VBool true)] 200,
      [SaveFile (VStr (lit "om_2")) (VStr (lit "file_v2_1")) (lit "unknown.pdf")
                (VStr (lit "c1"))])) /\
  (Demo.parse (lit "numbered")
   = Normal (VObj [(lit "file_name", VNum 123);
                   (lit "file_key", VStr (lit "file_v2_1"))]) /\
   webhook Demo.parse Demo.env (lit "file-event:numbered")
   = (mkReply [(lit "error", VStr (lit "Internal server error"))] 500, [])) /\
  (Demo.parse (lit "null") = Normal VNull /\
   webhook Demo.parse Demo.env (lit "file-event:null")
   = (mkReply [(lit "error", VStr (lit "Internal server error"))] 500, [])) /\
  (startsWith (lit "chat_data/a/b/100_x.pdf") (lit "chat_data/a/") = true /\
   object_key (VStr (lit "a/b")) 100 (lit "x.pdf") = lit "chat_data/a/b/100_x.pdf" /\
   chat_prefix (VStr (lit "a")) = lit "chat_data/a/").
Proof.
  repeat split; try reflexivity.
  apply is_pdf_name_spec. reflexivity.
Qed.

(** C8, amended, applies: [Report.PDF] comes with a file key and is
    staged, and nothing else is. *)
Lemma C8_witness :
  let bodyText := lit "file-event:attachment:Report.PDF" in
  let data := Demo.file_event_data (lit "attachment:Report.PDF") in
  let message := own_prop (own_prop data (lit "event")) (lit "message") in
  let task := SaveFile (VStr (lit "om_2")) (VStr (lit "file_v2_1"))
                       (lit "Report.PDF") (VStr (lit "c1")) in
  Demo.parse bodyText = Normal data /\
  file_event Demo.env data message /\
  ends_in_pdf (lit "Report.PDF") /\
  In task (snd (webhook Demo.parse Demo.env bodyText)) /\
  fst (webhook Demo.parse Demo.env bodyText) = mkReply [(lit "ok", VBool true)] 200.
Proof.
  intros bodyText data message task.
  assert (Hparse : Demo.parse bodyText = Normal data) by reflexivity.
  assert (Hev : file_event Demo.env data message) by (repeat split; reflexivity).
  assert (Hpdf : ends_in_pdf (lit "Report.PDF"))
    by (apply is_pdf_name_spec; reflexivity).
  split; [exact Hparse|]. split; [exact Hev|]. split; [exact Hpdf|].
  destruct (proj1 (@C8_staging_amended Demo.parse Demo.calm)
              Demo.env bodyText data message
              (VObj [(lit "file_name", VStr (lit "Report.PDF"));
                     (lit "file_key", VStr (lit "file_v2_1"))])
              Hparse Hev (or_introl eq_refl)) as (Htasks & _ & Hok).
  split.
  - apply Htasks. split; [reflexivity|]. split; [reflexivity|].
    exists (lit "Report.PDF"). split; [|split; [exact Hpdf|reflexivity]].
    left. split; [reflexivity|discriminate].
  - apply Hok. intros [Hnull|(_ & _ & Hs)]; [discriminate Hnull|].
    exact (Hs (lit "Report.PDF") eq_refl).
Defined.

(** Runs of the pure parts. *)
Example name_of_a_staged_key :
  file_name_of_key (lit "chat_data/c1/100_a.pdf") = lit "data/c1/100_a.pdf".
Proof. reflexivity. Qed.

Example name_of_a_key_without_underscore :
  file_name_of_key (lit "report.pdf") = lit "file.pdf".
Proof. reflexivity. Qed.

Example staged_files_oldest_first :
  gathered Demo.staged = [Demo.a_pdf; Demo.b_pdf].
Proof. reflexivity. Qed.

Example long_title_is_capped :
  report_title [lit "data/c1/1700000000000_annual-report-2023.pdf";
                lit "data/c1/1700000000001_contract.pdf"]
  = Text.title_prefix
    ++ lit "data/c1/1700000000000_annual-report-2023.pdf, data" ++ lit "...".
Proof. reflexivity. Qed.

Example extension_ignores_case :
  is_pdf_name (lit "Report.PDF") = true /\ is_pdf_name (lit "notes.pdf.txt") = false.
Proof. split; reflexivity. Qed.

(** The same attachment with its file key is staged. *)
Example attachment_staged :
  webhook Demo.parse Demo.env (lit "file-event:attachment:Report.PDF")
  = (mkReply [(lit "ok", VBool true)] 200,
     [SaveFile (VStr (lit "om_2")) (VStr (lit "file_v2_1")) (lit "Report.PDF")
               (VStr (lit "c1"))]).
Proof. reflexivity. Qed.

(* ================================================================== *)
(** * Further properties: the webhook *)
(* ================================================================== *)

Lemma strict_eq_str_true (v : JsValue) (s : jsstring) :
  strict_eq_str v s = true <-> v = VStr s.
Proof.
  destruct v; simpl; split; try congruence.
  - intros H. apply eqb_eq in H. now subst.
  - intros [= ->]. apply eqb_refl.
Qed.

Lemma strict_eq_str_false (v : JsValue) (s : jsstring) :
  strict_eq_str v s = false <-> v <> VStr s.
Proof.
  split.
  - intros H E. apply strict_eq_str_true in E. congruence.
  - intros H. destruct (strict_eq_str v s) eqn:E; [|reflexivity].
    apply strict_eq_str_true in E. contradiction.
Qed.

Lemma token_mismatch_true (env : MoltbotEnv) (v : JsValue) :
  token_mismatch env v = true <->
  exists tok, FEISHU_VERIFICATION_TOKEN env = Some tok /\ tok <> [] /\ v <> VStr tok.
Proof.
  unfold token_mismatch.
  destruct (FEISHU_VERIFICATION_TOKEN env) as [[|c t]|]; split;
    try discriminate.
  - intros (tok & [= <-] & H & _). now contradiction H.
  - intros H. apply negb_true_iff, strict_eq_str_false in H.
    exists (c :: t). repeat split; [discriminate|assumption].
  - intros (tok & [= <-] & _ & H). now apply negb_true_iff, strict_eq_str_false.
  - intros (tok & [=] & _).
Qed.

Section Hook.

Variable parse : jsstring -> Res JsValue.

(** What the text and the file branch answer. *)
Lemma on_text_message_cases (message : JsValue) :
  on_text_message parse message = ok_reply [ProcessPdf message] \/
  on_text_message parse message = ok_reply [] \/
  exists e, on_text_message parse message = Thrown e.
Proof.
  unfold on_text_message, bind_res. repeat next_case; eauto.
Qed.

Lemma on_file_message_cases (message : JsValue) :
  (exists fileKey fileName,
     on_file_message parse message
     = ok_reply [SaveFile (own_prop message (lit "message_id")) fileKey fileName
                          (own_prop message (lit "chat_id"))] /\
     truthy fileKey = true /\ is_pdf_name fileName = true) \/
  on_file_message parse message = ok_reply [] \/
  exists e, on_file_message parse message = Thrown e.
Proof.
  unfold on_file_message, bind_res.
  destruct (get _ (lit "file_name")) as [n|e]; [|eauto].
  destruct (truthy _) eqn:Hk; [|eauto].
  destruct (call_toLowerCase _ _) as [lower|e] eqn:Hl; [|eauto].
  destruct (endsWith lower _) eqn:He; [|eauto].
  left. eexists _, _. split; [reflexivity|]. split; [exact Hk|].
  unfold call_toLowerCase in Hl.
  destruct (or_else n _); try discriminate.
  injection Hl as <-. exact He.
Qed.

(** The handler, once the body is parsed: the five answers. *)
Lemma handle_cases (env : MoltbotEnv) (data : JsValue) :
  (exists e, handle parse env data = Thrown e) \/
  handle parse env data = json_reply invalid_token 403 [] \/
  handle parse env data
  = json_reply [(lit "challenge", own_prop data (lit "challenge"))] 200 [] \/
  handle parse env data = ok_reply [] \/
  exists task, handle parse env data = ok_reply [task].
Proof.
  unfold handle, bind_res.
  destruct (get data (lit "type")) as [type|e]; [|eauto].
  destruct (strict_eq_str type _).
  { destruct (token_mismatch env _); auto. }
  destruct (_ && _)%bool; [|auto].
  destruct (get _ (lit "token")) as [eventToken|e]; [|eauto].
  destruct (token_mismatch env eventToken); [auto|].
  destruct (get _ (lit "message")) as [message|e]; [|eauto].
  destruct (get message _) as [message_type|e]; [|eauto].
  destruct (strict_eq_str message_type (lit "text")).
  { destruct (on_text_message_cases message) as [->|[->|[e ->]]]; eauto 6. }
  destruct (strict_eq_str message_type (lit "file")); [|auto].
  destruct (on_file_message_cases message) as [(k & n & -> & _)|[->|[e ->]]];
    eauto 6.
Qed.

Lemma opt_own_prop (v : JsValue) (name : jsstring) : opt v name = own_prop v name.
Proof. unfold opt. destruct v; reflexivity. Qed.

Lemma own_prop_not_nullish (v : JsValue) (name : jsstring) (s : jsstring) :
  own_prop v name = VStr s -> nullish v = false.
Proof. destruct v; simpl; congruence. Qed.

(** The handler on a message event that passed the token check. *)
Lemma handle_message_event (env : MoltbotEnv) (data message : JsValue) :
  message_event env data message ->
  handle parse env data
  = bind_res (get (own_prop data (lit "event")) (lit "message")) (fun message =>
    bind_res (get message (lit "message_type")) (fun message_type =>
    if strict_eq_str message_type (lit "text") then on_text_message parse message
    else if strict_eq_str message_type (lit "file") then on_file_message parse message
    else ok_reply [])).
Proof.
  intros (Hdata & Htype & Hschema & Hevent & Htoken & _).
  unfold handle.
  rewrite get_not_nullish by assumption. cbn [bind_res].
  apply strict_eq_str_false in Htype. rewrite Htype.
  rewrite Hschema, opt_own_prop, Hevent.
  rewrite !(proj2 (strict_eq_str_true _ _) eq_refl). cbn [andb].
  rewrite get_not_nullish by (eapply own_prop_not_nullish; exact Hevent). cbn [bind_res].
  now rewrite Htoken.
Qed.

Lemma handle_message (env : MoltbotEnv) (data message : JsValue) :
  message_event env data message ->
  nullish message = false ->
  handle parse env data
  = if strict_eq_str (own_prop message (lit "message_type")) (lit "text")
    then on_text_message parse message
    else if strict_eq_str (own_prop message (lit "message_type")) (lit "file")
    then on_file_message parse message
    else ok_reply [].
Proof.
  intros Hev Hmsg. rewrite (@handle_message_event env data message Hev).
  destruct Hev as (_ & _ & _ & _ & _ & ->).
  assert (Hevent : nullish (own_prop data (lit "event")) = false).
  { destruct (own_prop data (lit "event")); try reflexivity; discriminate. }
  rewrite get_not_nullish by assumption. cbn [bind_res].
  rewrite get_not_nullish by assumption. reflexivity.
Qed.

(** X1.  The webhook gives one of five answers: [{ok: true}], the challenge,
    403 [Invalid token], 400 [Invalid JSON] or 500 [Internal server error].
    Background work is started only together with [{ok: true}], and at most
    one task for a request. *)
Theorem X1_webhook_answers (env : MoltbotEnv) (bodyText : jsstring) :
  let reply := fst (webhook parse env bodyText) in
  let tasks := snd (webhook parse env bodyText) in
  (reply = mkReply [(lit "ok", VBool true)] 200 /\ (List.length tasks <= 1)%nat) \/
  (tasks = [] /\
   (reply = mkReply [(lit "error", VStr (lit "Invalid JSON"))] 400 \/
    reply = mkReply [(lit "error", VStr (lit "Invalid token"))] 403 \/
    reply = mkReply [(lit "error", VStr (lit "Internal server error"))] 500 \/
    exists challenge, reply = mkReply [(lit "challenge", challenge)] 200)).
Proof.
  unfold webhook.
  destruct (parse bodyText) as [data|e]; cbn [fst snd]; [|auto].
  destruct (handle_cases env data) as [[e ->]|[->|[->|[->|[task ->]]]]];
    cbn [fst snd json_reply ok_reply List.length]; eauto 7.
Qed.

(** X2.  The answer is 400 exactly when the body of the request is not JSON:
    nothing the handler does with a parsed body is answered 400. *)
Theorem X2_invalid_json_is_400 (env : MoltbotEnv) (bodyText : jsstring) :
  reply_status (fst (webhook parse env bodyText)) = 400%Z
  <-> exists e, parse bodyText = Thrown e.
Proof.
  unfold webhook.
  destruct (parse bodyText) as [data|e]; cbn [fst snd].
  - split; [|intros [e [=]]].
    destruct (handle_cases env data) as [[e ->]|[->|[->|[->|[task ->]]]]];
      cbn [fst json_reply ok_reply reply_status]; discriminate.
  - split; [eauto|reflexivity].
Qed.

(** X3.  The answer is 403 exactly when a verification token is configured
    and the payload carries another one: in [token] for a URL verification,
    in [header.token] for a message event.  The event is refused before
    anything of its message is read. *)
Theorem X3_invalid_token_is_403 (env : MoltbotEnv) (bodyText : jsstring) :
  reply_status (fst (webhook parse env bodyText)) = 403%Z
  <-> exists data tok,
        parse bodyText = Normal data /\
        FEISHU_VERIFICATION_TOKEN env = Some tok /\ tok <> [] /\
        ((own_prop data (lit "type") = VStr (lit "url_verification") /\
          own_prop data (lit "token") <> VStr tok) \/
         (own_prop data (lit "type") <> VStr (lit "url_verification") /\
          own_prop data (lit "schema") = VStr (lit "2.0") /\
          own_prop (own_prop data (lit "header")) (lit "event_type")
          = VStr (lit "im.message.receive_v1") /\
          own_prop (own_prop data (lit "header")) (lit "token") <> VStr tok)).
Proof.
  unfold webhook.
  destruct (parse bodyText) as [data|e]; cbn [fst snd].
  2: { split; [discriminate|]. intros (d & tok & [=] & _). }
  assert (Hmis : forall v,
            token_mismatch env v = true <->
            exists tok, FEISHU_VERIFICATION_TOKEN env = Some tok /\ tok <> []
                        /\ v <> VStr tok) by (intros; apply token_mismatch_true).
  unfold handle, bind_res.
  destruct (nullish data) eqn:Hdata.
  { unfold get. rewrite Hdata. cbn [fst reply_status]. split; [discriminate|].
    intros (d & tok & [= <-] & _ & _ & [[H _]|(_ & H & _)]);
      destruct data; discriminate. }
  rewrite get_not_nullish by assumption.
  destruct (strict_eq_str (own_prop data (lit "type")) _) eqn:Htype.
  { apply strict_eq_str_true in Htype.
    destruct (token_mismatch env _) eqn:Htok; cbn [json_reply fst reply_status].
    - split; [intros _|reflexivity].
      apply Hmis in Htok as (tok & ? & ? & ?). exists data, tok. auto 6.
    - split; [discriminate|].
      intros (d & tok & [= <-] & Hcfg & Hne & [[_ H]|[H _]]); [|contradiction].
      assert (token_mismatch env (own_prop data (lit "token")) = true)
        by (apply Hmis; eauto).
      congruence. }
  apply strict_eq_str_false in Htype.
  rewrite opt_own_prop.
  destruct (strict_eq_str (own_prop data (lit "schema")) _) eqn:Hschema; cbn [andb].
  2: { cbn [ok_reply json_reply fst reply_status]. split; [discriminate|].
       apply strict_eq_str_false in Hschema.
       intros (d & tok & [= <-] & _ & _ & [[H _]|(_ & H & _)]); contradiction. }
  destruct (strict_eq_str (own_prop (own_prop data (lit "header")) _) _) eqn:Hevent.
  2: { cbn [ok_reply json_reply fst reply_status]. split; [discriminate|].
       apply strict_eq_str_false in Hevent.
       intros (d & tok & [= <-] & _ & _ & [[H _]|(_ & _ & H & _)]); contradiction. }
  apply strict_eq_str_true in Hschema, Hevent.
  rewrite get_not_nullish by (eapply own_prop_not_nullish; exact Hevent).
  destruct (token_mismatch env _) eqn:Htok.
  - cbn [json_reply fst reply_status]. split; [intros _|reflexivity].
    apply Hmis in Htok as (tok & ? & ? & ?). exists data, tok. auto 8.
  - split.
    + intros H. exfalso. revert H.
      destruct (get _ (lit "message")) as [message|e]; [|discriminate].
      destruct (get message _) as [message_type|e]; [|discriminate].
      destruct (strict_eq_str message_type (lit "text")).
      { destruct (on_text_message_cases message) as [->|[->|[e ->]]]; discriminate. }
      destruct (strict_eq_str message_type (lit "file")); [|discriminate].
      destruct (on_file_message_cases message) as [(k & n & -> & _)|[->|[e ->]]];
        discriminate.
    + intros (d & tok & [= <-] & Hcfg & Hne & [[H _]|(_ & _ & _ & H)]);
        [contradiction|].
      assert (token_mismatch env (own_prop (own_prop data (lit "header"))
                                           (lit "token")) = true)
        by (apply Hmis; eauto).
      congruence.
Qed.

Lemma task_origin (env : MoltbotEnv) (bodyText : jsstring) (task : Task) :
  In task (snd (webhook parse env bodyText)) ->
  exists data message,
    parse bodyText = Normal data /\
    message_event env data message /\
    ((own_prop message (lit "message_type") = VStr (lit "text") /\
      task = ProcessPdf message) \/
     (own_prop message (lit "message_type") = VStr (lit "file") /\
      exists fileKey fileName,
        task = SaveFile (own_prop message (lit "message_id")) fileKey fileName
                        (own_prop message (lit "chat_id")) /\
        truthy fileKey = true /\ is_pdf_name fileName = true)).
Proof.
  unfold webhook.
  destruct (parse bodyText) as [data|e]; cbn [snd]; [|intros []].
  intros Hin. exists data.
  revert Hin. unfold handle, bind_res.
  destruct (nullish data) eqn:Hdata.
  { unfold get. rewrite Hdata. intros []. }
  rewrite get_not_nullish by assumption.
  destruct (strict_eq_str (own_prop data (lit "type")) _) eqn:Htype.
  { destruct (token_mismatch env _); intros []. }
  apply strict_eq_str_false in Htype.
  rewrite opt_own_prop.
  destruct (strict_eq_str (own_prop data (lit "schema")) _) eqn:Hschema;
    cbn [andb]; [|intros []].
  destruct (strict_eq_str (own_prop (own_prop data (lit "header")) _) _) eqn:Hevent;
    [|intros []].
  apply strict_eq_str_true in Hschema, Hevent.
  rewrite get_not_nullish by (eapply own_prop_not_nullish; exact Hevent).
  destruct (token_mismatch env _) eqn:Htok; [intros []|].
  destruct (get _ (lit "message")) as [message|e] eqn:Hmsg; [|intros []].
  apply get_normal in Hmsg as [_ ->].
  set (message := own_prop (own_prop data (lit "event")) (lit "message")).
  intros Hin. exists message. revert Hin.
  assert (Hev : message_event env data message) by (repeat split; assumption).
  destruct (get message _) as [message_type|e] eqn:Hty; [|intros []].
  apply get_normal in Hty as [_ ->].
  destruct (strict_eq_str (own_prop message _) (lit "text")) eqn:Htext.
  { apply strict_eq_str_true in Htext.
    destruct (on_text_message_cases message) as [->|[->|[e ->]]];
      cbn [ok_reply json_reply snd]; intros Hin; try contradiction.
    destruct Hin as [<-|[]]. auto. }
  destruct (strict_eq_str (own_prop message _) (lit "file")) eqn:Hfile; [|intros []].
  apply strict_eq_str_true in Hfile.
  destruct (on_file_message_cases message) as [(k & n & -> & Hk & Hn)|[->|[e ->]]];
    cbn [ok_reply json_reply snd]; intros Hin; try contradiction.
  destruct Hin as [<-|[]]. split; [reflexivity|]. split; [assumption|].
  right. split; [assumption|]. eauto.
Qed.

(** X4.  Background work is started for message events only, and only
    behind the token check: the pipeline for a message of type [text], the
    stager for a message of type [file] that has a file key and a name ending
    in [.pdf], with the identifiers of that message. *)
Theorem X4_webhook_task_origin (env : MoltbotEnv) (bodyText : jsstring) (task : Task) :
  In task (snd (webhook parse env bodyText)) ->
  exists data message,
    parse bodyText = Normal data /\
    message_event env data message /\
    ((own_prop message (lit "message_type") = VStr (lit "text") /\
      task = ProcessPdf message) \/
     (own_prop message (lit "message_type") = VStr (lit "file") /\
      exists fileKey fileName,
        task = SaveFile (own_prop message (lit "message_id")) fileKey fileName
                        (own_prop message (lit "chat_id")) /\
        truthy fileKey = true /\ is_pdf_name fileName = true)).
Proof. apply task_origin. Qed.

(** X5.  A text message starts the pipeline exactly when its text holds
    one of the two trigger phrases; the answer is [{ok: true}] either way. *)
Theorem X5_text_message_trigger (env : MoltbotEnv) (bodyText : jsstring)
  (data message contentObj : JsValue) (text : jsstring) :
  parse bodyText = Normal data ->
  message_event env data message ->
  own_prop message (lit "message_type") = VStr (lit "text") ->
  parse (ToString (own_prop message (lit "content"))) = Normal contentObj ->
  own_prop contentObj (lit "text") = VStr text ->
  webhook parse env bodyText
  = (mkReply [(lit "ok", VBool true)] 200,
     if (includes text Text.trigger_1 || includes text Text.trigger_2)%bool
     then [ProcessPdf message] else []).
Proof.
  intros Hparse Hev Htype Hcontent Htext.
  unfold webhook. rewrite Hparse.
  rewrite (@handle_message env data message Hev)
    by (eapply own_prop_not_nullish; exact Htype).
  rewrite Htype, (proj2 (strict_eq_str_true _ _) eq_refl).
  unfold on_text_message, parse_content. rewrite Hcontent.
  rewrite get_not_nullish by (eapply own_prop_not_nullish; exact Htext).
  cbn [bind_res]. rewrite Htext.
  assert (Hor : or_else (VStr text) (VStr []) = VStr text)
    by (destruct text; reflexivity).
  rewrite Hor. cbn [call_includes bind_res].
  destruct (includes text Text.trigger_1); cbn [orb]; [reflexivity|].
  destruct (includes text Text.trigger_2); reflexivity.
Qed.

(** X6.  A message whose content is not JSON is read as [{}]: it is
    acknowledged with [{ok: true}] and starts nothing. *)
Theorem X6_unreadable_content_starts_nothing (env : MoltbotEnv) (bodyText : jsstring)
  (data message : JsValue) (e : JsError) :
  parse bodyText = Normal data ->
  message_event env data message ->
  nullish message = false ->
  parse (ToString (own_prop message (lit "content"))) = Thrown e ->
  webhook parse env bodyText = (mkReply [(lit "ok", VBool true)] 200, []).
Proof.
  intros Hparse Hev Hmsg Hcontent.
  unfold webhook. rewrite Hparse.
  rewrite (@handle_message env data message Hev) by assumption.
  unfold on_text_message, on_file_message, parse_content. rewrite Hcontent.
  destruct (strict_eq_str _ (lit "text")); [reflexivity|].
  destruct (strict_eq_str _ (lit "file")); reflexivity.
Qed.

(** X7.  A payload that is [null], a message event without message, and
    a text or file message whose content is the JSON [null] are answered 500,
    and start nothing. *)
Theorem X7_broken_event_is_500 (env : MoltbotEnv) (bodyText : jsstring)
  (data : JsValue) :
  parse bodyText = Normal data ->
  (nullish data = true \/
   exists message,
     message_event env data message /\
     (nullish message = true \/
      ((own_prop message (lit "message_type") = VStr (lit "text") \/
        own_prop message (lit "message_type") = VStr (lit "file")) /\
       exists contentObj,
         parse (ToString (own_prop message (lit "content"))) = Normal contentObj /\
         nullish contentObj = true))) ->
  webhook parse env bodyText
  = (mkReply [(lit "error", VStr (lit "Internal server error"))] 500, []).
Proof.
  intros Hparse H. unfold webhook. rewrite Hparse.
  destruct H as [Hdata|(message & Hev & H)].
  { unfold handle, get. now rewrite Hdata. }
  destruct H as [Hmsg|(Hty & contentObj & Hcontent & Hnull)].
  - rewrite (@handle_message_event env data message Hev).
    destruct Hev as (_ & _ & _ & _ & _ & ->).
    unfold get at 1.
    destruct (nullish (own_prop data (lit "event"))); [reflexivity|].
    cbn [bind_res]. unfold get. now rewrite Hmsg.
  - assert (Hmsg : nullish message = false)
      by (destruct Hty as [Hty|Hty]; eapply own_prop_not_nullish; exact Hty).
    rewrite (@handle_message env data message Hev) by assumption.
    unfold on_text_message, on_file_message, parse_content. rewrite Hcontent.
    unfold get. rewrite Hnull. cbn [bind_res].
    destruct Hty as [->| ->]; reflexivity.
Qed.

End Hook.

(* ================================================================== *)
(** * Further properties: the token, the replies, the stager *)
(* ================================================================== *)

Lemma is_zero_true (v : JsValue) : is_zero v = true <-> v = VNum 0.
Proof.
  destruct v; simpl; split; try congruence.
  - intros H. apply Z.eqb_eq in H. now subst.
  - intros [= ->]. reflexivity.
Qed.

Section Calls.

Variable parse : jsstring -> Res JsValue.
Variable W : World.

Lemma getFeishuToken_run (appId appSecret : option jsstring) (h : list Event) :
  let rr := w_fetch W h (TokenRequest appId appSecret) in
  events (getFeishuToken parse W appId appSecret) h
  = [EvFetch (TokenRequest appId appSecret) rr] /\
  match granted parse rr with
  | Some t => outcome (getFeishuToken parse W appId appSecret) h = Normal t
  | None => exists e, outcome (getFeishuToken parse W appId appSecret) h = Thrown e
  end.
Proof.
  unfold events, outcome, getFeishuToken, granted, json_of. unfold_monad.
  destruct (w_fetch W h (TokenRequest appId appSecret)) as [res|e];
    cbn [fst snd]; [|eauto].
  destruct (body res) as [bodyText|e]; cbn [fst snd app]; [|eauto].
  destruct (parse bodyText) as [d|e]; cbn [fst snd app]; [|eauto].
  unfold get.
  destruct (nullish d); cbn [fst snd app]; [eauto|].
  destruct (is_zero (own_prop d (lit "code"))); cbn [negb fst snd app]; eauto.
Qed.

Lemma replyFeishuMessage_run (token messageId : JsValue) (content msgType : jsstring)
  (h : list Event) :
  let req := ReplyRequest (bearer token) (ToString messageId) content msgType in
  let rr := w_fetch W h req in
  events (replyFeishuMessage parse W token messageId content msgType) h
  = [EvFetch req rr] /\
  (if answered parse rr
   then outcome (replyFeishuMessage parse W token messageId content msgType) h
        = Normal tt
   else exists e,
        outcome (replyFeishuMessage parse W token messageId content msgType) h
        = Thrown e).
Proof.
  unfold events, outcome, replyFeishuMessage, answered, json_of. unfold_monad.
  destruct (w_fetch W h _) as [res|e]; cbn [fst snd]; [|eauto].
  destruct (body res) as [bodyText|e]; cbn [fst snd app]; [|eauto].
  destruct (parse bodyText) as [d|e]; cbn [fst snd app]; [|eauto].
  unfold get.
  destruct (nullish d); cbn [fst snd app]; eauto.
Qed.

Lemma token_call (appId appSecret : option jsstring) (h : list Event) :
  exists r,
    getFeishuToken parse W appId appSecret h
    = ([EvFetch (TokenRequest appId appSecret)
          (w_fetch W h (TokenRequest appId appSecret))], r) /\
    match granted parse (w_fetch W h (TokenRequest appId appSecret)) with
    | Some t => r = Normal t
    | None => exists e, r = Thrown e
    end.
Proof.
  destruct (getFeishuToken_run appId appSecret h) as [He Ho].
  unfold events, outcome in *.
  destruct (getFeishuToken parse W appId appSecret h) as [t r].
  cbn [fst snd] in *. subst t. eauto.
Qed.

Lemma reply_call (token messageId : JsValue) (content msgType : jsstring)
  (h : list Event) :
  exists rr r,
    replyFeishuMessage parse W token messageId content msgType h
    = ([EvFetch (ReplyRequest (bearer token) (ToString messageId) content msgType)
          rr], r) /\
    (if answered parse rr then r = Normal tt else exists e, r = Thrown e).
Proof.
  destruct (replyFeishuMessage_run token messageId content msgType h) as [He Ho].
  unfold events, outcome in *.
  destruct (replyFeishuMessage parse W token messageId content msgType h) as [t r].
  cbn [fst snd] in *. subst t. eauto.
Qed.

(** Every run of the stager goes one of the six ways, and returns. *)
Lemma downloadAndSaveFeishuFile_run (env : MoltbotEnv) (messageId fileKey : JsValue)
  (fileName : jsstring) (chatId : JsValue) (h : list Event) :
  exists t,
    downloadAndSaveFeishuFile parse W env messageId fileKey fileName chatId h
    = (t, Normal tt) /\
    Staged parse env messageId fileKey fileName chatId t.
Proof.
  unfold downloadAndSaveFeishuFile. unfold_monad.
  destruct (token_call (FEISHU_APP_ID env) (FEISHU_APP_SECRET env) h)
    as (rt & -> & Hrt).
  destruct (granted parse _) as [feishuToken|] eqn:Hgr.
  2: { destruct Hrt as [e ->]. cbn [app]. eexists. split; [reflexivity|].
       now apply St_no_token. }
  subst rt. cbv beta iota zeta.
  destruct (w_fetch W _ (ResourceRequest _ _ _)) as [res|e] eqn:Hres.
  2: { cbn [app]. eexists. split; [reflexivity|]. now apply St_no_download. }
  destruct (ok res) eqn:Hok; cbn [negb]; cbv beta iota zeta.
  - destruct (bytes res) as [arrayBuffer|e] eqn:Hbytes; cbv beta iota zeta.
    2: { cbn [app]. eexists. split; [reflexivity|]. eapply St_no_body; eassumption. }
    destruct (w_put W _ _ _) as [[]|e] eqn:Hput; cbv beta iota zeta.
    + match goal with
      | |- context [replyFeishuMessage parse W ?t ?m ?c ?ty ?h'] =>
          destruct (reply_call t m c ty h') as (rr' & r' & -> & Hr')
      end.
      destruct r' as [[]|e]; cbn [app]; eexists; (split; [reflexivity|]);
        now apply St_stored.
    + cbn [app]. eexists. split; [reflexivity|]. now apply St_put_failed.
  - match goal with
    | |- context [replyFeishuMessage parse W ?t ?m ?c ?ty ?h'] =>
        destruct (reply_call t m c ty h') as (rr' & r' & -> & Hr')
    end.
    destruct r' as [[]|e]; cbn [app]; eexists; (split; [reflexivity|]);
      now apply St_refused.
Qed.

End Calls.

Section TokenAndReply.

Variable parse : jsstring -> Res JsValue.
Variable W : World.

(** X8.  [getFeishuToken] makes one request.  It returns the
    [tenant_access_token] of the answer only when the answer is JSON with
    [code] 0; any other code makes it throw an error that quotes the [msg] of
    the answer. *)
Theorem X8_token_needs_code_zero (appId appSecret : option jsstring) (h : list Event) :
  let req := TokenRequest appId appSecret in
  events (getFeishuToken parse W appId appSecret) h = [EvFetch req (w_fetch W h req)] /\
  (forall t,
     outcome (getFeishuToken parse W appId appSecret) h = Normal t ->
     exists res bodyText d,
       w_fetch W h req = Normal res /\
       body res = Normal bodyText /\ parse bodyText = Normal d /\
       own_prop d (lit "code") = VNum 0 /\
       t = own_prop d (lit "tenant_access_token")) /\
  (forall res bodyText d,
     w_fetch W h req = Normal res ->
     body res = Normal bodyText -> parse bodyText = Normal d ->
     nullish d = false -> own_prop d (lit "code") <> VNum 0 ->
     outcome (getFeishuToken parse W appId appSecret) h
     = Thrown (Err (lit "Failed to get Feishu token: "
                    ++ ToString (own_prop d (lit "msg"))))).
Proof.
  intros req. subst req.
  unfold events, outcome, getFeishuToken. unfold_monad.
  destruct (w_fetch W h (TokenRequest appId appSecret)) as [res|e] eqn:Hres;
    cbn [fst snd].
  2: { repeat split; [intros t [=]|intros res ? d [=]]. }
  destruct (body res) as [bodyText|e] eqn:Hbody; cbn [fst snd app].
  2: { repeat split; [intros t [=]|intros ? ? d [= <-]; congruence]. }
  destruct (parse bodyText) as [d|e] eqn:Hparse; cbn [fst snd app].
  2: { repeat split; [intros t [=]|intros ? ? d [= <-]; congruence]. }
  unfold get.
  destruct (nullish d) eqn:Hd; cbn [fst snd app].
  { repeat split; [intros t [=]|intros ? ? ? [= <-] Hb H; congruence]. }
  destruct (is_zero (own_prop d (lit "code"))) eqn:Hcode; cbn [negb fst snd app].
  - apply is_zero_true in Hcode. repeat split.
    + intros t [= <-]. eauto 8.
    + intros ? ? ? [= <-] Hb H. congruence.
  - repeat split; [intros t [=]|].
    intros ? ? ? [= <-] Hb H _ _. rewrite Hbody in Hb. injection Hb as <-.
    rewrite Hparse in H. injection H as <-. reflexivity.
Qed.


End TokenAndReply.

Section Stager.

Variable parse : jsstring -> Res JsValue.
Variable W : World.
Variable env : MoltbotEnv.
Variables messageId fileKey : JsValue.
Variable fileName : jsstring.
Variable chatId : JsValue.

Ltac by_stager h H :=
  unfold events, outcome in *;
  let t := fresh "t" in
  let E := fresh "E" in
  destruct (downloadAndSaveFeishuFile_run parse W env messageId fileKey fileName
              chatId h) as (t & E & H);
  rewrite E in *; cbn [fst snd] in *; clear E.

Ltac stager_events :=
  unfold token_event, resource_event, reply_event in *.

(** X10.  [downloadAndSaveFeishuFile] never throws.  It lists, reads and
    deletes nothing in the bucket, and writes at most one object. *)
Theorem X10_stager_returns (h : list Event) :
  outcome (downloadAndSaveFeishuFile parse W env messageId fileKey fileName chatId) h = Normal tt /\
  Forall (fun ev => bucket_listing ev = false /\ bucket_read ev = false
                    /\ deletion ev = false) (events (downloadAndSaveFeishuFile parse W env messageId fileKey
                      fileName chatId) h) /\
  (List.length (puts (events (downloadAndSaveFeishuFile parse W env messageId fileKey
                      fileName chatId) h)) <= 1)%nat.
Proof.
  by_stager h Hs. split; [reflexivity|].
  destruct Hs; stager_events; (split; [repeat constructor|]);
    unfold puts, pick; cbn [flat_map app List.length]; lia.
Qed.

(** X11.  What the stager writes is the body of a download that was
    answered ok, for the message and file key it was given, under the key
    made of the conversation, the time read from the clock and the file
    name. *)
Theorem X11_stager_stores_the_download (h : list Event) (k : jsstring)
  (data : ArrayBuffer) (r : Res unit) :
  In (EvPut k data r) (events (downloadAndSaveFeishuFile parse W env messageId fileKey
                      fileName chatId) h) ->
  exists auth res now,
    In (EvFetch (ResourceRequest auth (ToString messageId) (ToString fileKey))
          (Normal res)) (events (downloadAndSaveFeishuFile parse W env messageId fileKey
                      fileName chatId) h) /\
    ok res = true /\
    bytes res = Normal data /\
    In (EvNow now) (events (downloadAndSaveFeishuFile parse W env messageId fileKey
                      fileName chatId) h) /\
    k = object_key chatId now fileName.
Proof.
  by_stager h Hs. intros Hin.
  destruct Hs; stager_events; cbn [In] in Hin;
    repeat match goal with
    | H : _ \/ _ |- _ => destruct H
    | H : False |- _ => destruct H
    end; try discriminate.
  all: match goal with H : EvPut _ _ _ = EvPut _ _ _ |- _ => injection H as <- <- <- end.
  all: eexists _, _, _; cbn [In]; repeat split;
    [ right; left; reflexivity | assumption | assumption
    | right; right; left; reflexivity ].
Qed.

Lemma confirmation_is_no_complaint (name : jsstring) :
  staged_text name <> Text.download_failed.
Proof. unfold staged_text, Text.staged_head, Text.download_failed. discriminate. Qed.

(** X12.  The confirmation is sent only once the object is in the bucket:
    after a run that sent it, the bucket holds the downloaded bytes at the
    key of the file, and is unchanged elsewhere. *)
Theorem X12_confirmation_means_stored (h : list Event) :
  In (staged_text fileName) (replies (events (downloadAndSaveFeishuFile parse W env messageId fileKey
                      fileName chatId) h)) ->
  exists auth res data now,
    In (EvFetch (ResourceRequest auth (ToString messageId) (ToString fileKey))
          (Normal res)) (events (downloadAndSaveFeishuFile parse W env messageId fileKey
                      fileName chatId) h) /\
    ok res = true /\
    bytes res = Normal data /\
    In (EvNow now) (events (downloadAndSaveFeishuFile parse W env messageId fileKey
                      fileName chatId) h) /\
    forall b k,
      store_after (events (downloadAndSaveFeishuFile parse W env messageId fileKey
                      fileName chatId) h) b k
      = if JsString.eqb k (object_key chatId now fileName)
        then Some data else b k.
Proof.
  by_stager h Hs. intros Hin.
  destruct Hs; stager_events; unfold replies, pick in Hin;
    cbn [flat_map app In] in Hin;
    repeat match goal with
    | H : _ \/ _ |- _ => destruct H
    | H : False |- _ => destruct H
    end.
  - exfalso. eapply confirmation_is_no_complaint. symmetry. eassumption.
  - eexists _, _, _, _. cbn [In]. repeat split;
      [ right; left; reflexivity | assumption | eassumption
      | right; right; left; reflexivity ].
Qed.

(** X13.  When the download is answered with an error status, nothing is
    written to the bucket and the only reply is the one that the download
    failed. *)
Theorem X13_refused_download_stores_nothing (h : list Event) (auth mid fk : jsstring)
  (res : Response) :
  In (EvFetch (ResourceRequest auth mid fk) (Normal res)) (events (downloadAndSaveFeishuFile parse W env messageId fileKey
                      fileName chatId) h) ->
  ok res = false ->
  replies (events (downloadAndSaveFeishuFile parse W env messageId fileKey
                      fileName chatId) h) = [Text.download_failed] /\
  puts (events (downloadAndSaveFeishuFile parse W env messageId fileKey
                      fileName chatId) h) = [] /\
  forall b, store_after (events (downloadAndSaveFeishuFile parse W env messageId fileKey
                      fileName chatId) h) b = b.
Proof.
  by_stager h Hs. intros Hin Hok.
  destruct Hs; stager_events; cbn [In] in Hin;
    repeat match goal with
    | H : _ \/ _ |- _ => destruct H
    | H : False |- _ => destruct H
    end; try discriminate.
  all: match goal with
       | H : EvFetch _ _ = EvFetch _ _ |- _ => injection H as _ _ _ <-
       end; try congruence.
  repeat split.
Qed.


End Stager.

(* ================================================================== *)
(** * Further properties: names, keys and the order of the files *)
(* ================================================================== *)

Lemma eqb_length (s t : jsstring) :
  JsString.eqb s t = true -> List.length s = List.length t.
Proof. intros H. apply eqb_eq in H. now subst. Qed.

(** A suffix that holds no [c] is looked for behind the last [c]. *)
Lemma endsWith_behind (c : code_unit) (x y suffix : jsstring) :
  ~ In c suffix ->
  endsWith (x ++ c :: y) suffix = endsWith y suffix.
Proof.
  intros Hc. unfold endsWith.
  destruct (Nat.leb (List.length suffix) (List.length y)) eqn:Hy.
  - apply Nat.leb_le in Hy.
    rewrite length_app. cbn [List.length].
    replace (Nat.leb (List.length suffix) (List.length x + S (List.length y)))
      with true by (symmetry; apply Nat.leb_le; lia).
    cbn [andb].
    replace (List.length x + S (List.length y) - List.length suffix)%nat
      with (List.length (x ++ [c]) + (List.length y - List.length suffix))%nat
      by (rewrite length_app; cbn [List.length]; lia).
    change (x ++ c :: y) with (x ++ [c] ++ y). rewrite app_assoc.
    rewrite skipn_app, skipn_all2 by lia. cbn [app].
    replace (List.length (x ++ [c]) + (List.length y - List.length suffix)
             - List.length (x ++ [c]))%nat
      with (List.length y - List.length suffix)%nat by lia.
    reflexivity.
  - cbn [andb]. apply Nat.leb_gt in Hy.
    apply andb_false_iff.
    destruct (Nat.leb (List.length suffix) (List.length (x ++ c :: y))) eqn:Hl;
      [right|now left].
    apply Nat.leb_le in Hl. rewrite length_app in Hl. cbn [List.length] in Hl.
    apply eqb_neq. intros E.
    apply Hc. rewrite <- E.
    set (n := (List.length (x ++ c :: y) - List.length suffix)%nat).
    assert (Hn : (n <= List.length x)%nat).
    { unfold n. rewrite length_app. cbn [List.length]. lia. }
    rewrite skipn_app.
    replace (n - List.length x)%nat with 0%nat by lia.
    cbn [skipn]. apply in_or_app. right. now left.
Qed.

Lemma toLowerCase_app (a b : jsstring) :
  toLowerCase (a ++ b) = toLowerCase a ++ toLowerCase b.
Proof. apply map_app. Qed.

(** The filter of the pipeline accepts the key of a staged file exactly
    when the filter of the handler accepted its name. *)
Lemma key_passes_like_name (chatId : JsValue) (now : Z) (fileName : jsstring) :
  is_pdf_name (object_key chatId now fileName) = is_pdf_name fileName.
Proof.
  assert (Hk : object_key chatId now fileName
               = (lit "chat_data/" ++ ToString chatId ++ lit "/" ++ of_Z now)
                 ++ underscore :: fileName).
  { unfold object_key. rewrite <- !app_assoc. reflexivity. }
  unfold is_pdf_name. rewrite Hk, toLowerCase_app.
  change (toLowerCase (underscore :: fileName))
    with (underscore :: toLowerCase fileName).
  apply endsWith_behind.
  unfold underscore. cbn. intros [H|[H|[H|[H|[]]]]]; discriminate.
Qed.

(** X15.  The [.pdf] test of the pipeline on the key of a staged file
    gives what the [.pdf] test of the handler gave on its name. *)
Theorem X15_staged_key_passes_the_filter (chatId : JsValue) (now : Z)
  (fileName : jsstring) :
  is_pdf_name (object_key chatId now fileName) = is_pdf_name fileName.
Proof. apply key_passes_like_name. Qed.

Lemma split_none (sep : code_unit) (s : jsstring) :
  ~ In sep s -> split sep s = [s].
Proof.
  induction s as [|c s IH]; simpl; intros H; [reflexivity|].
  destruct (N.eqb c sep) eqn:E.
  - apply N.eqb_eq in E. exfalso. apply H. now left.
  - rewrite IH by (intros Hin; apply H; now right). reflexivity.
Qed.

(** X16.  The name computed from a key is what follows its first
    underscore; it is [file.pdf] when nothing follows, and when the key holds
    no underscore. *)
Theorem X16_file_name_after_the_first_underscore :
  (forall a b,
     ~ In underscore a ->
     file_name_of_key (a ++ underscore :: b)
     = match b with [] => lit "file.pdf" | _ :: _ => b end) /\
  (forall k, ~ In underscore k -> file_name_of_key k = lit "file.pdf").
Proof.
  split.
  - intros a b Ha. unfold file_name_of_key.
    rewrite after_first_underscore by assumption. destruct b; reflexivity.
  - intros k Hk. unfold file_name_of_key.
    rewrite split_none by assumption. reflexivity.
Qed.

(** X17.  The title is the prefix followed by the joined names when these
    have at most 50 code units, and by their first 50 code units and [...]
    otherwise: it is never longer than the prefix and 53 code units. *)
Theorem X17_report_title_is_capped (fileNames : list jsstring) :
  let joined := join (lit ", ") fileNames in
  ((List.length joined <= 50)%nat ->
   report_title fileNames = Text.title_prefix ++ joined) /\
  ((50 < List.length joined)%nat ->
   report_title fileNames
   = Text.title_prefix ++ firstn 50 joined ++ lit "...") /\
  (List.length (report_title fileNames)
   <= List.length Text.title_prefix + 53)%nat.
Proof.
  intros joined. unfold report_title. fold joined. unfold substring0.
  destruct (Nat.ltb 50 (List.length joined)) eqn:E.
  - apply Nat.ltb_lt in E. repeat split.
    + lia.
    + rewrite !length_app, firstn_length_le by lia. cbn [List.length lit]. lia.
  - apply Nat.ltb_ge in E. repeat split.
    + intros _. now rewrite firstn_all2, app_nil_r by assumption.
    + lia.
    + rewrite !length_app, firstn_all2 by assumption. cbn [List.length]. lia.
Qed.

(** X18.  The files a run works on are the [.pdf] objects of the listing,
    each once, ordered by upload time, oldest first; objects uploaded at the
    same time keep the order of the listing. *)
Theorem X18_gathered_is_the_sorted_listing (objs : list R2Object) :
  Permutation (gathered objs) (filter (fun o => is_pdf_name (key o)) objs) /\
  oldest_first (gathered objs) /\
  forall z,
    filter (fun o => Z.eqb (uploaded o) z) (gathered objs)
    = filter (fun o => Z.eqb (uploaded o) z)
        (filter (fun o => is_pdf_name (key o)) objs).
Proof.
  unfold gathered. split; [apply sort_perm|].
  split; [apply sort_oldest_first|]. intros z. apply sort_stable.
Qed.

(** ** The keys of staged files *)

Lemma lit_inj (s s' : string) : lit s = lit s' -> s = s'.
Proof.
  revert s'; induction s as [|a s IH]; intros [|a' s'] H; simpl in H;
    try discriminate; [reflexivity|].
  injection H as Ha Hs. f_equal; [|now apply IH].
  rewrite <- (ascii_N_embedding a), <- (ascii_N_embedding a'). now f_equal.
Qed.

Lemma uint_digits (d : Decimal.uint) (c : code_unit) :
  In c (lit (NilEmpty.string_of_uint d)) -> (48 <= c <= 57)%N.
Proof.
  induction d; simpl; intros H; try contradiction;
    (destruct H as [<-|H]; [lia|auto]).
Qed.

Lemma of_Z_no_underscore (z : Z) : ~ In underscore (of_Z z).
Proof.
  unfold of_Z, underscore. intros H.
  assert (Hd : forall d, In 95%N (lit (NilZero.string_of_uint d)) -> False).
  { intros d Hin. unfold NilZero.string_of_uint in Hin.
    destruct d; try (apply uint_digits in Hin; lia).
    simpl in Hin. destruct Hin as [Hin|[]]. discriminate. }
  destruct (Z.to_int z) as [d|d]; simpl in H.
  - eapply Hd; eassumption.
  - destruct H as [H|H]; [discriminate|]. eapply Hd; eassumption.
Qed.

Lemma of_Z_inj (z z' : Z) : of_Z z = of_Z z' -> z = z'.
Proof.
  unfold of_Z. intros H. apply lit_inj in H.
  apply DecimalZ.to_int_inj.
  assert (Hn : forall z, NilZero.int_of_string (NilZero.string_of_int (Z.to_int z))
                         = Some (Z.to_int z)).
  { intros x. apply NilZero.isi.
    - destruct x; simpl; try discriminate.
      intros [= E]. now apply DecimalPos.Unsigned.to_uint_nonnil in E.
    - destruct x; simpl; try discriminate.
      intros [= E]. now apply DecimalPos.Unsigned.to_uint_nonnil in E. }
  pose proof (Hn z) as H1. rewrite H in H1. rewrite Hn in H1. now injection H1.
Qed.

Lemma first_separator (c : code_unit) (a a' b b' : jsstring) :
  ~ In c a -> ~ In c a' -> a ++ c :: b = a' ++ c :: b' -> a = a' /\ b = b'.
Proof.
  revert a'; induction a as [|x a IH]; intros [|x' a'] Ha Ha' E; cbn [app] in E.
  - injection E as ->. auto.
  - injection E as <- _. exfalso. apply Ha'. now left.
  - injection E as -> _. exfalso. apply Ha. now left.
  - injection E as -> E.
    destruct (IH a') as [-> ->]; auto;
      intros Hin; [apply Ha|apply Ha']; now right.
Qed.

(** X19.  Within a conversation the key of a staged file determines the
    time and the file name: two files are written to the same key only when
    both coincide. *)
Theorem X19_object_key_injective (chatId : JsValue) (now now' : Z)
  (fileName fileName' : jsstring) :
  object_key chatId now fileName = object_key chatId now' fileName' ->
  now = now' /\ fileName = fileName'.
Proof.
  unfold object_key. intros H.
  do 3 apply app_inv_head in H.
  change (lit "_" ++ fileName) with (underscore :: fileName) in H.
  change (lit "_" ++ fileName') with (underscore :: fileName') in H.
  apply first_separator in H as [Hn Hf]; try apply of_Z_no_underscore.
  split; [now apply of_Z_inj|assumption].
Qed.

(* ================================================================== *)
(** * Where a run fails *)
(* ================================================================== *)

Lemma get_thrown_error (v : JsValue) (name : jsstring) (e : JsError) :
  get v name = Thrown e -> nullish v = true /\ e = cannot_read v name.
Proof.
  unfold get. destruct (nullish v); intros H; [|discriminate].
  injection H as <-. auto.
Qed.

(** The facts a run leaves behind, with the errors of the reads. *)
Ltac tidy_errors :=
  repeat match goal with
  | H : negb _ = true |- _ => apply negb_true_iff in H
  | H : negb _ = false |- _ => apply negb_false_iff in H
  | H : get _ _ = Normal _ |- _ =>
      apply get_normal in H; destruct H as [? ?]; subst
  | H : get _ _ = Thrown _ |- _ =>
      apply get_thrown_error in H; destruct H as [? ?]; subst
  end.

Section Blame.

Variable parse : jsstring -> Res JsValue.
Variable stringify : JsValue -> jsstring.
Variable W : World.
Variable env : MoltbotEnv.

Lemma blamed_one (ev : Event) (e : JsError) :
  verdict parse stringify env ev = Some e -> blamed parse stringify env [ev] e.
Proof. intros H. exists [], ev. repeat split; [constructor|assumption]. Qed.

Lemma blamed_app (t1 t2 : list Event) (e : JsError) :
  calm parse stringify env t1 ->
  blamed parse stringify env t2 e -> blamed parse stringify env (t1 ++ t2) e.
Proof.
  intros H1 (before & ev & -> & Hc & H). exists (t1 ++ before), ev.
  split; [now rewrite app_assoc|]. split; [|assumption].
  apply Forall_app. now split.
Qed.

Lemma blamed_cons (x : Event) (t : list Event) (e : JsError) :
  verdict parse stringify env x = None ->
  blamed parse stringify env t e -> blamed parse stringify env (x :: t) e.
Proof. intros Hx. apply (blamed_app (t1 := [x])). now constructor. Qed.

(** The verdict on a call whose answer the hypotheses describe. *)
Ltac settle :=
  cbn [verdict chat_event create_event append_event reply_event upload_event];
  unfold reading, quoting;
  repeat match goal with
  | H : ?x = _ |- context [?x] => rewrite H
  end;
  cbn [negb];
  first [ reflexivity
        | destruct (configured (DASHSCOPE_API_KEY env)); reflexivity ].

Ltac blame :=
  cbv beta iota; cbn [app]; rewrite ?app_nil_r; tidy_errors; unfold calm in *;
  repeat first
    [ assumption
    | apply Forall_nil
    | match goal with
      | |- Forall _ (_ ++ _) => apply Forall_app; split
      | |- Forall _ (_ :: _) => apply Forall_cons; [settle|]
      | |- blamed _ _ _ [_] _ => apply blamed_one; settle
      | |- blamed _ _ _ (_ :: _) _ => apply blamed_cons; [settle|]
      | |- blamed _ _ _ (_ ++ _) _ => apply blamed_app; [unfold calm|]
      end ].

Lemma reply_blame (token messageId : JsValue) (content msgType : jsstring)
  (h : list Event) :
  Blame parse stringify env (replyFeishuMessage parse W token messageId content msgType h).
Proof.
  unfold Blame, replyFeishuMessage. unfold_monad.
  repeat next_case; blame.
Qed.

Lemma upload_loop_blame (pdfs : list R2Object) :
  forall fileIds fileNames h,
    Blame parse stringify env (upload_loop parse W (api_key env) pdfs fileIds fileNames h).
Proof.
  induction pdfs as [|pdf rest IH]; intros fileIds fileNames h.
  - constructor.
  - cbn [upload_loop]. unfold Blame in *. unfold_monad.
    repeat (first
      [ match goal with
        | |- context [upload_loop parse W _ rest ?i ?n ?h'] =>
            let H := fresh "IHh" in
            pose proof (IH i n h') as H;
            destruct (upload_loop parse W (api_key env) rest i n h') as [? [?|?]]
        end
      | next_case ]; cbv beta iota zeta).
    all: blame.
Qed.

Lemma delete_loop_blame (pdfs : list R2Object) :
  forall h, Blame parse stringify env (delete_loop W pdfs h).
Proof.
  induction pdfs as [|pdf rest IH]; intros h.
  - constructor.
  - cbn [delete_loop]. unfold Blame in *. unfold_monad.
    destruct (w_delete W h (key pdf)) as [[]|e] eqn:Hd; cbv beta iota zeta.
    + pose proof (IH (h ++ [EvDelete (key pdf) (Normal tt)])) as IHh.
      destruct (delete_loop W rest _) as [D [u|e]]; blame.
    + blame.
Qed.

(** Inside a computation: the loops and the replies with what they are to
    blame on. *)
Ltac enter_calls :=
  match goal with
  | |- context [upload_loop parse W ?k ?p ?i ?n ?h'] =>
      let H := fresh "HU" in
      pose proof (upload_loop_blame p i n h') as H; unfold Blame in H;
      destruct (upload_loop parse W k p i n h') as [? [[? ?]|?]]
  | |- context [delete_loop W ?p ?h'] =>
      let H := fresh "HD" in
      pose proof (delete_loop_blame p h') as H; unfold Blame in H;
      destruct (delete_loop W p h') as [? [?|?]]
  | |- context [replyFeishuMessage parse W ?t ?m ?c ?ty ?h'] =>
      let H := fresh "HR" in
      pose proof (reply_blame t m c ty h') as H; unfold Blame in H;
      destruct (replyFeishuMessage parse W t m c ty h') as [? [?|?]]
  end.

Lemma analyse_blame (message feishuToken : JsValue) (pdfs : list R2Object)
  (h : list Event) :
  nullish message = false ->
  if configured (DASHSCOPE_API_KEY env)
  then Blame parse stringify env (analyse parse stringify W env message feishuToken pdfs h)
  else analyse parse stringify W env message feishuToken pdfs h
       = ([], Thrown (Err Text.no_api_key)).
Proof.
  intros Hmsg. unfold analyse, Blame.
  destruct (configured (DASHSCOPE_API_KEY env)) eqn:Hkey; cbn [negb];
    [|reflexivity].
  unfold_monad. fold (api_key env).
  repeat (first [ enter_calls | next_case ]; cbv beta iota zeta).
  all: blame.
  all: congruence.
Qed.

Lemma pipeline_blame (message feishuToken : JsValue) (h : list Event) :
  nullish message = false ->
  Blame parse stringify env (pipeline parse stringify W env message feishuToken h).
Proof.
  intros Hmsg. unfold Blame, pipeline. unfold_monad.
  rewrite !get_not_nullish by assumption. cbv beta iota zeta.
  repeat (first
    [ enter_calls
    | match goal with
      | |- context [analyse parse stringify W env message ?t ?p ?h'] =>
          let H := fresh "HA" in
          pose proof (@analyse_blame message t p h' Hmsg) as H;
          destruct (configured (DASHSCOPE_API_KEY env)) eqn:?;
          [ unfold Blame in H;
            destruct (analyse parse stringify W env message t p h') as [? [?|?]]
          | rewrite H ]
      end
    | next_case ]; cbv beta iota zeta).
  all: repeat match goal with
       | H : Nat.eqb (List.length ?l) 0 = _ |- _ =>
           destruct l eqn:?; [try discriminate H|try discriminate H]; clear H
       end.
  all: blame.
Qed.

Lemma processPdfAndReply_run (message : JsValue) (h : list Event) :
  configured (FEISHU_APP_ID env) = true ->
  configured (FEISHU_APP_SECRET env) = true ->
  let rr := w_fetch W h (TokenRequest (FEISHU_APP_ID env) (FEISHU_APP_SECRET env)) in
  match granted parse rr with
  | None =>
      processPdfAndReply parse stringify W env message h
      = ([token_event env rr], Normal tt)
  | Some feishuToken =>
      exists P r F r',
        pipeline parse stringify W env message feishuToken (h ++ [token_event env rr])
        = (P, r) /\
        processPdfAndReply parse stringify W env message h
        = (token_event env rr :: P ++ F, r') /\
        match r with
        | Normal _ => F = [] /\ r' = Normal tt
        | Thrown e =>
            match get message (lit "message_id") with
            | Thrown e' => F = [] /\ r' = Thrown e'
            | Normal messageId =>
                exists rr',
                  F = [reply_event feishuToken messageId (failure_text e) rr'] /\
                  (if answered parse rr' then r' = Normal tt
                   else exists e', r' = Thrown e')
            end
        end
  end.
Proof.
  intros Hid Hsecret rr. unfold processPdfAndReply.
  rewrite Hid, Hsecret. cbn [negb orb]. unfold_monad.
  destruct (token_call parse W (FEISHU_APP_ID env) (FEISHU_APP_SECRET env) h)
    as (rt & -> & Hrt).
  fold rr in Hrt |- *.
  destruct (granted parse rr) as [feishuToken|].
  2: { destruct Hrt as [e ->]. reflexivity. }
  subst rt. cbv beta iota zeta. cbn [app]. fold (token_event env rr).
  destruct (pipeline parse stringify W env message feishuToken
              (h ++ [token_event env rr])) as [P r] eqn:HP.
  exists P, r.
  destruct r as [[]|e]; cbv beta iota zeta.
  - exists [], (Normal tt). rewrite app_nil_r. auto.
  - destruct (get message (lit "message_id")) as [messageId|e'] eqn:Hmid.
    + match goal with
      | |- context [replyFeishuMessage parse W ?t ?m ?c ?ty ?h'] =>
          destruct (reply_call parse W t m c ty h') as (rr' & r' & -> & Hr')
      end.
      eexists _, _. split; [reflexivity|]. split; [reflexivity|].
      exists rr'. split; [reflexivity|].
      destruct (answered parse rr'); [subst|destruct Hr' as [? ->]]; eauto.
    + exists [], (Thrown e'). rewrite app_nil_r. auto.
Qed.

End Blame.

(* ================================================================== *)
(** * Further properties: the pipeline *)
(* ================================================================== *)

Section PipelineCalls.

Variable parse : jsstring -> Res JsValue.
Variable env : MoltbotEnv.
Variable message : JsValue.
Variable feishuToken : JsValue.

Lemma Uploaded_calls pdfs fileIds fileNames U r :
  Uploaded parse env pdfs fileIds fileNames U r ->
  Forall (shaped_call env message feishuToken) U.
Proof. induction 1; repeat constructor; assumption. Qed.

Lemma Deleted_calls pdfs D r :
  Deleted pdfs D r -> Forall (shaped_call env message feishuToken) D.
Proof. induction 1; repeat constructor; assumption. Qed.

Lemma Uploaded_bytes pdfs fileIds fileNames U r :
  Uploaded parse env pdfs fileIds fileNames U r ->
  uploads U = map (fun o => (file_name_of_key (fst o), snd o)) (fetched U).
Proof.
  induction 1; try reflexivity.
  - assumption.
  - unfold uploads, fetched, pick in *. simpl. now f_equal.
Qed.

Lemma Piped_calls P r :
  Piped parse env message feishuToken P r ->
  Forall (shaped_call env message feishuToken) P.
Proof.
  intros H.
  inversion H as [ ? ? | ? ? ? Hm | ? ? ? Hm | ? ? ? ? ? Hm ?
                 | ? ? ? ? ? Hm ? HA ]; subst; clear H;
    try (apply get_normal in Hm as [_ ->]).
  1-4: repeat constructor.
  apply Forall_cons; [repeat constructor|].
  apply Forall_cons; [reflexivity|].
  inversion HA; subst; clear HA;
    repeat match goal with
    | H : match ?r with Normal _ => _ | Thrown _ => _ end |- _ =>
        destruct r; [destruct H as (? & ? & Hm' & ->) | destruct H as [-> ?]]
    end;
    try (apply get_normal in Hm' as [_ ->]);
    repeat first
      [ apply Forall_nil
      | apply Forall_app; split
      | apply Forall_cons; [repeat constructor|]
      | eapply Uploaded_calls; eassumption
      | eapply Deleted_calls; eassumption ].
Qed.

End PipelineCalls.

Lemma Deleted_no_upload pdfs D r :
  Deleted pdfs D r -> uploads D = [] /\ fetched D = [].
Proof.
  intros H. apply Deleted_stage in H.
  split; (apply pick_none; eapply Forall_impl; [|exact H]);
    intros [[]| | | | |]; simpl; congruence.
Qed.

Section PipedFacts.

Variable parse : jsstring -> Res JsValue.
Variable env : MoltbotEnv.
Variable message : JsValue.
Variable feishuToken : JsValue.

Lemma Analysed_bytes pdfs A r :
  Analysed parse env message feishuToken pdfs A r ->
  uploads A = map (fun o => (file_name_of_key (fst o), snd o)) (fetched A).
Proof.
  inversion 1; subst;
    repeat match goal with
    | H : Uploaded _ _ _ _ _ _ _ |- _ => apply Uploaded_bytes in H
    | H : Deleted _ _ _ |- _ => apply Deleted_no_upload in H; destruct H
    | H : match ?r with Normal _ => _ | Thrown _ => _ end |- _ =>
        destruct r; [destruct H as (? & ? & ? & ->) | destruct H as [-> ->]]
    end;
    unfold uploads, fetched in *; project; rewrite ?app_nil_r;
    try reflexivity; try assumption.
Qed.

Lemma Piped_bytes P r :
  Piped parse env message feishuToken P r ->
  uploads P = map (fun o => (file_name_of_key (fst o), snd o)) (fetched P).
Proof.
  inversion 1; subst; try reflexivity.
  match goal with H : Analysed _ _ _ _ _ _ _ |- _ => apply Analysed_bytes in H end.
  unfold uploads, fetched in *; project. reflexivity.
Qed.

End PipedFacts.

Section Runs.

Variable parse : jsstring -> Res JsValue.
Variable stringify : JsValue -> jsstring.
Variable W : World.

Lemma pipeline_no_message (env : MoltbotEnv) (message feishuToken : JsValue)
  (h : list Event) :
  nullish message = true ->
  pipeline parse stringify W env message feishuToken h
  = ([], Thrown (cannot_read message (lit "message_id"))).
Proof.
  intros Hmsg. unfold pipeline. unfold_monad. unfold get. now rewrite Hmsg.
Qed.

(** A run of [processPdfAndReply], with its outcome: nothing without the
    credentials, the token request alone when no token is granted, and else
    the pipeline followed by the report of its error. *)
Lemma run_anatomy (env : MoltbotEnv) (message : JsValue) (h : list Event) :
  let t := events (processPdfAndReply parse stringify W env message) h in
  let o := outcome (processPdfAndReply parse stringify W env message) h in
  (configured (FEISHU_APP_ID env) && configured (FEISHU_APP_SECRET env) = false
   /\ t = [] /\ o = Normal tt) \/
  (exists rr, granted parse rr = None /\ t = [token_event env rr] /\ o = Normal tt) \/
  (exists rr feishuToken P r F,
     granted parse rr = Some feishuToken /\
     t = token_event env rr :: P ++ F /\
     Piped parse env message feishuToken P r /\
     match r with
     | Normal _ =>
         nullish message = false /\ calm parse stringify env P /\
         F = [] /\ o = Normal tt
     | Thrown e =>
         (nullish message = true /\ P = [] /\ F = [] /\ exists e', o = Thrown e') \/
         (nullish message = false /\
          blamed parse stringify env P e /\
          exists rr',
            F = [reply_event feishuToken (own_prop message (lit "message_id"))
                   (failure_text e) rr'] /\
            (if answered parse rr' then o = Normal tt else exists e', o = Thrown e'))
     end).
Proof.
  intros t o. subst t o. unfold events, outcome.
  destruct (configured (FEISHU_APP_ID env)) eqn:Hid.
  2: { left. unfold processPdfAndReply. rewrite Hid. auto. }
  destruct (configured (FEISHU_APP_SECRET env)) eqn:Hsecret.
  2: { left. unfold processPdfAndReply. rewrite Hid, Hsecret. auto. }
  right.
  pose proof (@processPdfAndReply_run parse stringify W env message h Hid Hsecret)
    as Hrun.
  cbv zeta in Hrun.
  destruct (granted parse _) as [feishuToken|] eqn:Hgr.
  2: { left. eexists. rewrite Hrun. eauto. }
  right. destruct Hrun as (P & r & F & r' & HP & -> & Hr).
  destruct (pipeline_shape parse stringify W env message feishuToken
              (h ++ [token_event env
                       (w_fetch W h (TokenRequest (FEISHU_APP_ID env)
                                                  (FEISHU_APP_SECRET env)))]))
    as (P' & r0 & HP' & HS).
  rewrite HP in HP'. injection HP' as <- <-.
  eexists _, feishuToken, P, r, F. cbn [fst snd].
  split; [exact Hgr|]. split; [reflexivity|]. split; [exact HS|].
  destruct (nullish message) eqn:Hmsg.
  - rewrite pipeline_no_message in HP by assumption. injection HP as <- <-.
    left. unfold get in Hr. rewrite Hmsg in Hr. destruct Hr as [-> ->]. eauto 6.
  - pose proof (@pipeline_blame parse stringify W env message feishuToken
                  (h ++ [token_event env
                           (w_fetch W h (TokenRequest (FEISHU_APP_ID env)
                                                      (FEISHU_APP_SECRET env)))])
                  Hmsg) as Hb.
    unfold Blame in Hb. rewrite HP in Hb.
    destruct r as [u|e].
    + destruct Hr as [-> ->]. auto.
    + right. rewrite get_not_nullish in Hr by assumption. auto.
Qed.

(** An event to blame, in a trace that starts with a part free of them,
    lies behind that part. *)
Lemma first_blame (env : MoltbotEnv) (X Y before after : list Event) (ev : Event)
  (e : JsError) :
  calm parse stringify env X ->
  X ++ Y = before ++ ev :: after ->
  verdict parse stringify env ev = Some e ->
  exists Y1, before = X ++ Y1 /\ Y = Y1 ++ ev :: after.
Proof.
  intros HX. revert before. induction HX as [|x X Hx _ IH]; intros before E Hev.
  - now exists before.
  - destruct before as [|b before]; cbn [app] in E.
    + injection E as -> _. congruence.
    + injection E as -> E. destruct (IH _ E Hev) as (Y1 & -> & ->). now exists Y1.
Qed.




(** The calls of a run: the token request first, then calls of the
    pipeline that carry the granted token. *)
Lemma run_calls (env : MoltbotEnv) (message : JsValue) (h : list Event) :
  let t := events (processPdfAndReply parse stringify W env message) h in
  t = [] \/
  exists rr,
    t = token_event env rr :: tl t /\
    forall ev, In ev (tl t) ->
      exists feishuToken,
        granted parse rr = Some feishuToken /\
        shaped_call env message feishuToken ev.
Proof.
  intros t.
  destruct (run_anatomy env message h)
    as [(_ & Ht & _)|[(rr & Hg & Ht & _)|(rr & tok & P & r & F & Hg & Ht & HS & Hr)]];
    fold t in Ht; rewrite Ht; [now left| |]; right; exists rr; cbn [tl];
    (split; [reflexivity|]); [intros ev []|].
  intros ev Hin. exists tok. split; [assumption|].
  apply in_app_or in Hin as [Hin|Hin].
  - apply Piped_calls in HS. rewrite Forall_forall in HS. now apply HS.
  - destruct r as [u|e].
    + destruct Hr as (_ & _ & -> & _). destruct Hin.
    + destruct Hr as [(_ & _ & -> & _)|(_ & _ & rr' & -> & _)]; [destruct Hin|].
      destruct Hin as [<-|[]]. repeat split.
Qed.

(** X20.  When no token is granted the run ends there: the token request
    is its only call, the conversation gets no reply, and the run returns. *)
Theorem X20_refused_token_ends_the_run (env : MoltbotEnv) (message : JsValue)
  (h : list Event) (appId appSecret : option jsstring) (rr : Res Response) :
  let t := events (processPdfAndReply parse stringify W env message) h in
  In (EvFetch (TokenRequest appId appSecret) rr) t ->
  granted parse rr = None ->
  t = [EvFetch (TokenRequest appId appSecret) rr] /\
  outcome (processPdfAndReply parse stringify W env message) h = Normal tt.
Proof.
  intros t Hin Hno.
  destruct (run_anatomy env message h)
    as [(_ & Ht & _)|[(rr0 & Hg & Ht & Ho)|(rr0 & tok & P & r & F & Hg & Ht & HS & Hr)]];
    fold t in Ht; rewrite Ht in *.
  - destruct Hin.
  - destruct Hin as [E|[]]. now rewrite E.
  - exfalso. destruct Hin as [E|Hin].
    + injection E as _ _ <-. congruence.
    + destruct (run_calls env message h) as [E|(rr1 & E & Hcalls)];
        [fold t in E; rewrite Ht in E; discriminate|].
      fold t in Hcalls. rewrite Ht in Hcalls. cbn [tl] in Hcalls.
      destruct (Hcalls _ Hin) as (tok' & _ & []).
Qed.

Lemma first_error (env : MoltbotEnv) (message : JsValue)
  (h : list Event) (before after : list Event) (ev : Event) (e : JsError) :
  events (processPdfAndReply parse stringify W env message) h
  = before ++ ev :: after ->
  verdict parse stringify env ev = Some e ->
  (exists auth mid ty rr,
     after = [EvFetch (ReplyRequest auth mid (failure_text e) ty) rr]) \/
  (after = [] /\
   exists auth mid text ty rr,
     ev = EvFetch (ReplyRequest auth mid text ty) rr /\
     startsWith text Text.failure_head = true).
Proof.
  intros Ht Hev.
  destruct (run_anatomy env message h)
    as [(_ & E & _)|[(rr0 & Hg & E & Ho)|(rr0 & tok & P & r & F & Hg & E & HS & Hr)]];
    rewrite E in Ht; clear E.
  - destruct before; discriminate.
  - destruct before as [|? [|? ?]]; try discriminate.
    injection Ht as <- <-. discriminate.
  - destruct r as [u|e0].
    + destruct Hr as (_ & Hcalm & -> & _). exfalso.
      rewrite app_nil_r in Ht.
      assert (Hall : calm parse stringify env (token_event env rr0 :: P))
        by (constructor; [reflexivity|assumption]).
      unfold calm in Hall. rewrite Ht in Hall.
      apply Forall_app in Hall as [_ Hall]. inversion Hall; congruence.
    + destruct Hr as [(_ & -> & -> & _)|(_ & (b & ev0 & -> & Hb & Hev0) & rr' & -> & _)].
      * destruct before as [|? [|? ?]]; try discriminate.
        injection Ht as <- <-. discriminate.
      * assert (Hall : calm parse stringify env (token_event env rr0 :: b))
          by (constructor; [reflexivity|assumption]).
        replace (token_event env rr0 :: (b ++ [ev0]) ++
                 [reply_event tok (own_prop message (lit "message_id"))
                    (failure_text e0) rr'])
          with ((token_event env rr0 :: b) ++
                [ev0; reply_event tok (own_prop message (lit "message_id"))
                        (failure_text e0) rr']) in Ht
          by (cbn [app]; now rewrite <- app_assoc).
        destruct (@first_blame env _ _ _ _ _ _ Hall Ht Hev) as (Y1 & _ & HY).
        destruct Y1 as [|y1 [|y2 [|? ?]]]; cbn [app] in HY.
        -- injection HY as <- <-. left.
           assert (e = e0) by congruence. subst e0.
           unfold reply_event. eauto.
        -- injection HY as _ <- <-. right. split; [reflexivity|].
           unfold reply_event. eexists _, _, _, _, _. split; [reflexivity|].
           apply failure_text_head.
        -- discriminate.
        -- discriminate.
Qed.

(** Without the key of the understanding service a run stops at the
    listing. *)
Lemma without_key (env : MoltbotEnv) (message : JsValue) (h : list Event) :
  configured (DASHSCOPE_API_KEY env) = false ->
  let t := events (processPdfAndReply parse stringify W env message) h in
  Forall (fun ev => bucket_read ev = false /\ understanding_call ev = false /\
                    document_call ev = false /\ deletion ev = false) t /\
  forall before prefix objs after,
    t = before ++ EvList prefix (Normal objs) :: after ->
    filter (fun o => is_pdf_name (key o)) objs <> [] ->
    exists auth mid ty rr,
      after = [EvFetch (ReplyRequest auth mid (failure_text (Err Text.no_api_key)) ty)
                 rr].
Proof.
  intros Hkey t.
  assert (Hlist : forall before prefix objs after,
            t = before ++ EvList prefix (Normal objs) :: after ->
            filter (fun o => is_pdf_name (key o)) objs <> [] ->
            exists auth mid ty rr,
              after = [EvFetch (ReplyRequest auth mid
                                  (failure_text (Err Text.no_api_key)) ty) rr]).
  { intros before prefix objs after Ht Hpdf.
    assert (Hv : verdict parse stringify env (EvList prefix (Normal objs))
                 = Some (Err Text.no_api_key)).
    { cbn [verdict]. rewrite Hkey.
      destruct (filter _ objs); [contradiction|reflexivity]. }
    destruct (@first_error env message h _ _ _ _ Ht Hv)
      as [H|(_ & ? & ? & ? & ? & ? & [=] & _)].
    exact H. }
  split; [|exact Hlist].
  pose proof (processPdfAndReply_shape parse stringify W env message h) as Hs.
  fold t in Hs, Hlist. clearbody t.
  by_shape Hs.
  all: try solve [repeat constructor].
  all: match goal with
       | |- Forall _ (?tok :: ([?rep; EvList ?p (Normal ?objs)] ++ ?A) ++ ?F) =>
           destruct (Hlist [tok; rep] p objs (A ++ F))
             as (auth & mid & ty & rr' & E);
           [ cbn [app]; rewrite <- ?app_assoc; reflexivity | assumption | ];
           replace (tok :: ([rep; EvList p (Normal objs)] ++ A) ++ F)
             with ([tok; rep; EvList p (Normal objs)] ++ A ++ F)
             by (cbn [app]; rewrite <- ?app_assoc; reflexivity);
           rewrite E; repeat constructor
       end.
Qed.


(** X21.  A run starts with the token request for the application of the
    environment.  Every later call is a call of the pipeline: replies go to
    the triggering message as [text] with [Bearer] and the granted token in
    the header, the document calls carry the same header, the calls to the
    understanding service carry [Bearer] and the configured API key, and the
    listing is made under [chat_data/{chat_id}/].  A run never writes to the
    bucket, never downloads a resource and never reads the clock. *)
Theorem X21_calls_carry_the_credentials (env : MoltbotEnv) (message : JsValue)
  (h : list Event) :
  let t := events (processPdfAndReply parse stringify W env message) h in
  t = [] \/
  exists rr,
    t = EvFetch (TokenRequest (FEISHU_APP_ID env) (FEISHU_APP_SECRET env)) rr :: tl t /\
    forall ev, In ev (tl t) ->
      exists feishuToken,
        granted parse rr = Some feishuToken /\
        pipeline_call env message feishuToken ev.
Proof.
  intros t.
  destruct (run_calls env message h) as [E|(rr & E & Hcalls)]; [now left|].
  fold t in E, Hcalls. right. exists rr. split; [exact E|].
  intros ev Hin. destruct (Hcalls ev Hin) as (tok & Hg & Hcall).
  exists tok. split; [exact Hg|].
  assert (Hkey : understanding_call ev = true ->
                 exists apiKey,
                   DASHSCOPE_API_KEY env = Some apiKey /\ apiKey <> [] /\
                   lit "Bearer " ++ api_key env = lit "Bearer " ++ apiKey).
  { intros Hev. unfold api_key.
    destruct (DASHSCOPE_API_KEY env) as [[|c k]|] eqn:Hk.
    2: { exists (c :: k). repeat split. discriminate. }
    all: exfalso;
      assert (Hno : configured (DASHSCOPE_API_KEY env) = false)
        by (rewrite Hk; reflexivity);
      destruct (without_key env message h Hno) as [Hall _];
      fold t in Hall; rewrite Forall_forall in Hall;
      assert (Hin' : In ev t) by (rewrite E; now right);
      destruct (Hall ev Hin') as (_ & Hu & _); congruence. }
  destruct ev as [[] ?| | | | |]; cbn [shaped_call] in Hcall;
    cbn [pipeline_call]; unfold bearer, chat_prefix in Hcall; cbn [ToString] in Hcall;
    try exact Hcall; try exact I.
  - destruct Hcall as [-> ->]. split; [|reflexivity].
    destruct (Hkey eq_refl) as (apiKey & Hk & Hne & Heq).
    exists apiKey. auto.
  - destruct Hcall as [-> ->]. split; [|reflexivity].
    destruct (Hkey eq_refl) as (apiKey & Hk & Hne & Heq).
    exists apiKey. auto.
Qed.




(** X24.  The files sent to the understanding service are the objects the
    bucket gave, in order: each with the bytes that were read and under the
    name computed from its key. *)
Theorem X24_uploads_are_the_fetched_objects (env : MoltbotEnv) (message : JsValue)
  (h : list Event) :
  let t := events (processPdfAndReply parse stringify W env message) h in
  uploads t = map (fun o => (file_name_of_key (fst o), snd o)) (fetched t).
Proof.
  intros t.
  destruct (run_anatomy env message h)
    as [(_ & Ht & _)|[(rr & Hg & Ht & _)|(rr & tok & P & r & F & Hg & Ht & HS & Hr)]];
    fold t in Ht; rewrite Ht; try reflexivity.
  apply Piped_bytes in HS.
  assert (HF : uploads F = [] /\ fetched F = []).
  { destruct r as [u|e].
    - destruct Hr as (_ & _ & -> & _). now split.
    - destruct Hr as [(_ & _ & -> & _)|(_ & _ & rr' & -> & _)]; now split. }
  destruct HF as [HF1 HF2].
  unfold uploads, fetched in *.
  rewrite !pick_cons, !pick_app, HF1, HF2, !app_nil_r. exact HS.
Qed.

(** X25.  A run stops at the first call that raises an error: the only
    call after it is the failure reply with the message of that error.  When
    that reply is itself the call that fails, nothing follows. *)
Theorem X25_run_stops_at_the_first_error (env : MoltbotEnv) (message : JsValue)
  (h : list Event) (before after : list Event) (ev : Event) (e : JsError) :
  events (processPdfAndReply parse stringify W env message) h
  = before ++ ev :: after ->
  verdict parse stringify env ev = Some e ->
  (exists auth mid ty rr,
     after = [EvFetch (ReplyRequest auth mid (failure_text e) ty) rr]) \/
  (after = [] /\
   exists auth mid text ty rr,
     ev = EvFetch (ReplyRequest auth mid text ty) rr /\
     startsWith text Text.failure_head = true).
Proof. apply first_error. Qed.

(** X26.  Without the API key a run fetches no object, makes no call to
    the understanding or the document service and deletes nothing.  The key
    is missed only when the listing holds a [.pdf]: the failure reply that
    names the key then follows the listing at once. *)
Theorem X26_missing_api_key_is_reported (env : MoltbotEnv) (message : JsValue)
  (h : list Event) :
  configured (DASHSCOPE_API_KEY env) = false ->
  let t := events (processPdfAndReply parse stringify W env message) h in
  Forall (fun ev => bucket_read ev = false /\ understanding_call ev = false /\
                    document_call ev = false /\ deletion ev = false) t /\
  forall before prefix objs after,
    t = before ++ EvList prefix (Normal objs) :: after ->
    filter (fun o => is_pdf_name (key o)) objs <> [] ->
    exists auth mid ty rr,
      after = [EvFetch (ReplyRequest auth mid (failure_text (Err Text.no_api_key)) ty)
                 rr].
Proof. exact (without_key env message h). Qed.

(** X27.  A summary the understanding service generated is written to the
    document as it is: no block is written with any other content, and the
    block goes to the document that was created. *)
Theorem X27_generated_summary_is_written (env : MoltbotEnv) (message : JsValue)
  (h : list Event) (auth model : jsstring)
  (messages : list (jsstring * jsstring)) (rr : Res Response) (text : JsValue) :
  let t := events (processPdfAndReply parse stringify W env message) h in
  In (EvFetch (ChatRequest auth model messages) rr) t ->
  generated_text parse rr = Some text ->
  truthy text = true ->
  (forall id content, In (id, content) (appended t) -> content = text) /\
  (forall auth' title rr' documentId,
     In (EvFetch (CreateDocRequest auth' title) rr') t ->
     created parse rr' = Some documentId ->
     appended t = [(ToString documentId, text)]).
Proof.
  intros t Hin Htext Htruthy.
  pose proof (processPdfAndReply_shape parse stringify W env message h) as Hs.
  fold t in Hs. clearbody t.
  by_steps Hs; in_cases Hin.
  all: try not_in_cleanup Hin.
  all: try not_in_upload Hin.
  all: injection Hin as _ _ _ E; subst.
  all: try congruence.
  all: match goal with
       | H : generated_text parse ?r = Some ?x |- _ =>
           rewrite Htext in H; injection H as <-
       end.
  all: try (unfold summary_of, or_else; rewrite Htruthy).
  all: split;
    [ intros id content Hc; facts parse; project; revert Hc; project;
      cbn [In]; intros Hc;
      repeat destruct Hc as [Hc|Hc]; try contradiction; congruence |].
  all: intros auth' title created_rr documentId' Hcr Hid.
  all: in_cases Hcr.
  all: try not_in_cleanup Hcr.
  all: try not_in_upload Hcr.
  all: injection Hcr as _ _ E; subst.
  all: try congruence.
  all: match goal with
       | H : created parse ?r = Some ?x |- _ =>
           rewrite Hid in H; injection H as <-
       end.
  all: facts parse; project; reflexivity.
Qed.

(** X28.  A run lists the bucket, asks for a summary, creates a document
    and writes a block at most once each, and the objects it asks the bucket
    for are files gathered from its listing, in their order. *)
Theorem X28_one_report_per_run (env : MoltbotEnv) (message : JsValue)
  (h : list Event) :
  let t := events (processPdfAndReply parse stringify W env message) h in
  (List.length (listings t) <= 1)%nat /\
  (List.length (chat_requests t) <= 1)%nat /\
  (List.length (titles t) <= 1)%nat /\
  (List.length (appended t) <= 1)%nat /\
  forall objs, In objs (listings t) ->
    Prefix (get_keys t) (map key (gathered objs)).
Proof.
  intros t.
  pose proof (processPdfAndReply_shape parse stringify W env message h) as Hs.
  fold t in Hs. clearbody t.
  by_steps Hs.
  all: repeat match goal with
       | HU : Uploaded _ _ _ _ _ _ _ |- _ =>
           pose proof (Uploaded_get_keys HU); revert HU
       end; intros.
  all: facts parse; project; cbn [List.length].
  all: repeat split; try lia.
  all: intros objs' Hobjs; cbn [In] in Hobjs;
    repeat destruct Hobjs as [Hobjs|Hobjs]; try contradiction; subst;
    try apply Prefix_nil; try apply Prefix_refl; try assumption.
Qed.

End Runs.

(* ================================================================== *)
(** * Further properties: from the attachment to the listing *)
(* ================================================================== *)

Section EndToEnd.

Variable parse : jsstring -> Res JsValue.
Variable stringify : JsValue -> jsstring.
Variable W : World.

(** The handler [.catch(console.error)] of a task adds no call. *)
Lemma run_task_events (env : MoltbotEnv) (task : Task) (h : list Event) :
  events (run_task parse stringify W env task) h
  = match task with
    | ProcessPdf message =>
        events (processPdfAndReply parse stringify W env message) h
    | SaveFile messageId fileKey fileName chatId =>
        events (downloadAndSaveFeishuFile parse W env messageId fileKey fileName
                  chatId) h
    end.
Proof.
  unfold events, run_task, try_catch, ret.
  destruct task;
    match goal with
    | |- context [match ?run with _ => _ end] => destruct run as [t [u|e]]
    end; cbn [fst]; rewrite ?app_nil_r; reflexivity.
Qed.

(** X29.  A file the webhook hands to the stager is written under a key
    that the pipeline of the same conversation finds: the key starts with the
    prefix the pipeline lists, and passes its [.pdf] filter. *)
Theorem X29_staged_files_are_listed (env : MoltbotEnv) (bodyText : jsstring)
  (messageId fileKey : JsValue) (fileName : jsstring) (chatId : JsValue)
  (h : list Event) (k : jsstring) (data : ArrayBuffer) (r : Res unit)
  (trigger : JsValue) (h' : list Event) (prefix : jsstring)
  (r' : Res (list R2Object)) :
  In (SaveFile messageId fileKey fileName chatId) (snd (webhook parse env bodyText)) ->
  In (EvPut k data r)
     (events (run_task parse stringify W env
                (SaveFile messageId fileKey fileName chatId)) h) ->
  own_prop trigger (lit "chat_id") = chatId ->
  In (EvList prefix r')
     (events (run_task parse stringify W env (ProcessPdf trigger)) h') ->
  startsWith k prefix = true /\ is_pdf_name k = true.
Proof.
  intros Htask Hput Hchat Hlist.
  rewrite run_task_events in Hput, Hlist.
  (* the name passed the filter of the handler *)
  assert (Hname : is_pdf_name fileName = true).
  { destruct (@task_origin parse env bodyText _ Htask)
      as (d & m & _ & _ & [[_ [=]]|(_ & fk & fn & E & _ & Hpdf)]).
    injection E as _ _ -> _. exact Hpdf. }
  (* the key is the one of the stager *)
  apply stager_keys in Hput as (now & _ & ->).
  (* the listing is made under the prefix of the conversation *)
  assert (Hprefix : prefix = chat_prefix chatId).
  { destruct (run_calls parse stringify W env trigger h') as [E|(rr & E & Hcalls)].
    - rewrite E in Hlist. destruct Hlist.
    - rewrite E in Hlist. destruct Hlist as [[=]|Hlist].
      destruct (Hcalls _ Hlist) as (tok & _ & Hcall).
      cbn [shaped_call] in Hcall. now rewrite Hchat in Hcall. }
  subst prefix. split.
  - apply object_key_has_prefix.
  - now rewrite key_passes_like_name.
Qed.

End EndToEnd.

(* ================================================================== *)
(** * The further properties at work *)
(* ================================================================== *)

(** X4 applies: the attachment [Report.PDF] is handed to the stager. *)
Lemma X4_witness :
  let bodyText := lit "file-event:attachment:Report.PDF" in
  let task := SaveFile (VStr (lit "om_2")) (VStr (lit "file_v2_1"))
                       (lit "Report.PDF") (VStr (lit "c1")) in
  In task (snd (webhook Demo.parse Demo.env bodyText)) /\
  exists data message,
    Demo.parse bodyText = Normal data /\
    message_event Demo.env data message /\
    ((own_prop message (lit "message_type") = VStr (lit "text") /\
      task = ProcessPdf message) \/
     (own_prop message (lit "message_type") = VStr (lit "file") /\
      exists fileKey fileName,
        task = SaveFile (own_prop message (lit "message_id")) fileKey fileName
                        (own_prop message (lit "chat_id")) /\
        truthy fileKey = true /\ is_pdf_name fileName = true)).
Proof.
  intros bodyText task.
  assert (Hin : In task (snd (webhook Demo.parse Demo.env bodyText)))
    by (left; reflexivity).
  split; [exact Hin|].
  exact (@X4_webhook_task_origin Demo.parse Demo.env bodyText task Hin).
Defined.

(** X5 applies: a text that holds the first trigger phrase. *)
Lemma X5_witness :
  let bodyText := lit "text-event:say:" ++ Text.trigger_1 in
  let data := Cases.text_event_data (lit "say:" ++ Text.trigger_1) in
  let message := own_prop (own_prop data (lit "event")) (lit "message") in
  let contentObj := VObj [(lit "text", VStr Text.trigger_1)] in
  Cases.parse bodyText = Normal data /\
  message_event Demo.env data message /\
  webhook Cases.parse Demo.env bodyText
  = (mkReply [(lit "ok", VBool true)] 200, [ProcessPdf message]).
Proof.
  intros bodyText data message contentObj.
  assert (Hparse : Cases.parse bodyText = Normal data) by reflexivity.
  assert (Hev : message_event Demo.env data message)
    by (repeat split; try reflexivity; discriminate).
  split; [exact Hparse|]. split; [exact Hev|].
  exact (@X5_text_message_trigger Cases.parse Demo.env bodyText data message
           contentObj Text.trigger_1 Hparse Hev eq_refl eq_refl eq_refl).
Defined.

(** X6 applies: the content [hello] is not JSON. *)
Lemma X6_witness :
  let bodyText := lit "text-event:hello" in
  let data := Cases.text_event_data (lit "hello") in
  let message := own_prop (own_prop data (lit "event")) (lit "message") in
  Cases.parse bodyText = Normal data /\
  message_event Demo.env data message /\
  Cases.parse (ToString (own_prop message (lit "content")))
  = Thrown (Err (lit "Unexpected token")) /\
  webhook Cases.parse Demo.env bodyText = (mkReply [(lit "ok", VBool true)] 200, []).
Proof.
  intros bodyText data message.
  assert (Hparse : Cases.parse bodyText = Normal data) by reflexivity.
  assert (Hev : message_event Demo.env data message)
    by (repeat split; try reflexivity; discriminate).
  assert (Hcontent : Cases.parse (ToString (own_prop message (lit "content")))
                     = Thrown (Err (lit "Unexpected token"))) by reflexivity.
  split; [exact Hparse|]. split; [exact Hev|]. split; [exact Hcontent|].
  exact (@X6_unreadable_content_starts_nothing Cases.parse Demo.env bodyText data
           message _ Hparse Hev eq_refl Hcontent).
Defined.

(** X7 applies: a message event that holds no message. *)
Lemma X7_witness :
  let message := own_prop (own_prop Cases.empty_event_data (lit "event"))
                          (lit "message") in
  Cases.parse (lit "empty-event") = Normal Cases.empty_event_data /\
  message_event Demo.env Cases.empty_event_data message /\
  nullish message = true /\
  webhook Cases.parse Demo.env (lit "empty-event")
  = (mkReply [(lit "error", VStr (lit "Internal server error"))] 500, []).
Proof.
  intros message.
  assert (Hparse : Cases.parse (lit "empty-event") = Normal Cases.empty_event_data)
    by reflexivity.
  assert (Hev : message_event Demo.env Cases.empty_event_data message)
    by (repeat split; try reflexivity; discriminate).
  split; [exact Hparse|]. split; [exact Hev|]. split; [reflexivity|].
  apply (@X7_broken_event_is_500 Cases.parse Demo.env (lit "empty-event")
           Cases.empty_event_data Hparse).
  right. exists message. split; [exact Hev|]. left. reflexivity.
Defined.

(** X8 applies: the platform answers the token request with an error code
    and no [msg]. *)
Lemma X8_witness :
  outcome (getFeishuToken Demo.parse Cases.token_refused (Some (lit "cli_a1"))
             (Some (lit "s3cret"))) []
  = Thrown (Err (lit "Failed to get Feishu token: undefined")).
Proof.
  apply (proj2 (proj2 (@X8_token_needs_code_zero Demo.parse Cases.token_refused
                         (Some (lit "cli_a1")) (Some (lit "s3cret")) []))
           (mkResponse true 200 (lit "OK") (Normal (lit "refused")) (Normal []))
           (lit "refused")
           (VObj [(lit "code", VNum 1770001)]));
    [reflexivity | reflexivity | reflexivity | reflexivity | discriminate].
Defined.

(** X11 applies: the attachment is stored at the time 100. *)
Lemma X11_witness :
  let t := events (Cases.stage Demo.calm) [] in
  In (EvPut (lit "chat_data/c1/100_Report.PDF") Demo.pdf_bytes (Normal tt)) t /\
  exists auth res now,
    In (EvFetch (ResourceRequest auth (lit "om_2") (lit "file_v2_1")) (Normal res)) t /\
    ok res = true /\
    bytes res = Normal Demo.pdf_bytes /\
    In (EvNow now) t /\
    lit "chat_data/c1/100_Report.PDF" = object_key (VStr (lit "c1")) now (lit "Report.PDF").
Proof.
  intros t.
  assert (Hin : In (EvPut (lit "chat_data/c1/100_Report.PDF") Demo.pdf_bytes
                      (Normal tt)) t) by found.
  split; [exact Hin|].
  exact (@X11_stager_stores_the_download Demo.parse Demo.calm Demo.env
           (VStr (lit "om_2")) (VStr (lit "file_v2_1")) (lit "Report.PDF")
           (VStr (lit "c1")) [] _ _ _ Hin).
Defined.

(** X12 applies: the confirmation for [Report.PDF] was sent. *)
Lemma X12_witness :
  let t := events (Cases.stage Demo.calm) [] in
  In (staged_text (lit "Report.PDF")) (replies t) /\
  exists auth res data now,
    In (EvFetch (ResourceRequest auth (lit "om_2") (lit "file_v2_1")) (Normal res)) t /\
    ok res = true /\
    bytes res = Normal data /\
    In (EvNow now) t /\
    forall b k,
      store_after t b k
      = if JsString.eqb k (object_key (VStr (lit "c1")) now (lit "Report.PDF"))
        then Some data else b k.
Proof.
  intros t.
  assert (Hin : In (staged_text (lit "Report.PDF")) (replies t)) by found.
  split; [exact Hin|].
  exact (@X12_confirmation_means_stored Demo.parse Demo.calm Demo.env
           (VStr (lit "om_2")) (VStr (lit "file_v2_1")) (lit "Report.PDF")
           (VStr (lit "c1")) [] Hin).
Defined.

(** X13 applies: the download is answered 404. *)
Lemma X13_witness :
  let t := events (Cases.stage Cases.download_refused) [] in
  let res := mkResponse false 404 (lit "Not Found") (Normal []) (Normal []) in
  In (EvFetch (ResourceRequest Demo.doc_authorization (lit "om_2") (lit "file_v2_1"))
        (Normal res)) t /\
  ok res = false /\
  replies t = [Text.download_failed] /\
  puts t = [] /\
  forall b, store_after t b = b.
Proof.
  intros t res.
  assert (Hin : In (EvFetch (ResourceRequest Demo.doc_authorization (lit "om_2")
                               (lit "file_v2_1")) (Normal res)) t) by found.
  split; [exact Hin|]. split; [reflexivity|].
  exact (@X13_refused_download_stores_nothing Demo.parse Cases.download_refused
           Demo.env (VStr (lit "om_2")) (VStr (lit "file_v2_1")) (lit "Report.PDF")
           (VStr (lit "c1")) [] _ _ _ res Hin eq_refl).
Defined.

(** A download that is answered 200 with a body that cannot be read: the
    stager stops there, stores nothing and sends nothing. *)
Example unreadable_download_is_silent :
  let res := mkResponse true 200 (lit "OK") (Normal [])
               (Thrown (Err (lit "body stream error"))) in
  Cases.stage Cases.download_unreadable []
  = ([EvFetch (TokenRequest (Some (lit "cli_a1")) (Some (lit "s3cret")))
        (Demo.answer "token");
      EvFetch (ResourceRequest Demo.doc_authorization (lit "om_2") (lit "file_v2_1"))
        (Normal res)],
     Normal tt).
Proof. reflexivity. Qed.

(** X19 applies: one key, one time and one name. *)
Lemma X19_witness :
  object_key (VStr (lit "c1")) 100 (lit "a_b.pdf")
  = object_key (VStr (lit "c1")) 100 (lit "a_b.pdf") /\
  100%Z = 100%Z /\ lit "a_b.pdf" = lit "a_b.pdf".
Proof.
  split; [reflexivity|].
  exact (@X19_object_key_injective (VStr (lit "c1")) 100 100 (lit "a_b.pdf")
           (lit "a_b.pdf") eq_refl).
Defined.

(** X20 applies: the platform grants no token. *)
Lemma X20_witness :
  let run := Cases.process Cases.token_refused Demo.env in
  let ev := EvFetch (TokenRequest (Some (lit "cli_a1")) (Some (lit "s3cret")))
              (Demo.answer "refused") in
  In ev (events run []) /\
  granted Demo.parse (Demo.answer "refused") = None /\
  events run [] = [ev] /\
  outcome run [] = Normal tt.
Proof.
  intros run ev.
  assert (Hin : In ev (events run [])) by found.
  assert (Hno : granted Demo.parse (Demo.answer "refused") = None) by reflexivity.
  split; [exact Hin|]. split; [exact Hno|].
  exact (@X20_refused_token_ends_the_run Demo.parse Demo.stringify
           Cases.token_refused Demo.env Demo.message [] _ _ _ Hin Hno).
Defined.

(** X26 applies: the key of the understanding service is not set. *)
Lemma X26_witness :
  let t := events (Cases.process Demo.calm Cases.env_without_key) [] in
  configured (DASHSCOPE_API_KEY Cases.env_without_key) = false /\
  Forall (fun ev => bucket_read ev = false /\ understanding_call ev = false /\
                    document_call ev = false /\ deletion ev = false) t /\
  replies t = [Text.processing; failure_text (Err Text.no_api_key)].
Proof.
  intros t.
  assert (Hkey : configured (DASHSCOPE_API_KEY Cases.env_without_key) = false)
    by reflexivity.
  split; [exact Hkey|].
  split; [|reflexivity].
  exact (proj1 (@X26_missing_api_key_is_reported Demo.parse Demo.stringify
                  Demo.calm Cases.env_without_key Demo.message [] Hkey)).
Defined.

(** X27 applies: the summary [good] is what the document gets. *)
Lemma X27_witness :
  let t := Demo.trace Demo.calm in
  let rr := Demo.answer "summary:good" in
  In (EvFetch (ChatRequest Demo.api_authorization (lit "qwen-long")
                 (chat_messages [VStr (lit "file-data/c1/100_a.pdf");
                                 VStr (lit "file-data/c1/200_b.pdf")])) rr) t /\
  generated_text Demo.parse rr = Some (VStr (lit "good")) /\
  truthy (VStr (lit "good")) = true /\
  appended t = [(lit "D1", VStr (lit "good"))].
Proof.
  intros t rr.
  assert (Hin : In (EvFetch (ChatRequest Demo.api_authorization (lit "qwen-long")
                               (chat_messages [VStr (lit "file-data/c1/100_a.pdf");
                                               VStr (lit "file-data/c1/200_b.pdf")]))
                       rr) t) by found.
  assert (Htext : generated_text Demo.parse rr = Some (VStr (lit "good")))
    by reflexivity.
  split; [exact Hin|]. split; [exact Htext|]. split; [reflexivity|].
  destruct (@X27_generated_summary_is_written Demo.parse Demo.stringify
              Demo.calm Demo.env Demo.message [] _ _ _ _ _ Hin Htext eq_refl)
    as [_ Hdoc].
  assert (Hcreate : In (EvFetch (CreateDocRequest Demo.doc_authorization
                                   (report_title [lit "data/c1/100_a.pdf";
                                                  lit "data/c1/200_b.pdf"]))
                          (Demo.answer "doc:D1")) t) by found.
  exact (Hdoc _ _ _ (VStr (lit "D1")) Hcreate eq_refl).
Defined.

(** X25 applies: the bucket cannot be listed. *)
Lemma X25_witness :
  let t := events (Cases.process Cases.listing_fails Demo.env) [] in
  let e := Err (lit "bucket unavailable") in
  let ev := EvList (lit "chat_data/c1/") (Thrown e) in
  t = firstn 2 t ++ ev :: skipn 3 t /\
  verdict Demo.parse Demo.stringify Demo.env ev = Some e /\
  exists auth mid ty rr,
    skipn 3 t = [EvFetch (ReplyRequest auth mid (failure_text e) ty) rr].
Proof.
  intros t e ev.
  assert (Ht : t = firstn 2 t ++ ev :: skipn 3 t) by reflexivity.
  assert (Hev : verdict Demo.parse Demo.stringify Demo.env ev = Some e)
    by reflexivity.
  split; [exact Ht|]. split; [exact Hev|].
  destruct (@X25_run_stops_at_the_first_error Demo.parse Demo.stringify
              Cases.listing_fails Demo.env Demo.message [] _ _ _ _ Ht Hev)
    as [H|[_ (? & ? & ? & ? & ? & E & _)]]; [exact H|discriminate E].
Defined.



(** X29 applies: [Report.PDF], staged from conversation [c1], is under the
    prefix of the listing that a trigger of [c1] makes. *)
Lemma X29_witness :
  let task := SaveFile (VStr (lit "om_2")) (VStr (lit "file_v2_1"))
                       (lit "Report.PDF") (VStr (lit "c1")) in
  let k := lit "chat_data/c1/100_Report.PDF" in
  let prefix := lit "chat_data/c1/" in
  In task (snd (webhook Demo.parse Demo.env (lit "file-event:attachment:Report.PDF"))) /\
  In (EvPut k Demo.pdf_bytes (Normal tt))
     (events (run_task Demo.parse Demo.stringify Demo.calm Demo.env task) []) /\
  In (EvList prefix (Normal Demo.staged))
     (events (run_task Demo.parse Demo.stringify Demo.calm Demo.env
                (ProcessPdf Demo.message)) []) /\
  startsWith k prefix = true /\ is_pdf_name k = true.
Proof.
  intros task k prefix.
  assert (Htask : In task (snd (webhook Demo.parse Demo.env
                                  (lit "file-event:attachment:Report.PDF"))))
    by (left; reflexivity).
  assert (Hput : In (EvPut k Demo.pdf_bytes (Normal tt))
                    (events (run_task Demo.parse Demo.stringify Demo.calm Demo.env
                               task) [])) by found.
  assert (Hlist : In (EvList prefix (Normal Demo.staged))
                     (events (run_task Demo.parse Demo.stringify Demo.calm Demo.env
                                (ProcessPdf Demo.message)) [])) by found.
  split; [exact Htask|]. split; [exact Hput|]. split; [exact Hlist|].
  exact (@X29_staged_files_are_listed Demo.parse Demo.stringify Demo.calm Demo.env
           (lit "file-event:attachment:Report.PDF") _ _ _ _ [] _ _ _ Demo.message
           [] _ _ Htask Hput eq_refl Hlist).
Defined.
